(** * immudb_wrapper: a shallow embedding of [immudb_wrapper.py]

    The module wraps the immudb client: it notarizes files and git
    repositories into the verified key-value ledger and authenticates them
    later by their content hash.  This development embeds the wrapper class
    [ImmudbWrapper] (its retry decorator, the session operations, the hashing
    and size helpers, the git metadata extractor and the notarization verbs)
    and proves properties of it.

    Conventions of the embedding:
    - Python values that cross the JSON boundary are values of [pyval];
      a [dict] is an association list in insertion order.
    - A Python [str] is a [string] holding its UTF-8 text, [bytes] is a
      [list byte].
    - Exceptions are values of [exn]; a computation yields [res A].
    - The ledger service, the file system and the library functions whose
      result is opaque to the module (hashlib, json, strftime, urlparse,
      format_exc) are parameters of the sections below; the one fact
      assumed of them is that [hashlib] knows sha256, a field of [Libs].
      The library behaviour that the control flow depends on is written
      out: [time.sleep], float division and formatting, [fd.read] on binary
      and text streams, and the revision walk behind GitPython's
      [Commit.iter_parents], shallow clones included.
    - Every call that leaves the process (an RPC, a log line, a sleep) is
      recorded in a ghost trace of [event]s, with its outcome. *)

From Stdlib Require Import ZArith List String Ascii Bool Lia.
From Stdlib.Strings Require Import Byte.
From Stdlib Require Import SpecFloat DecimalString.
Import ListNotations.

#[local] Set Warnings "-register-all".

Local Open Scope string_scope.
Local Open Scope Z_scope.

(** ** Python values *)

Definition bytes := list byte.

Inductive pyval : Type :=
| PNone
| PBool (b : bool)
| PInt (z : Z)
| PStr (s : string)
| PBytes (b : bytes)
| PList (l : list pyval)
| PDict (d : list (string * pyval)).

(** A [dict] restricted to string keys, in insertion order. *)
Definition pydict := list (string * pyval).

Fixpoint dict_get (d : pydict) (k : string) : option pyval :=
  match d with
  | [] => None
  | (k', v) :: d' => if String.eqb k' k then Some v else dict_get d' k
  end.

(** [k in d] *)
Definition dict_mem (k : string) (d : pydict) : bool :=
  match dict_get d k with Some _ => true | None => false end.

(** [d[k] = v]: an existing key keeps its position, a new one is appended. *)
Fixpoint dict_set (d : pydict) (k : string) (v : pyval) : pydict :=
  match d with
  | [] => [(k, v)]
  | (k', v') :: d' =>
      if String.eqb k' k then (k', v) :: d' else (k', v') :: dict_set d' k v
  end.

(** [{**d, **u}]: the items of [u] are stored into [d] one after the other. *)
Definition dict_update (d u : pydict) : pydict :=
  fold_left (fun acc kv => dict_set acc (fst kv) (snd kv)) u d.

(** A dict display [{k1: v1, ...}] is built from the empty dict. *)
Definition dict_display (items : pydict) : pydict := dict_update [] items.

(** A dict has no two items with the same key. *)
Definition dict_wf (d : pydict) : Prop := NoDup (map fst d).

(** ** Exceptions and results *)

Inductive exn : Type :=
| InactiveRpcError (details : option string)
    (* grpc._channel._InactiveRpcError, a subclass of grpc.RpcError *)
| OtherRpcError (what : string)
    (* any other subclass of grpc.RpcError *)
| ValueError (msg : string)
| TypeError (msg : string)
| UnicodeDecodeError
| JSONDecodeError
| OSError (path : string)
| NoSuchPathError (path : string)
    (* git.exc.NoSuchPathError: the path given to [git.Repo] does not exist *)
| InvalidGitRepositoryError (path : string)
    (* git.exc.InvalidGitRepositoryError: the path holds no repository; as
       for the two exceptions above, [path] is the path of the call *)
| ZeroDivisionError
| OverflowError
| BareException.
    (* [Exception()] *)

(** [isinstance(e, RpcError)] *)
Definition is_RpcError (e : exn) : bool :=
  match e with
  | InactiveRpcError _ | OtherRpcError _ => true
  | _ => false
  end.

(** [isinstance(e, _InactiveRpcError)] *)
Definition is_InactiveRpcError (e : exn) : bool :=
  match e with
  | InactiveRpcError _ => true
  | _ => false
  end.

(** [exc.details()] of an [_InactiveRpcError] *)
Definition exc_details_of (e : exn) : option string :=
  match e with
  | InactiveRpcError d => d
  | _ => None
  end.

Inductive res (A : Type) : Type :=
| Ok (a : A)
| Raise (e : exn).
Arguments Ok {A} a.
Arguments Raise {A} e.

(** ** Strings *)

(** [sub in s] on [str] *)
Fixpoint str_in (sub s : string) : bool :=
  if String.prefix sub s then true
  else match s with
       | EmptyString => false
       | String _ s' => str_in sub s'
       end.

(** Truth value of an optional string ([None] and [''] are falsy). *)
Definition str_truthy (o : option string) : bool :=
  match o with
  | None => false
  | Some s => negb (String.eqb s EmptyString)
  end.

(** ** The third-party libraries the module calls *)

Record datetime : Type := {
  dt_timestamp : Z;   (* seconds since the epoch *)
  dt_utcoffset : Z    (* offset of the time zone, in seconds *)
}.

Record Libs : Type := {
  (* [hashlib.new(t)] knows the algorithm [t]; it raises [ValueError]
     otherwise *)
  hashlib_supported : string -> bool;
  (* the digest of [t] has no fixed length (shake_128, shake_256): its
     [hexdigest()] takes a length, and raises [TypeError] without one *)
  hashlib_xof : string -> bool;
  (* [h = hashlib.new(t); h.update(b1); ...; h.hexdigest()] over the bytes fed *)
  hashlib_hexdigest : string -> bytes -> string;
  (* [json.dumps]; [None] is its [TypeError] *)
  json_dumps : pyval -> option string;
  (* [json.loads]; [None] is its [JSONDecodeError] *)
  json_loads : string -> option pyval;
  (* [bytes.decode()]; [None] is its [UnicodeDecodeError] *)
  bytes_decode : bytes -> option string;
  (* [datetime.strftime(fmt)] *)
  strftime : datetime -> string -> string;
  (* [traceback.format_exc()] while the exception is being handled *)
  format_exc : exn -> string;
  (* [urlparse(url)]: its [netloc] and [path] components *)
  urlparse : string -> string * string;
  (* [Path(p).name] *)
  path_name : string -> string;
  (* sha256 is one of [hashlib.algorithms_guaranteed], with a digest of fixed
     length *)
  hashlib_sha256 :
    hashlib_supported "sha256" = true /\ hashlib_xof "sha256" = false
}.

(** [str.encode()] *)
Definition str_encode (s : string) : bytes := list_byte_of_string s.

(** ** The ledger service (immudb), seen through the client SDK *)

(** [immudb.datatypes.SetResponse] *)
Record SetResponse : Type := {
  set_id : Z;
  set_verified : bool
}.

(** [immudb.datatypes.SafeGetResponse] *)
Record SafeGetResponse : Type := {
  get_id : Z;
  get_key : bytes;
  get_value : bytes;
  get_timestamp : Z;
  get_verified : bool;
  get_refkey : option bytes;
  get_revision : Z
}.

(** The remote procedures of [ImmudbClient] that the wrapper calls; [W] is
    the state of the service and of the client session. *)
Record Ledger (W : Type) : Type := {
  rpc_login : string -> string -> bytes -> W -> res unit * W;
  rpc_useDatabase : bytes -> W -> res unit * W;
  rpc_verifiedSet : bytes -> bytes -> W -> res SetResponse * W;
  rpc_verifiedGet : bytes -> option Z -> W -> res SafeGetResponse * W
}.
Arguments rpc_login {W} _ _ _ _ _.
Arguments rpc_useDatabase {W} _ _ _.
Arguments rpc_verifiedSet {W} _ _ _ _.
Arguments rpc_verifiedGet {W} _ _ _ _.

(** Ghost trace of the calls that leave the process; an RPC event carries
    the exception it raised, if any. *)
Inductive event : Type :=
| EvLogin (username password : string) (db : bytes) (raised : option exn)
| EvUseDatabase (db : bytes) (raised : option exn)
| EvVerifiedSet (key value : bytes) (raised : option exn)
| EvVerifiedGet (key : bytes) (revision : option Z) (raised : option exn)
| EvLogError (func_name : string) (retry_timeout : Z)
| EvSleep (seconds : Z).

Definition raised_of {A} (r : res A) : option exn :=
  match r with
  | Ok _ => None
  | Raise e => Some e
  end.

Record state (W : Type) : Type := {
  world : W;
  trace : list event
}.
Arguments world {W} _.
Arguments trace {W} _.
Arguments Build_state {W} _ _.

(** ** The monad of the wrapper's methods: state and exceptions *)

Definition M (W A : Type) : Type := state W -> res A * state W.

Definition ret {W A} (a : A) : M W A := fun s => (Ok a, s).

Definition raise {W A} (e : exn) : M W A := fun s => (Raise e, s).

Definition bind {W A B} (m : M W A) (k : A -> M W B) : M W B :=
  fun s =>
    match m s with
    | (Ok a, s1) => k a s1
    | (Raise e, s1) => (Raise e, s1)
    end.

(** [try: m  except RpcError: h(exc)] *)
Definition try_except_RpcError {W A} (m : M W A) (h : exn -> M W A) : M W A :=
  fun s =>
    match m s with
    | (Ok a, s1) => (Ok a, s1)
    | (Raise e, s1) => if is_RpcError e then h e s1 else (Raise e, s1)
    end.

(** Lift a value of a library that may fail. *)
Definition lift_res {W A} (r : res A) : M W A := fun s => (r, s).

Definition emit {W} (ev : event) : M W unit :=
  fun s => (Ok tt, Build_state (world s) (trace s ++ [ev])).

Declare Scope py_scope.
Delimit Scope py_scope with py.
Notation "x <- m ;; k" := (bind m (fun x => k))
  (at level 61, m at next level, right associativity) : py_scope.
Notation "m ;;; k" := (bind m (fun _ => k))
  (at level 61, right associativity) : py_scope.
Local Open Scope py_scope.

(** ** The wrapper class *)

(** The attributes of an [ImmudbWrapper] instance that its methods read. *)
Record ImmudbWrapper : Type := {
  username : string;
  password : string;
  database : string;
  max_retries : Z;
  retry_timeout : Z
}.

Section Wrapper.

Context (lib : Libs) {W : Type} (ledger : Ledger W).

Local Abbreviation M := (M W).
Local Abbreviation state := (state W).

(** *** Calls that leave the process *)

Definition call_login (u p : string) (db : bytes) : M unit :=
  fun s =>
    let (r, w) := rpc_login ledger u p db (world s) in
    (r, Build_state w (trace s ++ [EvLogin u p db (raised_of r)])).

Definition call_useDatabase (db : bytes) : M unit :=
  fun s =>
    let (r, w) := rpc_useDatabase ledger db (world s) in
    (r, Build_state w (trace s ++ [EvUseDatabase db (raised_of r)])).

Definition call_verifiedSet (key value : bytes) : M SetResponse :=
  fun s =>
    let (r, w) := rpc_verifiedSet ledger key value (world s) in
    (r, Build_state w (trace s ++ [EvVerifiedSet key value (raised_of r)])).

Definition call_verifiedGet (key : bytes) (atRevision : option Z)
  : M SafeGetResponse :=
  fun s =>
    let (r, w) := rpc_verifiedGet ledger key atRevision (world s) in
    (r, Build_state w (trace s ++ [EvVerifiedGet key atRevision (raised_of r)])).

(** [self.logger.error('Running the "%s" function again after %d seconds', ...)] *)
Definition logger_error (func_name : string) (timeout : Z) : M unit :=
  emit (EvLogError func_name timeout).

(** [time.sleep(secs)]: a negative length is a [ValueError]. *)
Definition sleep (secs : Z) : M unit :=
  if secs <? 0 then raise (ValueError "sleep length must be non-negative")
  else emit (EvSleep secs).

(** *** [encode] and [to_dict] *)

Definition encode (value : pyval) : res bytes :=
  match value with
  | PStr s => Ok (str_encode s)
  | PBytes b => Ok b
  | PDict d =>
      match json_dumps lib (PDict d) with
      | Some s => Ok (str_encode s)
      | None => Raise (TypeError "Object is not JSON serializable")
      end
  | _ => Raise (ValueError "Cannot encode value that isn't str, bytes or dict.")
  end.

Definition opt_bytes (o : option bytes) : pyval :=
  match o with
  | Some b => PBytes b
  | None => PNone
  end.

(** [dataclasses.asdict] on the two response types *)
Definition asdict_SetResponse (r : SetResponse) : pydict :=
  dict_display [("id", PInt (set_id r)); ("verified", PBool (set_verified r))].

Definition asdict_SafeGetResponse (r : SafeGetResponse) : pydict :=
  dict_display
    [("id", PInt (get_id r));
     ("key", PBytes (get_key r));
     ("value", PBytes (get_value r));
     ("timestamp", PInt (get_timestamp r));
     ("verified", PBool (get_verified r));
     ("refkey", opt_bytes (get_refkey r));
     ("revision", PInt (get_revision r))].

(** [v.decode()] for a value read out of a dict *)
Definition decode_item (v : option pyval) : res string :=
  match v with
  | Some (PBytes b) =>
      match bytes_decode lib b with
      | Some s => Ok s
      | None => Raise UnicodeDecodeError
      end
  | Some _ => Raise (TypeError "object has no attribute 'decode'")
  | None => Raise (TypeError "KeyError")
  end.

Definition to_dict (response : SafeGetResponse) : res pydict :=
  let result := asdict_SafeGetResponse response in
  match decode_item (dict_get result "key") with
  | Raise e => Raise e
  | Ok k =>
      let result := dict_set result "key" (PStr k) in
      match decode_item (dict_get result "value") with
      | Raise e => Raise e
      | Ok v =>
          match json_loads lib v with
          | None => Raise JSONDecodeError
          | Some j => Ok (dict_set result "value" j)
          end
      end
  end.

(** *** [login] *)

Definition login (self : ImmudbWrapper) : M unit :=
  encoded_database <- lift_res (encode (PStr (database self))) ;;
  call_login (username self) (password self) encoded_database ;;;
  call_useDatabase encoded_database.

(** [__init__]: the attributes are stored, then the session is opened. *)
Definition init (username password database : string)
  (max_retries retry_timeout : Z) : M ImmudbWrapper :=
  let self := {| username := username; password := password;
                 database := database; max_retries := max_retries;
                 retry_timeout := retry_timeout |} in
  login self ;;;
  ret self.

(** *** [verified_get] and [verified_set] *)

Definition error_record (exc : exn) : pydict :=
  dict_display [("error", PStr (format_exc lib exc))].

Definition verified_get (self : ImmudbWrapper) (key : pyval)
  (revision : option Z) : M pydict :=
  try_except_RpcError
    (k <- lift_res (encode key) ;;
     response <- call_verifiedGet k revision ;;
     lift_res (to_dict response))
    (fun exc => ret (error_record exc)).

Definition verified_set (self : ImmudbWrapper) (key value : pyval) : M pydict :=
  try_except_RpcError
    (k <- lift_res (encode key) ;;
     v <- lift_res (encode value) ;;
     response <- call_verifiedSet k v ;;
     ret (asdict_SetResponse response))
    (fun exc => ret (error_record exc)).

(** *** The [retry] decorator *)

(** [any(detail in exc_details for detail in possible_exc_details)],
    guarded by the truth value of [exc_details]. *)
Definition details_match (possible_exc_details : list string)
  (exc_details : option string) : bool :=
  str_truthy exc_details &&
  match exc_details with
  | Some d => existsb (fun detail => str_in detail d) possible_exc_details
  | None => false
  end.

(** The [while max_retries:] loop of [wrapped].  The loop need not end (a
    negative counter never reaches zero), so it runs on [fuel]: one unit per
    call of [func]; [None] means the fuel ran out. *)
Fixpoint retry_loop {A} (possible_exc_details : list string)
  (func_name : string) (func : ImmudbWrapper -> M A) (self : ImmudbWrapper)
  (fuel : nat) (max_retries : Z) (last_exc : exn) (s : state)
  : option (res A * state) :=
  if max_retries =? 0 then Some (Raise last_exc, s)
  else
    match fuel with
    | O => None
    | S fuel' =>
        match func self s with
        | (Ok a, s1) => Some (Ok a, s1)
        | (Raise exc, s1) =>
            if is_InactiveRpcError exc then
              let exc_details := exc_details_of exc in
              let last_exc := exc in
              if details_match possible_exc_details exc_details then
                let max_retries := max_retries - 1 in
                match (logger_error func_name (retry_timeout self) ;;;
                       sleep (retry_timeout self)) s1 with
                | (Ok _, s2) =>
                    retry_loop possible_exc_details func_name func self
                      fuel' max_retries last_exc s2
                | (Raise e, s2) => Some (Raise e, s2)
                end
              else Some (Raise exc, s1)
            else Some (Raise exc, s1)
        end
    end.

Definition retry {A} (possible_exc_details : option (list string))
  (func_name : string) (func : ImmudbWrapper -> M A)
  (fuel : nat) (self : ImmudbWrapper) (s : state) : option (res A * state) :=
  let possible_exc_details :=
    match possible_exc_details with
    | None | Some [] => []
    | Some l => l
    end in
  retry_loop possible_exc_details func_name func self fuel
    (max_retries self) BareException s.

(** *** [notarize] and [authenticate] *)

(** The function that [@retry] decorates. *)
Definition notarize_func (key value : pyval) (self : ImmudbWrapper) : M pydict :=
  login self ;;;
  result <- verified_set self key value ;;
  if dict_mem "error" result then ret result
  else verified_get self key None.

Definition notarize (fuel : nat) (self : ImmudbWrapper) (key value : pyval)
  : state -> option (res pydict * state) :=
  retry (Some ["Connection timed out"]) "notarize" (notarize_func key value)
    fuel self.

Definition authenticate_func (key : pyval) (self : ImmudbWrapper) : M pydict :=
  login self ;;;
  verified_get self key None.

Definition authenticate (fuel : nat) (self : ImmudbWrapper) (key : pyval)
  : state -> option (res pydict * state) :=
  retry (Some ["Connection timed out"]) "authenticate" (authenticate_func key)
    fuel self.

End Wrapper.

(** ** Numbers: Python [int] and [float]

    [get_size_format] starts from an [int] and, after the first true
    division, carries a [float].  A float is an IEEE-754 binary64 value,
    taken from the standard library's [spec_float] with round to nearest
    even. *)

Definition prec : Z := 53.
Definition emax : Z := 1024.

Inductive pynum : Type :=
| NInt (z : Z)
| NFloat (f : spec_float).

(** An [int] as an exact (not yet rounded) binary value. *)
Definition SF_of_Z (z : Z) : spec_float :=
  match z with
  | Z0 => S754_zero false
  | Zpos p => S754_finite false p 0
  | Zneg p => S754_finite true p 0
  end.

Definition SF_is_infinity (f : spec_float) : bool :=
  match f with
  | S754_infinity _ => true
  | _ => false
  end.

Definition SF_is_zero (f : spec_float) : bool :=
  match f with
  | S754_zero _ => true
  | _ => false
  end.

Definition SF_is_nan (f : spec_float) : bool :=
  match f with
  | S754_nan => true
  | _ => false
  end.

(** [float(z)]: the nearest double; too large an [int] is an [OverflowError]. *)
Definition float_of_int (z : Z) : res spec_float :=
  let f := binary_normalize prec emax z 0 false in
  if SF_is_infinity f then Raise OverflowError else Ok f.

(** Exact comparison of a float with an [int], as Python performs it. *)
Definition SF_compare_Z (f : spec_float) (k : Z) : option comparison :=
  match f with
  | S754_nan => None
  | S754_infinity s => Some (if s then Lt else Gt)
  | S754_zero _ => Some (0 ?= k)
  | S754_finite s m e =>
      let mz := if s then Zneg m else Zpos m in
      Some (if 0 <=? e then (mz * 2 ^ e ?= k) else (mz ?= k * 2 ^ (- e)))
  end.

(** [value < factor] *)
Definition num_lt (value : pynum) (factor : Z) : bool :=
  match value with
  | NInt z => z <? factor
  | NFloat f =>
      match SF_compare_Z f factor with
      | Some Lt => true
      | _ => false
      end
  end.

(** [value >= factor] *)
Definition num_ge (value : pynum) (factor : Z) : bool :=
  match value with
  | NInt z => factor <=? z
  | NFloat f =>
      match SF_compare_Z f factor with
      | Some (Gt | Eq) => true
      | _ => false
      end
  end.

(** [value / factor]: true division.  [int / int] is the correctly rounded
    quotient of the two integers; [float / int] converts the divisor first. *)
Definition num_truediv (value : pynum) (factor : Z) : res pynum :=
  match value with
  | NInt z =>
      if factor =? 0 then Raise ZeroDivisionError
      else
        let q := SFdiv prec emax (SF_of_Z z) (SF_of_Z factor) in
        if SF_is_infinity q then Raise OverflowError else Ok (NFloat q)
  | NFloat f =>
      match float_of_int factor with
      | Raise e => Raise e
      | Ok d =>
          if SF_is_zero d then Raise ZeroDivisionError
          else Ok (NFloat (SFdiv prec emax f d))
      end
  end.

(** Decimal digits of a natural number. *)
Definition decimal (n : Z) : string :=
  DecimalString.NilZero.string_of_uint (N.to_uint (Z.to_N n)).

(** [m * 2^e * 100] rounded to the nearest integer, ties to even. *)
Definition round_hundredths (m : positive) (e : Z) : Z :=
  if 0 <=? e then Zpos m * 2 ^ e * 100
  else
    let den := 2 ^ (- e) in
    let num := Zpos m * 100 in
    let q := num / den in
    let r := num mod den in
    match 2 * r ?= den with
    | Lt => q
    | Gt => q + 1
    | Eq => if Z.even q then q else q + 1
    end.

(** [f'{x:.2f}'] for a float [x] *)
Definition format_float_2f (f : spec_float) : string :=
  match f with
  | S754_nan => "nan"
  | S754_infinity s => if s then "-inf" else "inf"
  | S754_zero s => (if s then "-" else EmptyString) ++ "0.00"
  | S754_finite s m e =>
      let n := round_hundredths m e in
      let frac := n mod 100 in
      (if s then "-" else EmptyString) ++ decimal (n / 100) ++ "."
        ++ (if frac <? 10 then "0" else EmptyString) ++ decimal frac
  end.

(** [f'{value:.2f}']: an [int] is converted to a float first. *)
Definition format_2f (value : pynum) : res string :=
  match value with
  | NInt z =>
      match float_of_int z with
      | Raise e => Raise e
      | Ok f => Ok (format_float_2f f)
      end
  | NFloat f => Ok (format_float_2f f)
  end.

(** ** [get_size_format] *)

Definition unit_prefixes : list string :=
  [EmptyString; "K"; "M"; "G"; "T"; "P"; "E"; "Z"].

(** The [for unit in [...]] loop with its early [return]. *)
Fixpoint get_size_format_loop (units : list string) (value : pynum)
  (factor : Z) (suffix : string) : res string :=
  match units with
  | [] =>
      match format_2f value with
      | Raise e => Raise e
      | Ok t => Ok (t ++ " Y" ++ suffix)
      end
  | unit :: units' =>
      if num_lt value factor then
        match format_2f value with
        | Raise e => Raise e
        | Ok t => Ok (t ++ " " ++ unit ++ suffix)
        end
      else
        match num_truediv value factor with
        | Raise e => Raise e
        | Ok value' => get_size_format_loop units' value' factor suffix
        end
  end.

Definition get_size_format (value : Z) (factor : Z) (suffix : string)
  : res string :=
  get_size_format_loop unit_prefixes (NInt value) factor suffix.

(** The defaults [factor=1024] and [suffix="B"]. *)
Definition get_size_format_default (value : Z) : res string :=
  get_size_format value 1024 "B".

(** *** [scaleBytes] as the specification words it

    "Iterates unit prefixes; while value >= factor, divide and advance to the
    next unit; formats with 2 decimal places; falls through to the Y suffix
    if value remains >= factor after the last named unit."  The loop is
    written with an index into the prefixes; [named] counts the named units
    not yet passed. *)
Fixpoint scaleBytes_advance (named : nat) (index : nat) (value : pynum)
  (factor : Z) : res (nat * pynum) :=
  match named with
  | O => Ok (index, value)
  | S named' =>
      if num_ge value factor then
        match num_truediv value factor with
        | Raise e => Raise e
        | Ok value' => scaleBytes_advance named' (S index) value' factor
        end
      else Ok (index, value)
  end.

Definition scaleBytes (value : Z) (factor : Z) (suffix : string) : res string :=
  match scaleBytes_advance (List.length unit_prefixes) 0 (NInt value) factor with
  | Raise e => Raise e
  | Ok (index, value') =>
      match format_2f value' with
      | Raise e => Raise e
      | Ok t => Ok (t ++ " " ++ nth index unit_prefixes "Y" ++ suffix)
      end
  end.

(** ** Hashing *)

(** A [hashlib] hash object: the algorithm and the bytes fed so far. *)
Record hasher : Type := {
  hasher_type : string;
  hasher_fed : bytes
}.

(** [hashlib.new(checksum_type)] *)
Definition get_hasher (lib : Libs) (checksum_type : string) : res hasher :=
  if hashlib_supported lib checksum_type then
    Ok {| hasher_type := checksum_type; hasher_fed := [] |}
  else Raise (ValueError ("unsupported hash type " ++ checksum_type)).

Definition hasher_update (h : hasher) (b : bytes) : hasher :=
  {| hasher_type := hasher_type h; hasher_fed := (hasher_fed h ++ b)%list |}.

(** [hasher.hexdigest()], called without a length. *)
Definition hexdigest (lib : Libs) (h : hasher) : res string :=
  if hashlib_xof lib (hasher_type h) then
    Raise (TypeError "hexdigest() missing required argument 'length'")
  else Ok (hashlib_hexdigest lib (hasher_type h) (hasher_fed h)).

(** [fd.read(n)]: the items read and the items left; the items are the bytes
    of a binary stream or the characters of a text stream.  A size of [-1]
    reads to the end; a size below [-1] is a [ValueError] on a binary file
    opened by [open] ([buffered]) and reads to the end on an in-memory stream
    and on a text stream. *)
Definition fd_read {A} (buffered : bool) (n : Z) (rest : list A)
  : res (list A * list A) :=
  if n <? 0 then
    if buffered && (n <? -1) then
      Raise (ValueError "read length must be non-negative or -1")
    else Ok (rest, [])
  else Ok (firstn (Z.to_nat n) rest, skipn (Z.to_nat n) rest).

(** [feed_hasher]: read chunks until an empty one.  [as_bytes] is the
    identity on a chunk of bytes and [buff.encode()] on a chunk of text.
    [fuel] bounds the number of non-empty chunks. *)
Fixpoint feed_hasher {A} (as_bytes : list A -> bytes) (fuel : nat)
  (buffered : bool) (buff_size : Z) (rest : list A) (h : hasher)
  : option (res hasher) :=
  match fd_read buffered buff_size rest with
  | Raise e => Some (Raise e)
  | Ok ([], _) => Some (Ok h)
  | Ok (buff, rest') =>
      match fuel with
      | O => None
      | S fuel' =>
          feed_hasher as_bytes fuel' buffered buff_size rest'
            (hasher_update h (as_bytes buff))
      end
  end.

(** A chunk read from a binary stream is hashed as it is. *)
Definition chunk_of_bytes (buff : bytes) : bytes := buff.

(** [buff.encode()] of a chunk read from a text stream; a character is given
    by its UTF-8 encoding. *)
Definition chunk_of_text (buff : list bytes) : bytes := List.concat buff.

(** The file system, read only. *)
Record FileSystem : Type := {
  (* [os.path.exists(path)] *)
  fs_exists : string -> bool;
  (* the bytes of [open(path, 'rb')]; [None] is its [OSError] *)
  fs_read : string -> option bytes;
  (* [Path(p).stat().st_size]; [None] is its [OSError] *)
  fs_stat_size : string -> option Z;
  (* [Path(p).rglob('*')] *)
  fs_rglob : string -> list string
}.

(** The argument of [hash_file]: a path, or an open seekable stream with its
    content from position 0: a binary stream (a file opened by [open] in
    mode ['rb'], which is [buffered], or an in-memory [io.BytesIO]) or a text
    stream, whose content is its characters. *)
Inductive file_arg : Type :=
| FilePath (path : string)
| FileHandle (buffered : bool) (content : bytes)
| TextHandle (chars : list bytes).

(** ** Git: the objects of GitPython that [extract_git_metadata] reads *)

Record Actor : Type := {
  actor_email : string;
  actor_name : string
}.

(** A [git.Commit]; [parents] are the direct parents, first parent first. *)
Inductive Commit : Type :=
| Build_Commit (hexsha : string) (author committer : Actor)
    (authored_datetime committed_datetime : datetime) (message : string)
    (gpgsig : option string) (parents : list Commit) (tree_hexsha : string).

Definition hexsha (c : Commit) : string :=
  match c with Build_Commit h _ _ _ _ _ _ _ _ => h end.
Definition author (c : Commit) : Actor :=
  match c with Build_Commit _ a _ _ _ _ _ _ _ => a end.
Definition committer (c : Commit) : Actor :=
  match c with Build_Commit _ _ a _ _ _ _ _ _ => a end.
Definition authored_datetime (c : Commit) : datetime :=
  match c with Build_Commit _ _ _ d _ _ _ _ _ => d end.
Definition committed_datetime (c : Commit) : datetime :=
  match c with Build_Commit _ _ _ _ d _ _ _ _ => d end.
Definition message (c : Commit) : string :=
  match c with Build_Commit _ _ _ _ _ m _ _ _ => m end.
Definition gpgsig (c : Commit) : option string :=
  match c with Build_Commit _ _ _ _ _ _ g _ _ => g end.
Definition parents (c : Commit) : list Commit :=
  match c with Build_Commit _ _ _ _ _ _ _ ps _ => ps end.
Definition tree_hexsha (c : Commit) : string :=
  match c with Build_Commit _ _ _ _ _ _ _ _ t => t end.

(** [commit.committed_date] *)
Definition committed_date (c : Commit) : Z := dt_timestamp (committed_datetime c).

(** Number of commit objects in the history below [c], with repetitions. *)
Fixpoint commit_size (c : Commit) : nat :=
  match c with
  | Build_Commit _ _ _ _ _ _ _ ps _ => S (list_sum (map commit_size ps))
  end.

(** The walk of [git rev-list <commit>] in its default order: the pending
    commits are kept by decreasing commit date (a commit goes behind the
    pending ones that are not older), the first one is emitted and its
    parents not yet seen become pending. *)
Fixpoint insert_by_date (c : Commit) (pending : list Commit) : list Commit :=
  match pending with
  | [] => [c]
  | x :: pending' =>
      if committed_date x <? committed_date c then c :: x :: pending'
      else x :: insert_by_date c pending'
  end.

Definition sha_mem (h : string) (seen : list string) : bool :=
  existsb (String.eqb h) seen.

Definition add_parents (ps : list Commit) (pending : list Commit)
  (seen : list string) : list Commit * list string :=
  fold_left
    (fun (acc : list Commit * list string) p =>
       if sha_mem (hexsha p) (snd acc) then acc
       else (insert_by_date p (fst acc), hexsha p :: snd acc))
    ps (pending, seen).

(** The parents that the revision walk follows from [c] in a repository
    whose shallow boundary (the file [.git/shallow]) lists [shallow]: a
    boundary commit keeps the parent lines of its object, which [parents]
    reads, but the walk treats it as a commit without parents. *)
Definition walk_parents (shallow : list string) (c : Commit) : list Commit :=
  if sha_mem (hexsha c) shallow then [] else parents c.

Fixpoint rev_list_walk (shallow : list string) (fuel : nat)
  (pending : list Commit) (seen : list string) : list Commit :=
  match fuel with
  | O => []
  | S fuel' =>
      match pending with
      | [] => []
      | c :: pending' =>
          let (pending'', seen') :=
            add_parents (walk_parents shallow c) pending' seen in
          c :: rev_list_walk shallow fuel' pending'' seen'
      end
  end.

Definition rev_list (shallow : list string) (c : Commit) : list Commit :=
  rev_list_walk shallow (commit_size c) [c] [hexsha c].

(** [Commit.iter_parents()] of GitPython ("iterate all parents of this
    commit"): it returns [iter_items(repo, self, paths, skip=1)], the
    revision walk ([git rev-list <commit> --skip=1]) in the repository of the
    commit, without its first entry.  It yields every commit that the walk
    reaches from the commit except the commit itself; the direct parents
    are the attribute [parents]. *)
Definition iter_parents (shallow : list string) (c : Commit) : list Commit :=
  skipn 1 (rev_list shallow c).

(** A [git.Repo]: the url of [repo.remote()] and the commit of HEAD ([None]
    is the [ValueError] of a repository without one), and the shas of its
    shallow boundary, none in a full clone. *)
Record Repo : Type := {
  repo_remote_url : option string;
  repo_commit : option Commit;
  repo_shallow : list string
}.

(** [re.sub(r"^/", ":", path)] *)
Definition sub_leading_slash (path : string) : string :=
  match path with
  | String "/" rest => String ":" rest
  | _ => path
  end.

(** [s[:7]] *)
Definition first7 (s : string) : string := String.substring 0 7 s.

(** ** The notarization protocol *)

Section Protocol.

Context (lib : Libs) (fs : FileSystem).
(** [git.Repo(path)]; [None] is its failure: [NoSuchPathError] when the path
    does not exist, [InvalidGitRepositoryError] when it holds no repository. *)
Context (git_open : string -> option Repo).
Context {W : Type} (ledger : Ledger W).

Definition get_file_size (file_path : string) : res Z :=
  match fs_stat_size fs file_path with
  | Some n => Ok n
  | None => Raise (OSError file_path)
  end.

(** [sum(file.stat().st_size for file in Path(path).rglob('*'))] *)
Definition get_directory_size (path : string) : res Z :=
  fold_left
    (fun (acc : res Z) file =>
       match acc with
       | Raise e => Raise e
       | Ok total =>
           match fs_stat_size fs file with
           | Some n => Ok (total + n)
           | None => Raise (OSError file)
           end
       end)
    (fs_rglob fs path) (Ok 0).

(** [hash_file]; the outer [option] is the fuel of the chunk loop, which is
    given one unit per byte of the file (per character of a text stream). *)
Definition hash_file (file_path : file_arg) (hash_type : string)
  (buff_size : Z) (given : option hasher) : option (res string) :=
  let hasher :=
    match given with
    | None => get_hasher lib hash_type
    | Some h => Ok h
    end in
  match hasher with
  | Raise e => Some (Raise e)
  | Ok h =>
      let fed :=
        match file_path with
        | FilePath p =>
            match fs_read fs p with
            | Some b =>
                feed_hasher chunk_of_bytes (List.length b) true buff_size b h
            | None => Some (Raise (OSError p))
            end
        | FileHandle buffered b =>
            feed_hasher chunk_of_bytes (List.length b) buffered buff_size b h
        | TextHandle chars =>
            feed_hasher chunk_of_text (List.length chars) false buff_size
              chars h
        end in
      match fed with
      | None => None
      | Some (Raise e) => Some (Raise e)
      | Some (Ok h') => Some (hexdigest lib h')
      end
  end.

(** The defaults [hash_type='sha256'], [buff_size=1048576], [hasher=None]. *)
Definition hash_file_default (file : string) : option (res string) :=
  hash_file (FilePath file) "sha256" 1048576 None.

Definition hash_content (content : pyval) : res string :=
  match get_hasher lib "sha256" with
  | Raise e => Raise e
  | Ok h =>
      match content with
      | PStr s => hexdigest lib (hasher_update h (str_encode s))
      | PBytes b => hexdigest lib (hasher_update h b)
      | _ => Raise (TypeError "object supporting the buffer API required")
      end
  end.

Definition actor_block (a : Actor) (when : datetime) : pyval :=
  PDict (dict_display
    [("Email", PStr (actor_email a));
     ("Name", PStr (actor_name a));
     ("When", PStr (strftime lib when "%Y-%m-%dT%H:%M:%S%z"))]).

Definition opt_str (o : option string) : pyval :=
  match o with
  | Some s => PStr s
  | None => PNone
  end.

(** The ['git'] block that [extract_git_metadata] builds from the commit of
    a repository whose shallow boundary is [shallow]. *)
Definition git_block (shallow : list string) (commit : Commit) : pydict :=
  dict_display
    [("Author", actor_block (author commit) (authored_datetime commit));
     ("Commit", PStr (hexsha commit));
     ("Committer", actor_block (committer commit) (committed_datetime commit));
     ("Message", PStr (message commit));
     ("PGPSignature", opt_str (gpgsig commit));
     ("Parents", PList (map (fun parent => PStr (hexsha parent))
                            (iter_parents shallow commit)));
     ("Tree", PStr (tree_hexsha commit))].

Definition extract_git_metadata (repo_path : string) : res pydict :=
  match git_open repo_path with
  | None =>
      if fs_exists fs repo_path then Raise (InvalidGitRepositoryError repo_path)
      else Raise (NoSuchPathError repo_path)
  | Some repo =>
      match repo_remote_url repo with
      | None => Raise (ValueError "Remote named 'origin' didn't exist")
      | Some remote_url =>
          let url := urlparse lib remote_url in
          match repo_commit repo with
          | None => Raise (ValueError "Reference at 'HEAD' does not exist")
          | Some commit =>
              let name :=
                "git@" ++ fst url ++ sub_leading_slash (snd url)
                  ++ "@" ++ first7 (hexsha commit) in
              Ok (dict_display
                    [("Name", PStr name);
                     ("git", PDict (git_block (repo_shallow repo) commit))])
          end
      end
  end.

Definition default_metadata : pydict :=
  dict_display [("sbom_api_ver", PStr "0.2")].

(** [d[k]] *)
Definition dict_item (d : pydict) (k : string) : res pyval :=
  match dict_get d k with
  | Some v => Ok v
  | None => Raise (TypeError "KeyError")
  end.

(** [if not user_metadata: user_metadata = {}] *)
Definition or_empty (user_metadata : option pydict) : pydict :=
  match user_metadata with
  | None | Some [] => []
  | Some d => d
  end.

Definition lift_opt {A B} (o : option (res A)) (k : A -> option (res B * state W))
  (s : state W) : option (res B * state W) :=
  match o with
  | None => None
  | Some (Raise e) => Some (Raise e, s)
  | Some (Ok a) => k a
  end.

(** The [payload] display of [notarize_file]. *)
Definition notarize_file_payload (self : ImmudbWrapper) (file : string)
  (hash_file : string) (user_metadata : pydict) : res pydict :=
  match get_file_size file with
  | Raise e => Raise e
  | Ok size =>
      match get_size_format_default size with
      | Raise e => Raise e
      | Ok size_format =>
          Ok (dict_display
                [("Name", PStr (path_name lib file));
                 ("Kind", PStr "file");
                 ("Size", PStr size_format);
                 ("Hash", PStr hash_file);
                 ("Signer", PStr (username self));
                 ("Metadata",
                  PDict (dict_update (dict_update [] default_metadata)
                                     user_metadata))])
      end
  end.

Definition notarize_file (fuel : nat) (self : ImmudbWrapper) (file : string)
  (user_metadata : option pydict) (s : state W)
  : option (res pydict * state W) :=
  let user_metadata := or_empty user_metadata in
  lift_opt (hash_file_default file) (fun hash_file =>
  lift_opt (Some (notarize_file_payload self file hash_file user_metadata))
    (fun payload =>
  notarize lib ledger fuel self (PStr hash_file) (PDict payload) s) s) s.

(** [self.hash_content(json.dumps(git_metadata['git']))] *)
Definition metadata_hash_of (git_metadata : pydict) : res string :=
  match dict_item git_metadata "git" with
  | Raise e => Raise e
  | Ok git =>
      match json_dumps lib git with
      | None => Raise (TypeError "Object is not JSON serializable")
      | Some text => hash_content (PStr text)
      end
  end.

(** The [payload] display of [notarize_git_repo]. *)
Definition notarize_git_repo_payload (self : ImmudbWrapper) (repo_path : string)
  (git_metadata : pydict) (metadata_hash : string) (user_metadata : pydict)
  : res pydict :=
  match dict_item git_metadata "Name" with
  | Raise e => Raise e
  | Ok name =>
  match get_directory_size repo_path with
  | Raise e => Raise e
  | Ok size =>
  match get_size_format_default size with
  | Raise e => Raise e
  | Ok size_format =>
  match dict_item git_metadata "git" with
  | Raise e => Raise e
  | Ok git =>
      Ok (dict_display
            [("Name", name);
             ("Kind", PStr "git");
             ("Size", PStr size_format);
             ("Hash", PStr metadata_hash);
             ("Signer", PStr (username self));
             ("Metadata",
              PDict (dict_update
                       (dict_update (dict_update [] [("git", git)])
                                    default_metadata)
                       user_metadata))])
  end end end end.

Definition notarize_git_repo (fuel : nat) (self : ImmudbWrapper)
  (repo_path : string) (user_metadata : option pydict) (s : state W)
  : option (res pydict * state W) :=
  let user_metadata := or_empty user_metadata in
  lift_opt (Some (extract_git_metadata repo_path)) (fun git_metadata =>
  lift_opt (Some (metadata_hash_of git_metadata)) (fun metadata_hash =>
  lift_opt (Some (notarize_git_repo_payload self repo_path git_metadata
                    metadata_hash user_metadata)) (fun payload =>
  notarize lib ledger fuel self (PStr metadata_hash) (PDict payload) s) s) s) s.

Definition authenticate_file (fuel : nat) (self : ImmudbWrapper) (file : string)
  (s : state W) : option (res pydict * state W) :=
  lift_opt (hash_file_default file) (fun hash =>
  authenticate lib ledger fuel self (PStr hash) s) s.

Definition authenticate_git_repo (fuel : nat) (self : ImmudbWrapper)
  (repo_path : string) (s : state W) : option (res pydict * state W) :=
  lift_opt (Some (extract_git_metadata repo_path)) (fun git_metadata =>
  lift_opt (Some (metadata_hash_of git_metadata)) (fun metadata_hash =>
  authenticate lib ledger fuel self (PStr metadata_hash) s) s) s.

End Protocol.

(** ** Concrete environments

    Small stand-ins for the libraries, the file system and the ledger service,
    on which the statements below are run. *)

Module Demo.

(** A serializer in the shape of [json.dumps], without escapes; [bytes] are
    not serializable. *)
Fixpoint dumps (v : pyval) : option string :=
  match v with
  | PNone => Some "null"
  | PBool b => Some (if b then "true" else "false")
  | PInt z => Some ((if z <? 0 then "-" else EmptyString) ++ decimal (Z.abs z))
  | PStr s => Some ("'" ++ s ++ "'")
  | PBytes _ => None
  | PList l =>
      let fix items (l : list pyval) : option string :=
        match l with
        | [] => Some EmptyString
        | [x] => dumps x
        | x :: l' =>
            match dumps x, items l' with
            | Some a, Some b => Some (a ++ ", " ++ b)
            | _, _ => None
            end
        end in
      match items l with
      | Some t => Some ("[" ++ t ++ "]")
      | None => None
      end
  | PDict d =>
      let fix items (d : list (string * pyval)) : option string :=
        match d with
        | [] => Some EmptyString
        | [(k, x)] =>
            match dumps x with
            | Some a => Some ("'" ++ k ++ "': " ++ a)
            | None => None
            end
        | (k, x) :: d' =>
            match dumps x, items d' with
            | Some a, Some b => Some ("'" ++ k ++ "': " ++ a ++ ", " ++ b)
            | _, _ => None
            end
        end in
      match items d with
      | Some t => Some ("{" ++ t ++ "}")
      | None => None
      end
  end.

Definition describe (e : exn) : string :=
  match e with
  | InactiveRpcError (Some d) => "grpc._channel._InactiveRpcError: " ++ d
  | InactiveRpcError None => "grpc._channel._InactiveRpcError"
  | OtherRpcError w => "grpc.RpcError: " ++ w
  | _ => "Traceback (most recent call last)"
  end.

(** [hashlib.algorithms_guaranteed] *)
Definition algorithms_guaranteed : list string :=
  ["blake2b"; "blake2s"; "md5"; "sha1"; "sha224"; "sha256"; "sha384";
   "sha3_224"; "sha3_256"; "sha3_384"; "sha3_512"; "sha512"; "shake_128";
   "shake_256"].

Definition lib : Libs := {|
  hashlib_supported := fun t => existsb (String.eqb t) algorithms_guaranteed;
  hashlib_xof := fun t => String.eqb t "shake_128" || String.eqb t "shake_256";
  hashlib_hexdigest := fun t b => t ++ ":" ++ decimal (Z.of_nat (List.length b));
  json_dumps := dumps;
  json_loads := fun s => Some (PStr s);
  bytes_decode := fun b => Some (string_of_list_byte b);
  strftime := fun d _ => decimal (dt_timestamp d);
  format_exc := describe;
  urlparse := fun _ => ("git.almalinux.org", "/rpms/bash.git");
  path_name := fun p => p;
  hashlib_sha256 := conj eq_refl eq_refl
|}.

(** How the simulated ledger answers [login]. *)
Inductive mode : Type :=
| Up            (* every call succeeds *)
| TimedOut      (* login fails with the transient signature *)
| Denied.       (* login fails with another detail *)

Definition timeout_failure : exn :=
  InactiveRpcError
    (Some "failed to connect to all addresses; Connection timed out").

Definition denied_failure : exn :=
  InactiveRpcError (Some "invalid user name or password").

Record service : Type := {
  w_store : list (bytes * bytes);
  w_tx : Z
}.

Fixpoint lookup (k : bytes) (st : list (bytes * bytes)) : option bytes :=
  match st with
  | [] => None
  | (k', v) :: st' =>
      if list_eq_dec Byte.byte_eq_dec k' k then Some v else lookup k st'
  end.

(** A simulated ledger that answers [login] according to [m]. *)
Definition ledger (m : mode) : Ledger service := {|
  rpc_login := fun _ _ _ w =>
    match m with
    | Up => (Ok tt, w)
    | TimedOut => (Raise timeout_failure, w)
    | Denied => (Raise denied_failure, w)
    end;
  rpc_useDatabase := fun _ w => (Ok tt, w);
  rpc_verifiedSet := fun k v w =>
    (Ok {| set_id := w_tx w + 1; set_verified := true |},
     {| w_store := (k, v) :: w_store w; w_tx := w_tx w + 1 |});
  rpc_verifiedGet := fun k rev w =>
    match lookup k (w_store w) with
    | Some v =>
        (Ok {| get_id := w_tx w; get_key := k; get_value := v;
               get_timestamp := 0; get_verified := true;
               get_refkey := None; get_revision := 1 |}, w)
    | None => (Raise (InactiveRpcError (Some "tbtree: key not found")), w)
    end
|}.

Definition start : state service :=
  {| world := {| w_store := []; w_tx := 0 |}; trace := [] |}.

(** An instance with [max_retries] and the other attributes at their
    defaults. *)
Definition instance (max_retries : Z) : ImmudbWrapper := {|
  username := "immudb";
  password := "immudb";
  database := "defaultdb";
  max_retries := max_retries;
  retry_timeout := 10
|}.

(** A file system with one source file, two full clones of one repository,
    of which the second holds a build log the first does not, a shallow clone
    of it and a directory that holds no repository. *)
Definition fs : FileSystem := {|
  fs_exists := fun p =>
    existsb (String.eqb p)
      ["bash.spec"; "clone_a"; "clone_a/bash.spec"; "clone_b";
       "clone_b/bash.spec"; "clone_b/build.log"; "clone_shallow";
       "clone_shallow/bash.spec"; "plain_dir"];
  fs_read := fun p =>
    if String.eqb p "bash.spec" then Some (str_encode "Name: bash") else None;
  fs_stat_size := fun p =>
    if String.eqb p "bash.spec" then Some 1253656
    else if String.eqb p "clone_a/bash.spec" then Some 1253656
    else if String.eqb p "clone_b/bash.spec" then Some 1253656
    else if String.eqb p "clone_b/build.log" then Some 4096
    else if String.eqb p "clone_shallow/bash.spec" then Some 1253656
    else None;
  fs_rglob := fun p =>
    if String.eqb p "clone_a" then ["clone_a/bash.spec"]
    else if String.eqb p "clone_b" then ["clone_b/bash.spec"; "clone_b/build.log"]
    else if String.eqb p "clone_shallow" then ["clone_shallow/bash.spec"]
    else []
|}.

Definition packager : Actor :=
  {| actor_email := "packager@almalinux.org"; actor_name := "Packager" |}.

Definition commit_at (sha : string) (date : Z) (ps : list Commit) : Commit :=
  Build_Commit sha packager packager
    {| dt_timestamp := date; dt_utcoffset := 0 |}
    {| dt_timestamp := date; dt_utcoffset := 0 |}
    "import" None ps "4b825dc".

(** A linear history: [root] is the parent of [middle], which is the only
    parent of [head]. *)
Definition root : Commit := commit_at "1111111aaaa" 100 [].
Definition middle : Commit := commit_at "2222222bbbb" 200 [root].
Definition head : Commit := commit_at "3333333cccc" 300 [middle].

(** A full clone. *)
Definition clone : Repo := {|
  repo_remote_url := Some "https://git.almalinux.org/rpms/bash.git";
  repo_commit := Some head;
  repo_shallow := []
|}.

(** A clone of the same remote made with [--depth 1]: HEAD is the same
    commit object, and it is the shallow boundary. *)
Definition shallow_clone : Repo := {|
  repo_remote_url := Some "https://git.almalinux.org/rpms/bash.git";
  repo_commit := Some head;
  repo_shallow := [hexsha head]
|}.

Definition git_open (path : string) : option Repo :=
  if String.eqb path "clone_a" then Some clone
  else if String.eqb path "clone_b" then Some clone
  else if String.eqb path "clone_shallow" then Some shallow_clone
  else None.

(** The dict of a result that is known to be [Ok]. *)
Definition ok_or_empty (r : res pydict) : pydict :=
  match r with
  | Ok d => d
  | Raise _ => []
  end.

(** The caller's metadata of the examples: one key collides with the schema
    default, one with the git block, one is new. *)
Definition caller_metadata : pydict :=
  [("sbom_api_ver", PStr "9.9"); ("git", PStr "mine"); ("team", PStr "core")].

(** A ledger whose [login] succeeds and whose verified write times out. *)
Definition ledger_write_timeout : Ledger service := {|
  rpc_login := fun _ _ _ w => (Ok tt, w);
  rpc_useDatabase := fun _ w => (Ok tt, w);
  rpc_verifiedSet := fun _ _ w => (Raise timeout_failure, w);
  rpc_verifiedGet := fun k rev w =>
    (Raise (InactiveRpcError (Some "tbtree: key not found")), w)
|}.

(** A ledger whose [login] times out on the first two calls, counted in
    [w_tx], and behaves as the ledger that is up afterwards. *)
Definition ledger_flaky : Ledger service := {|
  rpc_login := fun _ _ _ w =>
    if w_tx w <? 2 then
      (Raise timeout_failure, {| w_store := w_store w; w_tx := w_tx w + 1 |})
    else (Ok tt, w);
  rpc_useDatabase := rpc_useDatabase (ledger Up);
  rpc_verifiedSet := rpc_verifiedSet (ledger Up);
  rpc_verifiedGet := rpc_verifiedGet (ledger Up)
|}.

(** An instance whose [retry_timeout] is negative. *)
Definition impatient : ImmudbWrapper := {|
  username := "immudb";
  password := "immudb";
  database := "defaultdb";
  max_retries := 5;
  retry_timeout := -1
|}.

(** The libraries with a [json.loads] that reads back the one text
    [dumps] gives for the record [{'Name': 'x'}] and rejects other texts. *)
Definition echo_record : pydict := [("Name", PStr "x")].

Definition lib_echo : Libs := {|
  hashlib_supported := hashlib_supported lib;
  hashlib_xof := hashlib_xof lib;
  hashlib_hexdigest := hashlib_hexdigest lib;
  json_dumps := dumps;
  json_loads := fun s =>
    if String.eqb s "{'Name': 'x'}" then Some (PDict echo_record) else None;
  bytes_decode := bytes_decode lib;
  strftime := strftime lib;
  format_exc := describe;
  urlparse := urlparse lib;
  path_name := path_name lib;
  hashlib_sha256 := conj eq_refl eq_refl
|}.

(** A ledger state that holds a value which is not JSON under the key [k]. *)
Definition with_garbage : state service :=
  {| world := {| w_store := [(str_encode "k", str_encode "oops")]; w_tx := 1 |};
     trace := [] |}.

(** A ledger that accepts the verified write and times out on every
    verified read. *)
Definition ledger_read_timeout : Ledger service := {|
  rpc_login := fun _ _ _ w => (Ok tt, w);
  rpc_useDatabase := fun _ w => (Ok tt, w);
  rpc_verifiedSet := rpc_verifiedSet (ledger Up);
  rpc_verifiedGet := fun _ _ w => (Raise timeout_failure, w)
|}.

(** A file system in which the first clone holds a dangling link. *)
Definition fs_dangling : FileSystem := {|
  fs_exists := fs_exists fs;
  fs_read := fs_read fs;
  fs_stat_size := fun p =>
    if String.eqb p "clone_a/dangling" then None else fs_stat_size fs p;
  fs_rglob := fun p =>
    if String.eqb p "clone_a" then ["clone_a/bash.spec"; "clone_a/dangling"]
    else fs_rglob fs p
|}.

End Demo.

(** ** Vocabulary of the statements *)

(** The two methods that [@retry] decorates. *)
Inductive entry_point : Type :=
| Notarize (key value : pyval)
| Authenticate (key : pyval).

Definition entry_name (ep : entry_point) : string :=
  match ep with
  | Notarize _ _ => "notarize"
  | Authenticate _ => "authenticate"
  end.

Definition entry_func (lib : Libs) {W} (ledger : Ledger W) (ep : entry_point)
  : ImmudbWrapper -> M W pydict :=
  match ep with
  | Notarize key value => notarize_func lib ledger key value
  | Authenticate key => authenticate_func lib ledger key
  end.

Definition entry_call (lib : Libs) {W} (ledger : Ledger W) (fuel : nat)
  (self : ImmudbWrapper) (ep : entry_point)
  : state W -> option (res pydict * state W) :=
  match ep with
  | Notarize key value => notarize lib ledger fuel self key value
  | Authenticate key => authenticate lib ledger fuel self key
  end.

(** The signatures that both decorated methods pass to [@retry]. *)
Definition recognized : list string := ["Connection timed out"].

(** The failure is one the decorator retries. *)
Definition transient (e : exn) : bool :=
  is_InactiveRpcError e && details_match recognized (exc_details_of e).

Definition raises_RpcError {A} (r : res A) : bool :=
  match r with
  | Raise e => is_RpcError e
  | Ok _ => false
  end.

Definition is_login_call (ev : event) : bool :=
  match ev with
  | EvLogin _ _ _ _ => true
  | _ => false
  end.

Definition is_retry_log (ev : event) : bool :=
  match ev with
  | EvLogError _ _ => true
  | _ => false
  end.

Definition is_sleep (ev : event) : bool :=
  match ev with
  | EvSleep _ => true
  | _ => false
  end.

Definition is_ledger_op (ev : event) : bool :=
  match ev with
  | EvVerifiedSet _ _ _ | EvVerifiedGet _ _ _ => true
  | _ => false
  end.

Definition count_events (p : event -> bool) (t : list event) : nat :=
  List.length (filter p t).

(** A step of [login] that raised an RPC failure. *)
Definition failed_login_step (ev : event) : bool :=
  match ev with
  | EvLogin _ _ _ (Some e) | EvUseDatabase _ (Some e) => is_RpcError e
  | _ => false
  end.

(** Every retry logged in [t] comes right after a failed step of [login];
    [prev] is the event before [t]. *)
Fixpoint retries_follow_login (prev : option event) (t : list event) : bool :=
  match t with
  | [] => true
  | ev :: t' =>
      (if is_retry_log ev then
         match prev with
         | Some p => failed_login_step p
         | None => false
         end
       else true)
      && retries_follow_login (Some ev) t'
  end.

(** None of the events is the decorator's: no retry log line, no sleep. *)
Definition wrapper_silent (t : list event) : bool :=
  forallb (fun ev => negb (is_retry_log ev || is_sleep ev)) t.

(** A computation that only adds events the decorator does not emit. *)
Definition silent {W A} (m : M W A) : Prop :=
  forall s r s', m s = (r, s') ->
    exists t, trace s' = (trace s ++ t)%list /\ wrapper_silent t = true.

(** The last event of [t], or [prev] when [t] is empty. *)
Definition last_event (prev : option event) (t : list event) : option event :=
  fold_left (fun _ ev => Some ev) t prev.

(** The events of one attempt that fails at the login RPC with [e], followed
    by the decorator's log line and sleep. *)
Definition retry_block (self : ImmudbWrapper) (name : string) (e : exn)
  : list event :=
  [EvLogin (username self) (password self) (str_encode (database self)) (Some e);
   EvLogError name (retry_timeout self);
   EvSleep (retry_timeout self)].

(** The simulated ledger of the retry bound: its [login] RPC always fails
    with a recognized transient signature. *)
Definition login_always_transient {W} (ledger : Ledger W) : Prop :=
  forall u p db w, exists e w',
    rpc_login ledger u p db w = (Raise e, w') /\ transient e = true.

(** The number is not the float NaN. *)
Definition num_not_nan (value : pynum) : bool :=
  match value with
  | NFloat f => negb (SF_is_nan f)
  | NInt _ => true
  end.

(** A numeral with exactly two decimals: an optional minus sign, the decimal
    digits of the whole part, a point and two digits. *)
Definition two_decimals (t : string) : Prop :=
  exists (negative : bool) (whole cents : Z),
    0 <= whole
    /\ 0 <= cents < 100
    /\ t = (if negative then "-" else EmptyString) ++ decimal whole ++ "."
             ++ (if cents <? 10 then "0" else EmptyString) ++ decimal cents.

(** What [f'{x:.2f}'] prints for a float that is not NaN. *)
Definition formatted_number (t : string) : Prop :=
  two_decimals t \/ t = "inf" \/ t = "-inf".

(** The bytes that [hash_file] is to hash: the bytes of the file at the
    path, of the binary stream, or of the text of the text stream; the
    [OSError] of a path that cannot be opened. *)
Definition content_bytes (fs : FileSystem) (file : file_arg) : res bytes :=
  match file with
  | FilePath path =>
      match fs_read fs path with
      | Some content => Ok content
      | None => Raise (OSError path)
      end
  | FileHandle _ content => Ok content
  | TextHandle chars => Ok (List.concat chars)
  end.

(** The outcome of [hash_file] in the library's terms, when the chunk loop
    feeds the hasher with [fed_of content]: the algorithm and the bytes
    already held are those of the hasher given, or [hash_type] and nothing,
    and then [ValueError] if [hashlib] does not know the algorithm; else the
    [OSError] of a path that cannot be opened; else [TypeError] if the digest
    of the algorithm needs a length, and the digest of all the bytes
    otherwise. *)
Definition hash_file_outcome (lib : Libs) (fs : FileSystem) (file : file_arg)
  (hash_type : string) (given : option hasher) (fed_of : bytes -> bytes)
  : res string :=
  let start :=
    match given with
    | Some h => Ok (hasher_type h, hasher_fed h)
    | None =>
        if hashlib_supported lib hash_type then Ok (hash_type, [])
        else Raise (ValueError ("unsupported hash type " ++ hash_type))
    end in
  match start with
  | Raise e => Raise e
  | Ok (algorithm, held) =>
      match content_bytes fs file with
      | Raise e => Raise e
      | Ok content =>
          if hashlib_xof lib algorithm then
            Raise (TypeError "hexdigest() missing required argument 'length'")
          else
            Ok (hashlib_hexdigest lib algorithm
                  (held ++ fed_of content)%list)
      end
  end.

(** The key of a git artifact as the specification words it: the hash of
    the JSON-serialized git metadata block of the commit. *)
Definition git_artifact_key (lib : Libs) (shallow : list string)
  (commit : Commit) : option string :=
  match json_dumps lib (PDict (git_block lib shallow commit)) with
  | Some text => Some (hashlib_hexdigest lib "sha256" (str_encode text))
  | None => None
  end.

(** The name of a git artifact: [git@<netloc><path, its leading / turned
    into :>@<the first seven characters of the sha>]. *)
Definition git_identity (lib : Libs) (remote_url : string) (commit : Commit)
  : string :=
  "git@" ++ fst (urlparse lib remote_url)
    ++ sub_leading_slash (snd (urlparse lib remote_url))
    ++ "@" ++ first7 (hexsha commit).

(** The items the caller passed as [user_metadata]; none when the argument
    is left out. *)
Definition caller_items (user_metadata : option pydict) : pydict :=
  match user_metadata with
  | Some d => d
  | None => []
  end.

(** What a notarization verb is called on. *)
Inductive artifact : Type :=
| FileArtifact (file : string)
| GitRepoArtifact (repo_path : string).

(** [notarize_file] or [notarize_git_repo], by the artifact. *)
Definition notarize_artifact (lib : Libs) (fs : FileSystem)
  (git_open : string -> option Repo) {W} (ledger : Ledger W) (fuel : nat)
  (self : ImmudbWrapper) (a : artifact) (user_metadata : option pydict)
  : state W -> option (res pydict * state W) :=
  match a with
  | FileArtifact file =>
      notarize_file lib fs ledger fuel self file user_metadata
  | GitRepoArtifact repo_path =>
      notarize_git_repo lib fs git_open ledger fuel self repo_path user_metadata
  end.

(** The protocol-computed fields of the record of an artifact, as the
    specification words them: the name (the file name, or the git identity),
    the kind, the scaled size (of the file, or of the directory), the hash
    (of the file's bytes, or of the JSON-serialized git block) and the part
    of the metadata that comes from git (nothing for a file).  [None] when
    one of them cannot be computed. *)
Definition protocol_fields (lib : Libs) (fs : FileSystem)
  (git_open : string -> option Repo) (a : artifact)
  : option (string * string * string * string * pydict) :=
  match a with
  | FileArtifact file =>
      match fs_read fs file with
      | None => None
      | Some content =>
          match get_file_size fs file with
          | Raise _ => None
          | Ok n =>
              match get_size_format_default n with
              | Raise _ => None
              | Ok size =>
                  Some (path_name lib file, "file", size,
                        hashlib_hexdigest lib "sha256" content, [])
              end
          end
      end
  | GitRepoArtifact repo_path =>
      match git_open repo_path with
      | None => None
      | Some repo =>
          match repo_remote_url repo with
          | None => None
          | Some url =>
              match repo_commit repo with
              | None => None
              | Some c =>
                  match git_artifact_key lib (repo_shallow repo) c with
                  | None => None
                  | Some key =>
                      match get_directory_size fs repo_path with
                      | Raise _ => None
                      | Ok n =>
                          match get_size_format_default n with
                          | Raise _ => None
                          | Ok size =>
                              Some (git_identity lib url c, "git", size, key,
                                    [("git",
                                      PDict (git_block lib (repo_shallow repo)
                                               c))])
                          end
                      end
                  end
              end
          end
      end
  end.

(** [sub] occurs in [s] as a contiguous run of characters. *)
Definition is_substring (sub s : string) : Prop :=
  exists pre post, s = pre ++ sub ++ post.

(** The state after the decorator has logged a retry and slept. *)
Definition after_backoff {W} (self : ImmudbWrapper) (name : string)
  (s : state W) : state W :=
  Build_state (world s)
    (trace s ++ [EvLogError name (retry_timeout self);
                 EvSleep (retry_timeout self)]).

(** Starting in [s], the first [k] attempts of the entry point end in a
    failure the decorator retries, and the attempt after them ends with
    [out], which is not such a failure. *)
Fixpoint fails_then (lib : Libs) {W} (ledger : Ledger W) (ep : entry_point)
  (self : ImmudbWrapper) (k : nat) (s : state W)
  (out : res pydict * state W) : Prop :=
  match k with
  | O =>
      entry_func lib ledger ep self s = out
      /\ match fst out with
         | Raise e => transient e = false
         | Ok _ => True
         end
  | S k' =>
      exists e s1,
        entry_func lib ledger ep self s = (Raise e, s1)
        /\ transient e = true
        /\ fails_then lib ledger ep self k'
             (after_backoff self (entry_name ep) s1) out
  end.

(** [encode] accepts the value: it is a [str], [bytes] or [dict]. *)
Definition encodable (value : pyval) : bool :=
  match value with
  | PStr _ | PBytes _ | PDict _ => true
  | _ => false
  end.

(** The size of a directory entry, 0 when it cannot be read. *)
Definition size_or_zero (fs : FileSystem) (file : string) : Z :=
  match fs_stat_size fs file with
  | Some n => n
  | None => 0
  end.

Definition unreadable (fs : FileSystem) (file : string) : bool :=
  match fs_stat_size fs file with
  | Some _ => false
  | None => true
  end.

(** The sum of a list of integers. *)
Definition sum_Z (l : list Z) : Z := fold_right Z.add 0 l.

(** The metadata merge as the specification words it: schema defaults, then
    the git block, then the caller's items; later wins. *)
Definition merge_by_precedence (defaults git_part user : pydict) : pydict :=
  dict_update (dict_update (dict_update [] defaults) git_part) user.

(** * Properties *)

(** ** Dicts *)

Lemma dict_get_set_same (d : pydict) (k : string) (v : pyval) :
  dict_get (dict_set d k v) k = Some v.
Proof.
  induction d as [|[k' v'] d IH]; simpl.
  - now rewrite String.eqb_refl.
  - destruct (String.eqb k' k) eqn:E; simpl; rewrite E; auto.
Qed.

Lemma dict_get_set_other (d : pydict) (k k0 : string) (v : pyval) :
  k <> k0 -> dict_get (dict_set d k v) k0 = dict_get d k0.
Proof.
  intros Hne. induction d as [|[k' v'] d IH]; simpl.
  - destruct (String.eqb k k0) eqn:E; auto.
    apply String.eqb_eq in E. contradiction.
  - destruct (String.eqb k' k) eqn:E; simpl.
    + apply String.eqb_eq in E. subst k'.
      destruct (String.eqb k k0) eqn:E0; auto.
      apply String.eqb_eq in E0. contradiction.
    + destruct (String.eqb k' k0); auto.
Qed.

(** Storing the items of [u] changes the value under [k] only through the
    value [d] had there. *)
Lemma dict_get_update_congr (u d1 d2 : pydict) (k : string) :
  dict_get d1 k = dict_get d2 k ->
  dict_get (dict_update d1 u) k = dict_get (dict_update d2 u) k.
Proof.
  unfold dict_update. revert d1 d2.
  induction u as [|[k' v'] u IH]; intros d1 d2 H; simpl; auto.
  apply IH. destruct (String.eqb k' k) eqn:E.
  - apply String.eqb_eq in E. subst. now rewrite !dict_get_set_same.
  - assert (k' <> k) by (intro; subst; rewrite String.eqb_refl in E; discriminate).
    now rewrite !dict_get_set_other.
Qed.

Lemma dict_get_update_absent (u d : pydict) (k : string) :
  dict_get u k = None -> dict_get (dict_update d u) k = dict_get d k.
Proof.
  unfold dict_update. revert d.
  induction u as [|[k' v'] u IH]; intros d H; simpl in *; auto.
  destruct (String.eqb k' k) eqn:E; [discriminate|].
  rewrite IH by assumption.
  apply dict_get_set_other. intro; subst. rewrite String.eqb_refl in E. discriminate.
Qed.

Lemma dict_get_In (d : pydict) (k : string) (v : pyval) :
  dict_get d k = Some v -> In k (map fst d).
Proof.
  induction d as [|[k' v'] d IH]; simpl; [discriminate|].
  destruct (String.eqb k' k) eqn:E.
  - apply String.eqb_eq in E. auto.
  - auto.
Qed.

(** In a well-formed [u], the item of [u] under [k] is the one that wins. *)
Lemma dict_get_update_present (u d : pydict) (k : string) (v : pyval) :
  dict_wf u -> dict_get u k = Some v -> dict_get (dict_update d u) k = Some v.
Proof.
  unfold dict_wf, dict_update. revert d.
  induction u as [|[k' v'] u IH]; intros d Hwf H; simpl in *; [discriminate|].
  inversion Hwf as [|? ? Hnotin Hwf']; subst.
  destruct (String.eqb k' k) eqn:E.
  - apply String.eqb_eq in E. subst k'. injection H as ->.
    assert (Habs : dict_get u k = None).
    { destruct (dict_get u k) eqn:G; auto.
      apply dict_get_In in G. contradiction. }
    change (dict_get (dict_update (dict_set d k v) u) k = Some v).
    rewrite dict_get_update_absent by assumption.
    apply dict_get_set_same.
  - now apply IH.
Qed.

Lemma dict_get_update (u d : pydict) (k : string) :
  dict_wf u ->
  dict_get (dict_update d u) k =
  match dict_get u k with
  | Some v => Some v
  | None => dict_get d k
  end.
Proof.
  intros Hwf. destruct (dict_get u k) eqn:G.
  - now apply dict_get_update_present.
  - now apply dict_get_update_absent.
Qed.

(** ** The session operations *)

Section WrapperProperties.

Context (lib : Libs) {W : Type} (ledger : Ledger W).

Lemma encode_not_RpcError (v : pyval) (e : exn) :
  encode lib v = Raise e -> is_RpcError e = false.
Proof.
  destruct v; simpl; try (intros [= <-]; reflexivity).
  destruct (json_dumps lib (PDict d)); intros [= <-]; reflexivity.
Qed.

Lemma decode_item_not_RpcError (o : option pyval) (e : exn) :
  decode_item lib o = Raise e -> is_RpcError e = false.
Proof.
  destruct o as [[]|]; simpl; try (intros [= <-]; reflexivity).
  destruct (bytes_decode lib b); intros [= <-]; reflexivity.
Qed.

Lemma to_dict_not_RpcError (r : SafeGetResponse) (e : exn) :
  to_dict lib r = Raise e -> is_RpcError e = false.
Proof.
  unfold to_dict.
  destruct (decode_item lib (dict_get (asdict_SafeGetResponse r) "key"))
    as [k|e1] eqn:E1.
  - destruct (decode_item lib (dict_get (dict_set _ "key" (PStr k)) "value"))
      as [v|e2] eqn:E2.
    + destruct (json_loads lib v); intros H; inversion H; reflexivity.
    + intros [= <-]. eapply decode_item_not_RpcError; eauto.
  - intros [= <-]. eapply decode_item_not_RpcError; eauto.
Qed.

(** [verified_get], step by step: the key is encoded, one [verifiedGet] RPC
    is made, its failure is captured when it is an [RpcError]. *)
Lemma verified_get_unfold (self : ImmudbWrapper) (key : pyval)
  (revision : option Z) (s : state W) :
  verified_get lib ledger self key revision s =
  match encode lib key with
  | Raise e => (Raise e, s)
  | Ok k =>
      let (r, w) := rpc_verifiedGet ledger k revision (world s) in
      let s1 := Build_state w (trace s ++ [EvVerifiedGet k revision (raised_of r)]) in
      match r with
      | Ok response => (to_dict lib response, s1)
      | Raise e =>
          if is_RpcError e then (Ok (error_record lib e), s1) else (Raise e, s1)
      end
  end.
Proof.
  unfold verified_get, try_except_RpcError, bind, lift_res,
    call_verifiedGet, ret.
  destruct (encode lib key) as [k|e] eqn:Ek.
  - destruct (rpc_verifiedGet ledger k revision (world s)) as [[response|e] w].
    + cbn. destruct (to_dict lib response) as [d|e] eqn:Ed; auto.
      now rewrite (to_dict_not_RpcError _ _ Ed).
    + cbn. destruct (is_RpcError e); reflexivity.
  - now rewrite (encode_not_RpcError _ _ Ek).
Qed.

Lemma verified_set_unfold (self : ImmudbWrapper) (key value : pyval)
  (s : state W) :
  verified_set lib ledger self key value s =
  match encode lib key with
  | Raise e => (Raise e, s)
  | Ok k =>
      match encode lib value with
      | Raise e => (Raise e, s)
      | Ok v =>
          let (r, w) := rpc_verifiedSet ledger k v (world s) in
          let s1 := Build_state w (trace s ++ [EvVerifiedSet k v (raised_of r)]) in
          match r with
          | Ok response => (Ok (asdict_SetResponse response), s1)
          | Raise e =>
              if is_RpcError e then (Ok (error_record lib e), s1)
              else (Raise e, s1)
          end
      end
  end.
Proof.
  unfold verified_set, try_except_RpcError, bind, lift_res,
    call_verifiedSet, ret.
  destruct (encode lib key) as [k|e] eqn:Ek.
  - destruct (encode lib value) as [v|e] eqn:Ev.
    + destruct (rpc_verifiedSet ledger k v (world s)) as [[response|e] w]; cbn;
        [reflexivity | destruct (is_RpcError e); reflexivity].
    + now rewrite (encode_not_RpcError _ _ Ev).
  - now rewrite (encode_not_RpcError _ _ Ek).
Qed.

Lemma verified_get_no_RpcError (self : ImmudbWrapper) (key : pyval)
  (revision : option Z) (s : state W) :
  raises_RpcError (fst (verified_get lib ledger self key revision s)) = false.
Proof.
  rewrite verified_get_unfold.
  destruct (encode lib key) as [k|e] eqn:Ek; cbn.
  - destruct (rpc_verifiedGet ledger k revision (world s)) as [[response|e] w]; cbn.
    + destruct (to_dict lib response) eqn:Ed; cbn; auto.
      eapply to_dict_not_RpcError; eauto.
    + destruct (is_RpcError e) eqn:E; cbn; auto.
  - eapply encode_not_RpcError; eauto.
Qed.

Lemma verified_set_no_RpcError (self : ImmudbWrapper) (key value : pyval)
  (s : state W) :
  raises_RpcError (fst (verified_set lib ledger self key value s)) = false.
Proof.
  rewrite verified_set_unfold.
  destruct (encode lib key) as [k|e] eqn:Ek; cbn.
  - destruct (encode lib value) as [v|e] eqn:Ev; cbn.
    + destruct (rpc_verifiedSet ledger k v (world s)) as [[response|e] w]; cbn; auto.
      destruct (is_RpcError e) eqn:E; cbn; auto.
    + eapply encode_not_RpcError; eauto.
  - eapply encode_not_RpcError; eauto.
Qed.

(** C5. [verified_get] and [verified_set] never propagate an RPC-layer
    failure.  Whatever the key, the value, the revision and the state of the
    ledger: neither call ends by raising an [RpcError]; when the RPC itself
    raises an [RpcError], the call returns the mapping [{'error': text}] whose
    ['error'] item is the diagnostic text of that failure; when the RPC
    succeeds, [verified_get] returns the decoded record ([to_dict] of the
    response) and [verified_set] returns the proof mapping ([asdict] of the
    response).  Failures that are not RPC failures (a key that cannot be
    encoded, a stored value that is not JSON) are raised as they are. *)
Theorem verified_get_set_capture_rpc_failures (self : ImmudbWrapper)
  (key value : pyval) (revision : option Z) (s : state W) :
  raises_RpcError (fst (verified_get lib ledger self key revision s)) = false
  /\ raises_RpcError (fst (verified_set lib ledger self key value s)) = false
  /\ (forall e, dict_get (error_record lib e) "error"
                = Some (PStr (format_exc lib e)))
  /\ match encode lib key with
     | Raise e =>
         fst (verified_get lib ledger self key revision s) = Raise e
         /\ fst (verified_set lib ledger self key value s) = Raise e
     | Ok k =>
         match fst (rpc_verifiedGet ledger k revision (world s)) with
         | Ok response =>
             fst (verified_get lib ledger self key revision s)
             = to_dict lib response
         | Raise e =>
             fst (verified_get lib ledger self key revision s)
             = if is_RpcError e then Ok (error_record lib e) else Raise e
         end
         /\ match encode lib value with
            | Raise e => fst (verified_set lib ledger self key value s) = Raise e
            | Ok v =>
                match fst (rpc_verifiedSet ledger k v (world s)) with
                | Ok response =>
                    fst (verified_set lib ledger self key value s)
                    = Ok (asdict_SetResponse response)
                | Raise e =>
                    fst (verified_set lib ledger self key value s)
                    = if is_RpcError e then Ok (error_record lib e) else Raise e
                end
            end
     end.
Proof.
  split; [apply verified_get_no_RpcError|].
  split; [apply verified_set_no_RpcError|].
  split; [reflexivity|].
  rewrite verified_get_unfold, verified_set_unfold.
  destruct (encode lib key) as [k|e]; [|split; reflexivity].
  split.
  - destruct (rpc_verifiedGet ledger k revision (world s)) as [[response|e] w]; cbn;
      [reflexivity | destruct (is_RpcError e); reflexivity].
  - destruct (encode lib value) as [v|e]; [|reflexivity].
    destruct (rpc_verifiedSet ledger k v (world s)) as [[response|e] w]; cbn;
      [reflexivity | destruct (is_RpcError e); reflexivity].
Qed.

(** *** Events of the session operations *)

Lemma wrapper_silent_app (t1 t2 : list event) :
  wrapper_silent (t1 ++ t2) = wrapper_silent t1 && wrapper_silent t2.
Proof. apply forallb_app. Qed.

Lemma silent_lift_res {A} (r : res A) : silent (W:=W) (lift_res r).
Proof.
  intros s r' s' [= <- <-]. exists []. now rewrite app_nil_r.
Qed.

Lemma silent_ret {A} (a : A) : silent (W:=W) (ret a).
Proof. apply (silent_lift_res (Ok a)). Qed.

Lemma silent_bind {A B} (m : M W A) (k : A -> M W B) :
  silent m -> (forall a, silent (k a)) -> silent (bind m k).
Proof.
  intros Hm Hk s r s'. unfold bind.
  destruct (m s) as [[a|e] s1] eqn:Em.
  - intros Ek. destruct (Hm _ _ _ Em) as (t1 & E1 & S1).
    destruct (Hk a _ _ _ Ek) as (t2 & E2 & S2).
    exists (t1 ++ t2)%list. split.
    + now rewrite E2, E1, app_assoc.
    + now rewrite wrapper_silent_app, S1, S2.
  - intros [= <- <-]. eauto.
Qed.

Lemma silent_try_except {A} (m : M W A) (h : exn -> M W A) :
  silent m -> (forall e, silent (h e)) -> silent (try_except_RpcError m h).
Proof.
  intros Hm Hh s r s'. unfold try_except_RpcError.
  destruct (m s) as [[a|e] s1] eqn:Em.
  - intros [= <- <-]. eauto.
  - destruct (is_RpcError e).
    + intros Eh. destruct (Hm _ _ _ Em) as (t1 & E1 & S1).
      destruct (Hh e _ _ _ Eh) as (t2 & E2 & S2).
      exists (t1 ++ t2)%list. split.
      * now rewrite E2, E1, app_assoc.
      * now rewrite wrapper_silent_app, S1, S2.
    + intros [= <- <-]. eauto.
Qed.

Lemma silent_call_login (u p : string) (db : bytes) :
  silent (call_login ledger u p db).
Proof.
  intros s r s'. unfold call_login.
  destruct (rpc_login ledger u p db (world s)) as [r0 w].
  intros [= <- <-]. cbn. eauto.
Qed.

Lemma silent_call_useDatabase (db : bytes) :
  silent (call_useDatabase ledger db).
Proof.
  intros s r s'. unfold call_useDatabase.
  destruct (rpc_useDatabase ledger db (world s)) as [r0 w].
  intros [= <- <-]. cbn. eauto.
Qed.

Lemma silent_call_verifiedSet (k v : bytes) :
  silent (call_verifiedSet ledger k v).
Proof.
  intros s r s'. unfold call_verifiedSet.
  destruct (rpc_verifiedSet ledger k v (world s)) as [r0 w].
  intros [= <- <-]. cbn. eauto.
Qed.

Lemma silent_call_verifiedGet (k : bytes) (rev : option Z) :
  silent (call_verifiedGet ledger k rev).
Proof.
  intros s r s'. unfold call_verifiedGet.
  destruct (rpc_verifiedGet ledger k rev (world s)) as [r0 w].
  intros [= <- <-]. cbn. eauto.
Qed.

Lemma silent_login (self : ImmudbWrapper) : silent (login lib ledger self).
Proof.
  unfold login. apply silent_bind; [apply silent_lift_res|]. intros db.
  apply silent_bind; [apply silent_call_login|]. intros _.
  apply silent_call_useDatabase.
Qed.

Lemma silent_verified_get (self : ImmudbWrapper) (key : pyval)
  (revision : option Z) : silent (verified_get lib ledger self key revision).
Proof.
  unfold verified_get. apply silent_try_except.
  - apply silent_bind; [apply silent_lift_res|]. intros k.
    apply silent_bind; [apply silent_call_verifiedGet|]. intros response.
    apply silent_lift_res.
  - intros e. apply silent_ret.
Qed.

Lemma silent_verified_set (self : ImmudbWrapper) (key value : pyval) :
  silent (verified_set lib ledger self key value).
Proof.
  unfold verified_set. apply silent_try_except.
  - apply silent_bind; [apply silent_lift_res|]. intros k.
    apply silent_bind; [apply silent_lift_res|]. intros v.
    apply silent_bind; [apply silent_call_verifiedSet|]. intros response.
    apply silent_ret.
  - intros e. apply silent_ret.
Qed.

Lemma silent_entry_func (ep : entry_point) (self : ImmudbWrapper) :
  silent (entry_func lib ledger ep self).
Proof.
  destruct ep as [key value|key]; cbn.
  - unfold notarize_func. apply silent_bind; [apply silent_login|]. intros _.
    apply silent_bind; [apply silent_verified_set|]. intros result.
    destruct (dict_mem "error" result);
      [apply silent_ret | apply silent_verified_get].
  - unfold authenticate_func. apply silent_bind; [apply silent_login|].
    intros _. apply silent_verified_get.
Qed.

(** [login], step by step: the [login] RPC, then the [useDatabase] RPC. *)
Lemma login_unfold (self : ImmudbWrapper) (s : state W) :
  login lib ledger self s =
  let db := str_encode (database self) in
  let (r, w) := rpc_login ledger (username self) (password self) db (world s) in
  let s1 := Build_state w
              (trace s ++ [EvLogin (username self) (password self) db
                             (raised_of r)]) in
  match r with
  | Raise e => (Raise e, s1)
  | Ok _ =>
      let (r2, w2) := rpc_useDatabase ledger db w in
      (r2, Build_state w2 (trace s1 ++ [EvUseDatabase db (raised_of r2)]))
  end.
Proof.
  unfold login, bind, lift_res, call_login, call_useDatabase. cbn.
  destruct (rpc_login ledger _ _ _ (world s)) as [[[]|e] w]; cbn; reflexivity.
Qed.

(** An RPC failure that leaves an attempt of [notarize] or [authenticate] was
    raised by its [login] step. *)
Lemma entry_func_RpcError (ep : entry_point) (self : ImmudbWrapper)
  (s s1 : state W) (e : exn) :
  entry_func lib ledger ep self s = (Raise e, s1) ->
  is_RpcError e = true ->
  login lib ledger self s = (Raise e, s1).
Proof.
  intros Hf He.
  destruct ep as [key value|key]; cbn in Hf;
    unfold notarize_func, authenticate_func, bind in Hf;
    destruct (login lib ledger self s) as [[[]|e0] s0]; cbn in Hf;
    try (injection Hf as -> ->; reflexivity).
  - pose proof (verified_set_no_RpcError self key value s0) as Hset.
    destruct (verified_set lib ledger self key value s0) as [[result|e1] s2].
    + destruct (dict_mem "error" result); [discriminate|].
      pose proof (verified_get_no_RpcError self key None s2) as Hget.
      rewrite Hf in Hget. cbn in Hget. congruence.
    + injection Hf as -> ->. cbn in Hset. congruence.
  - pose proof (verified_get_no_RpcError self key None s0) as Hget.
    rewrite Hf in Hget. cbn in Hget. congruence.
Qed.

(** The events of a [login] that raised. *)
Lemma login_raise_events (self : ImmudbWrapper) (s s1 : state W) (e : exn) :
  login lib ledger self s = (Raise e, s1) ->
  let u := username self in
  let p := password self in
  let db := str_encode (database self) in
  trace s1 = (trace s ++ [EvLogin u p db (Some e)])%list
  \/ trace s1 = (trace s ++ [EvLogin u p db None; EvUseDatabase db (Some e)])%list.
Proof.
  rewrite login_unfold. cbn zeta.
  destruct (rpc_login ledger _ _ _ (world s)) as [[[]|e0] w].
  - destruct (rpc_useDatabase ledger _ w) as [[[]|e1] w2]; [discriminate|].
    intros [= <- <-]. right. cbn. now rewrite <- app_assoc.
  - intros [= <- <-]. left. reflexivity.
Qed.

(** *** The retry loop *)

Lemma last_event_snoc (prev : option event) (t : list event) (ev : event) :
  last_event prev (t ++ [ev]) = Some ev.
Proof. unfold last_event. now rewrite fold_left_app. Qed.

Lemma retries_follow_login_app (prev : option event) (t1 t2 : list event) :
  retries_follow_login prev (t1 ++ t2) =
  retries_follow_login prev t1 && retries_follow_login (last_event prev t1) t2.
Proof.
  revert prev. induction t1 as [|ev t1 IH]; intros prev; cbn.
  - reflexivity.
  - rewrite IH. now rewrite andb_assoc.
Qed.

Lemma silent_retries_follow_login (prev : option event) (t : list event) :
  wrapper_silent t = true -> retries_follow_login prev t = true.
Proof.
  revert prev. induction t as [|ev t IH]; intros prev; cbn; auto.
  intros H. apply andb_prop in H as [H1 H2].
  rewrite IH by assumption.
  destruct (is_retry_log ev); [discriminate | reflexivity].
Qed.

Lemma is_InactiveRpcError_RpcError (e : exn) :
  is_InactiveRpcError e = true -> is_RpcError e = true.
Proof. destruct e; cbn; congruence. Qed.

(** The log line and the sleep between two attempts. *)
Lemma log_and_sleep_unfold (name : string) (t : Z) (s : state W) :
  (logger_error name t ;;; sleep t)%py s =
  if t <? 0 then
    (Raise (ValueError "sleep length must be non-negative"),
     Build_state (world s) (trace s ++ [EvLogError name t]))
  else
    (Ok tt, Build_state (world s) (trace s ++ [EvLogError name t; EvSleep t])).
Proof.
  unfold bind, logger_error, sleep, emit, raise. cbn.
  destruct (t <? 0); cbn; [reflexivity|].
  now rewrite <- app_assoc.
Qed.

(** Invariant of the loop: whatever the function, if its RPC failures always
    end in a failed step of [login] and it emits no decorator event itself,
    every retry in the trace follows a failed step of [login]. *)
Lemma retry_loop_retries_follow_login {A} (possible : list string)
  (name : string) (func : ImmudbWrapper -> M W A) (self : ImmudbWrapper) :
  silent (func self) ->
  (forall s e s1, func self s = (Raise e, s1) -> is_RpcError e = true ->
     exists t0 p, trace s1 = (trace s ++ t0 ++ [p])%list
                  /\ wrapper_silent (t0 ++ [p]) = true
                  /\ failed_login_step p = true) ->
  forall fuel mr last s r s',
    retry_loop possible name func self fuel mr last s = Some (r, s') ->
    exists t, trace s' = (trace s ++ t)%list
              /\ forall prev, retries_follow_login prev t = true.
Proof.
  intros Hsilent Hfail.
  induction fuel as [|fuel IH]; intros mr last s r s'; cbn [retry_loop].
  - destruct (mr =? 0); [|discriminate].
    intros [= <- <-]. exists []. now rewrite app_nil_r.
  - destruct (mr =? 0).
    { intros [= <- <-]. exists []. now rewrite app_nil_r. }
    destruct (func self s) as [[a|exc] s1] eqn:Ef.
    { intros [= <- <-]. destruct (Hsilent _ _ _ Ef) as (t & Et & St).
      exists t. split; [assumption|].
      intros prev. now apply silent_retries_follow_login. }
    destruct (is_InactiveRpcError exc) eqn:Ei.
    2:{ intros [= <- <-]. destruct (Hsilent _ _ _ Ef) as (t & Et & St).
        exists t. split; [assumption|].
        intros prev. now apply silent_retries_follow_login. }
    destruct (details_match possible (exc_details_of exc)).
    2:{ intros [= <- <-]. destruct (Hsilent _ _ _ Ef) as (t & Et & St).
        exists t. split; [assumption|].
        intros prev. now apply silent_retries_follow_login. }
    destruct (Hfail _ _ _ Ef (is_InactiveRpcError_RpcError _ Ei))
      as (t0 & p & Et & St & Hp).
    rewrite log_and_sleep_unfold.
    destruct (retry_timeout self <? 0).
    + intros [= <- <-]. cbn [trace].
      exists ((t0 ++ [p]) ++ [EvLogError name (retry_timeout self)])%list.
      split; [now rewrite Et, !app_assoc|].
      intros prev. rewrite retries_follow_login_app, last_event_snoc.
      rewrite silent_retries_follow_login by assumption.
      cbn. now rewrite Hp.
    + intros Hrec. apply IH in Hrec as (t' & Et' & Ht'). cbn [trace] in Et'.
      exists ((t0 ++ [p])
              ++ [EvLogError name (retry_timeout self);
                  EvSleep (retry_timeout self)] ++ t')%list.
      split; [now rewrite Et', Et, !app_assoc|].
      intros prev. rewrite retries_follow_login_app, last_event_snoc.
      rewrite silent_retries_follow_login by assumption.
      cbn. now rewrite Hp, Ht'.
Qed.

Lemma entry_call_retry (fuel : nat) (self : ImmudbWrapper) (ep : entry_point) :
  entry_call lib ledger fuel self ep =
  retry_loop recognized (entry_name ep) (entry_func lib ledger ep) self fuel
    (max_retries self) BareException.
Proof. destruct ep; reflexivity. Qed.

(** The events of an attempt that ends in an RPC failure. *)
Lemma entry_func_RpcError_events (ep : entry_point) (self : ImmudbWrapper)
  (s s1 : state W) (e : exn) :
  entry_func lib ledger ep self s = (Raise e, s1) ->
  is_RpcError e = true ->
  exists t0 p, trace s1 = (trace s ++ t0 ++ [p])%list
               /\ wrapper_silent (t0 ++ [p]) = true
               /\ failed_login_step p = true.
Proof.
  intros Hf He. apply entry_func_RpcError in Hf; [|assumption].
  destruct (login_raise_events _ _ _ _ Hf) as [Et|Et].
  - exists [], (EvLogin (username self) (password self)
                  (str_encode (database self)) (Some e)).
    cbn. auto.
  - exists [EvLogin (username self) (password self)
              (str_encode (database self)) None],
           (EvUseDatabase (str_encode (database self)) (Some e)).
    cbn. auto.
Qed.

(** C2. The retry policy wraps the [login]-plus-operation pair of [notarize]
    and [authenticate] only, and only [login] can trigger a retry.  For each
    of the two entry points, every instance and every state of the ledger:
    (1) [verified_get] and [verified_set], called inside, never end by raising
    an RPC failure; (2) if one attempt (the decorated function) ends by
    raising an RPC failure, that failure was raised by its [login] step,
    which ended the attempt; (3) in the events of a whole call, every retry
    the decorator logs comes right after a step of [login] that raised an RPC
    failure. *)
Theorem only_login_failure_triggers_retry (ep : entry_point) (fuel : nat)
  (self : ImmudbWrapper) (key value : pyval) (revision : option Z)
  (s : state W) :
  (raises_RpcError (fst (verified_get lib ledger self key revision s)) = false
   /\ raises_RpcError (fst (verified_set lib ledger self key value s)) = false)
  /\ match entry_func lib ledger ep self s with
     | (Raise e, s1) =>
         if is_RpcError e then login lib ledger self s = (Raise e, s1) else True
     | (Ok _, _) => True
     end
  /\ match entry_call lib ledger fuel self ep s with
     | Some (_, s') =>
         exists t, trace s' = (trace s ++ t)%list
                   /\ retries_follow_login None t = true
     | None => True
     end.
Proof.
  split; [split; [apply verified_get_no_RpcError
                 | apply verified_set_no_RpcError]|].
  split.
  - destruct (entry_func lib ledger ep self s) as [[d|e] s1] eqn:Ef; auto.
    destruct (is_RpcError e) eqn:He; auto.
    now apply (entry_func_RpcError ep).
  - rewrite entry_call_retry.
    destruct (retry_loop _ _ _ _ _ _ _ _) as [[r s']|] eqn:Er; auto.
    eapply retry_loop_retries_follow_login in Er.
    + destruct Er as (t & Et & Ht). eauto.
    + apply silent_entry_func.
    + intros. eapply entry_func_RpcError_events; eauto.
Qed.

(** *** One attempt and its outcome *)

Lemma entry_func_login_rpc_raise (ep : entry_point) (self : ImmudbWrapper)
  (s : state W) (e : exn) (w' : W) :
  rpc_login ledger (username self) (password self)
    (str_encode (database self)) (world s) = (Raise e, w') ->
  entry_func lib ledger ep self s =
  (Raise e,
   Build_state w'
     (trace s ++ [EvLogin (username self) (password self)
                    (str_encode (database self)) (Some e)])).
Proof.
  intros H.
  destruct ep; cbn; unfold notarize_func, authenticate_func, bind;
    rewrite login_unfold; cbn zeta; rewrite H; reflexivity.
Qed.

Lemma not_RpcError_not_Inactive (e : exn) :
  is_RpcError e = false -> is_InactiveRpcError e = false.
Proof. destruct e; cbn; congruence. Qed.

(** C1. [notarize] writes, then reads back.  For every key and value, on an
    instance whose retry counter is not zero: the call first runs [login];
    when [login] succeeds, it performs [verified_set(key, value)] in the state
    [login] left; if the mapping that the set returned has an ['error'] item,
    that mapping is returned unchanged and nothing else is done; otherwise
    [verified_get(key)] is performed in the state the set left and its result
    is the result of [notarize].  An exception of the set or of the read-back
    (never an RPC failure) is raised to the caller without a retry.  The
    mapping of a captured failure has the ['error'] item, the proof mapping
    of a successful set has not. *)
Theorem notarize_writes_then_reads_back (self : ImmudbWrapper)
  (key value : pyval) (s s1 : state W) (fuel : nat) :
  max_retries self <> 0 ->
  login lib ledger self s = (Ok tt, s1) ->
  notarize lib ledger (S fuel) self key value s =
  Some match verified_set lib ledger self key value s1 with
       | (Ok result, s2) =>
           if dict_mem "error" result then (Ok result, s2)
           else verified_get lib ledger self key None s2
       | (Raise e, s2) => (Raise e, s2)
       end
  /\ (forall e, dict_mem "error" (error_record lib e) = true)
  /\ (forall response, dict_mem "error" (asdict_SetResponse response) = false).
Proof.
  intros Hmr Hlogin.
  split; [|split; reflexivity].
  unfold notarize, retry. cbn [retry_loop].
  apply Z.eqb_neq in Hmr. rewrite Hmr.
  unfold notarize_func at 1, bind. rewrite Hlogin.
  pose proof (verified_set_no_RpcError self key value s1) as Hset.
  destruct (verified_set lib ledger self key value s1) as [[result|e] s2].
  - destruct (dict_mem "error" result); [reflexivity|].
    pose proof (verified_get_no_RpcError self key None s2) as Hget.
    destruct (verified_get lib ledger self key None s2) as [[d|e] s3];
      [reflexivity|].
    now rewrite (not_RpcError_not_Inactive e Hget).
  - now rewrite (not_RpcError_not_Inactive e Hset).
Qed.

(** A failure the decorator does not recognize ends the loop at once,
    whatever the decorated function. *)
Lemma retry_loop_unrecognized {A} (possible : list string) (name : string)
  (func : ImmudbWrapper -> M W A) (self : ImmudbWrapper) (fuel : nat)
  (mr : Z) (last e : exn) (s s1 : state W) :
  mr <> 0 ->
  func self s = (Raise e, s1) ->
  is_InactiveRpcError e && details_match possible (exc_details_of e) = false ->
  retry_loop possible name func self (S fuel) mr last s = Some (Raise e, s1).
Proof.
  intros Hmr Hf Hu. cbn [retry_loop].
  apply Z.eqb_neq in Hmr. rewrite Hmr, Hf.
  destruct (is_InactiveRpcError e); [|reflexivity].
  cbn in Hu. now rewrite Hu.
Qed.

(** C4. A failure without a recognized signature is not retried.  For
    [notarize] and for [authenticate], on an instance whose retry counter is
    not zero: if the attempt made in state [s] ends by raising an RPC failure
    [e] that the decorator does not recognize as transient, the call raises
    [e] and ends in exactly the state that single attempt left; the events
    added hold one [login] call, no retry log line and no sleep. *)
Theorem unrecognized_failure_is_not_retried (ep : entry_point)
  (self : ImmudbWrapper) (s s1 : state W) (e : exn) (fuel : nat) :
  max_retries self <> 0 ->
  entry_func lib ledger ep self s = (Raise e, s1) ->
  is_RpcError e = true ->
  transient e = false ->
  entry_call lib ledger (S fuel) self ep s = Some (Raise e, s1)
  /\ exists t, trace s1 = (trace s ++ t)%list
               /\ count_events is_login_call t = 1%nat
               /\ count_events is_retry_log t = 0%nat
               /\ count_events is_sleep t = 0%nat.
Proof.
  intros Hmr Hf He Ht. split.
  - rewrite entry_call_retry. now apply retry_loop_unrecognized.
  - apply entry_func_RpcError in Hf; [|assumption].
    destruct (login_raise_events _ _ _ _ Hf) as [Et|Et]; rewrite Et;
      eexists; (split; [reflexivity|]); cbn; auto.
Qed.

(** *** Exhausting the retries *)

Lemma last_cons {A} (a d : A) (l : list A) : List.last (a :: l) d = List.last l a.
Proof.
  revert a d. induction l as [|b l IH]; intros a d; [reflexivity|].
  change (List.last (b :: l) d = List.last (b :: l) a).
  now rewrite (IH b d), (IH b a).
Qed.

(** With a ledger whose [login] always fails transiently, the loop started
    with the counter at [n] makes [n] attempts. *)
Lemma retry_loop_all_transient (ep : entry_point) (self : ImmudbWrapper) :
  login_always_transient ledger ->
  0 <= retry_timeout self ->
  forall (n : nat) (last : exn) (s : state W),
  exists (failures : list exn) (s' : state W),
    List.length failures = n
    /\ Forall (fun e => transient e = true) failures
    /\ trace s' = (trace s ++ flat_map (retry_block self (entry_name ep))
                                       failures)%list
    /\ forall fuel, (n <= fuel)%nat ->
         retry_loop recognized (entry_name ep) (entry_func lib ledger ep) self
           fuel (Z.of_nat n) last s
         = Some (Raise (List.last failures last), s').
Proof.
  intros Hdown Htimeout.
  induction n as [|n IH]; intros last s.
  - exists [], s. repeat split; auto.
    + now rewrite app_nil_r.
    + intros fuel _. destruct fuel; reflexivity.
  - destruct (Hdown (username self) (password self)
                (str_encode (database self)) (world s)) as (e & w' & Hrpc & He).
    pose proof (entry_func_login_rpc_raise ep self s e w' Hrpc) as Hf.
    set (s1 := Build_state w'
                 (trace s ++ [EvLogin (username self) (password self)
                                (str_encode (database self)) (Some e)])) in *.
    set (s2 := Build_state (world s1)
                 (trace s1 ++ [EvLogError (entry_name ep) (retry_timeout self);
                               EvSleep (retry_timeout self)])).
    destruct (IH e s2) as (failures & s' & Hlen & Hall & Htrace & Hrun).
    exists (e :: failures), s'. repeat split.
    + cbn. now rewrite Hlen.
    + now constructor.
    + rewrite Htrace. subst s2 s1. cbn [trace flat_map retry_block].
      now rewrite <- !app_assoc.
    + intros fuel Hfuel. destruct fuel as [|fuel]; [lia|].
      cbn [retry_loop].
      replace (Z.of_nat (S n) =? 0) with false by (symmetry; apply Z.eqb_neq; lia).
      rewrite Hf. unfold transient in He. apply andb_prop in He as [Hi Hd].
      rewrite Hi, Hd, log_and_sleep_unfold.
      replace (retry_timeout self <? 0) with false
        by (symmetry; apply Z.ltb_ge; assumption).
      replace (Z.of_nat (S n) - 1) with (Z.of_nat n) by lia.
      rewrite last_cons. apply Hrun. lia.
Qed.

(** C3. The retry bound.  On a ledger whose [login] RPC always fails with a
    recognized transient signature, an instance with a positive [max_retries]
    and a valid (non-negative) [retry_timeout] makes exactly [max_retries]
    attempts when [notarize] is called: the events added are [max_retries]
    blocks, each one failed [login] call followed by the retry log line and a
    sleep of [retry_timeout] seconds; then the call raises the failure of the
    last attempt.  It does so with any fuel of at least [max_retries]. *)
Theorem notarize_exhausts_max_retries (self : ImmudbWrapper)
  (key value : pyval) (s : state W) :
  login_always_transient ledger ->
  0 < max_retries self ->
  0 <= retry_timeout self ->
  exists (failures : list exn) (s' : state W),
    Z.of_nat (List.length failures) = max_retries self
    /\ Forall (fun e => transient e = true) failures
    /\ trace s' = (trace s ++ flat_map (retry_block self "notarize")
                                       failures)%list
    /\ count_events is_login_call (flat_map (retry_block self "notarize") failures)
       = List.length failures
    /\ forall fuel, (List.length failures <= fuel)%nat ->
         notarize lib ledger fuel self key value s
         = Some (Raise (List.last failures BareException), s').
Proof.
  intros Hdown Hmr Htimeout.
  destruct (retry_loop_all_transient (Notarize key value) self Hdown Htimeout
              (Z.to_nat (max_retries self)) BareException s)
    as (failures & s' & Hlen & Hall & Htrace & Hrun).
  exists failures, s'. repeat split; auto.
  - rewrite Hlen. lia.
  - clear. induction failures as [|e l IH]; [reflexivity|].
    cbn in *. unfold count_events in IH. now rewrite IH.
  - intros fuel Hfuel. rewrite Hlen in Hfuel.
    specialize (Hrun fuel Hfuel).
    rewrite Z2Nat.id in Hrun by lia. exact Hrun.
Qed.

(** C10, as amended.  On an instance whose [max_retries] is 0, every call of
    [notarize] or [authenticate] raises the bare [Exception()] and leaves the
    state as it was: the loop body is not entered, nothing is sent to the
    ledger and nothing is logged, whatever the fuel. *)
Theorem zero_max_retries_raises_bare_exception (ep : entry_point)
  (fuel : nat) (self : ImmudbWrapper) (s : state W) :
  max_retries self = 0 ->
  entry_call lib ledger fuel self ep s = Some (Raise BareException, s).
Proof.
  intros Hmr. rewrite entry_call_retry, Hmr.
  destruct fuel; reflexivity.
Qed.

End WrapperProperties.

(** ** [get_size_format] *)

(** *** Rounding never yields NaN *)

Section RoundingNotNan.

Variables prec emax : Z.

Lemma shr_1_nonneg (mrs : shr_record) :
  0 <= shr_m mrs -> 0 <= shr_m (shr_1 mrs).
Proof.
  destruct mrs as [m r st]. cbn.
  destruct m as [|p|p]; try destruct p; cbn; lia.
Qed.

Lemma iter_pos_shr_1_nonneg (p : positive) (mrs : shr_record) :
  0 <= shr_m mrs -> 0 <= shr_m (iter_pos shr_1 p mrs).
Proof.
  revert mrs. induction p as [p IH|p IH|]; intros mrs H; cbn.
  - apply IH, IH. now apply shr_1_nonneg.
  - now apply IH, IH.
  - now apply shr_1_nonneg.
Qed.

Lemma shr_nonneg (mrs : shr_record) (e n : Z) :
  0 <= shr_m mrs -> 0 <= shr_m (fst (shr mrs e n)).
Proof.
  intros H. destruct n; cbn; auto. now apply iter_pos_shr_1_nonneg.
Qed.

Lemma shr_record_of_loc_m (m : Z) (l : location) :
  shr_m (shr_record_of_loc m l) = m.
Proof. destruct l as [|[]]; reflexivity. Qed.

Lemma round_nearest_even_nonneg (m : Z) (l : location) :
  0 <= m -> 0 <= round_nearest_even m l.
Proof.
  intros H. destruct l as [|[]]; cbn; try lia.
  destruct (Z.even m); lia.
Qed.

Lemma binary_round_aux_not_nan (sx : bool) (mx ex : Z) (lx : location) :
  0 <= mx -> SF_is_nan (binary_round_aux prec emax sx mx ex lx) = false.
Proof.
  intros H. unfold binary_round_aux, shr_fexp.
  destruct (shr (shr_record_of_loc mx lx) ex _) as [mrs' e'] eqn:E1.
  assert (H1 : 0 <= shr_m mrs').
  { change mrs' with (fst (mrs', e')). rewrite <- E1.
    apply shr_nonneg. now rewrite shr_record_of_loc_m. }
  destruct (shr (shr_record_of_loc _ loc_Exact) e' _) as [mrs'' e''] eqn:E2.
  assert (H2 : 0 <= shr_m mrs'').
  { change mrs'' with (fst (mrs'', e'')). rewrite <- E2.
    apply shr_nonneg. cbn. now apply round_nearest_even_nonneg. }
  destruct (shr_m mrs'') as [|m|m]; [reflexivity| |lia].
  destruct (e'' <=? emax - prec); reflexivity.
Qed.

Lemma binary_normalize_not_nan (m e : Z) (szero : bool) :
  SF_is_nan (binary_normalize prec emax m e szero) = false.
Proof.
  destruct m as [|p|p]; cbn; [reflexivity| |];
    unfold binary_round;
    destruct (shl_align _ _ _) as [mz ez];
    apply binary_round_aux_not_nan; lia.
Qed.

Lemma SFdiv_finite_not_nan (x : spec_float) (sy : bool) (my : positive)
  (ey : Z) :
  SF_is_nan x = false ->
  SF_is_nan (SFdiv prec emax x (S754_finite sy my ey)) = false.
Proof.
  destruct x as [sx|sx| |sx mx ex]; cbn [SFdiv]; try reflexivity;
    [discriminate|].
  intros _.
  destruct (SFdiv_core_binary prec emax (Zpos mx) ex (Zpos my) ey)
    as [[mz ez] lz] eqn:E.
  apply binary_round_aux_not_nan.
  unfold SFdiv_core_binary in E.
  set (shift := ex - ey - _) in E.
  set (m' := match shift with Z0 => Zpos mx | Zpos _ => Z.shiftl (Zpos mx) shift
             | Zneg _ => 0 end) in E.
  assert (Hm' : 0 <= m').
  { subst m'. destruct shift; try lia. apply Z.shiftl_nonneg. lia. }
  destruct (Z.div_eucl m' (Zpos my)) as [q r] eqn:Ed.
  injection E as <- _ _.
  assert (Hq : q = m' / Zpos my) by (unfold Z.div; now rewrite Ed).
  rewrite Hq. apply Z.div_pos; lia.
Qed.

End RoundingNotNan.

(** *** The loop and the specification's loop *)

Lemma num_ge_lt (value : pynum) (factor : Z) :
  num_not_nan value = true -> num_ge value factor = negb (num_lt value factor).
Proof.
  destruct value as [z|f].
  - intros _. apply Z.leb_antisym.
  - destruct f as [sg|sg| |sg m e]; cbn [num_not_nan SF_is_nan negb];
      try discriminate; intros _; unfold num_ge, num_lt, SF_compare_Z.
    + destruct (0 ?= factor); reflexivity.
    + destruct sg; reflexivity.
    + destruct (if 0 <=? e then _ else _); reflexivity.
Qed.

Lemma SF_of_Z_nonzero (z : Z) :
  z <> 0 -> exists sg m, SF_of_Z z = S754_finite sg m 0.
Proof. destruct z; [congruence| |]; cbn; eauto. Qed.

Lemma num_truediv_not_nan (value value' : pynum) (factor : Z) :
  num_not_nan value = true ->
  num_truediv value factor = Ok value' ->
  num_not_nan value' = true.
Proof.
  destruct value as [z|f]; cbn [num_truediv num_not_nan].
  - intros _. destruct (factor =? 0) eqn:Ef; [discriminate|].
    apply Z.eqb_neq, SF_of_Z_nonzero in Ef as (sg & m & ->).
    destruct (SF_is_infinity _); [discriminate|].
    intros [= <-]. cbn [num_not_nan].
    rewrite SFdiv_finite_not_nan; [reflexivity|]. now destruct z.
  - intros Hf. unfold float_of_int.
    pose proof (binary_normalize_not_nan prec emax factor 0 false) as Hn.
    destruct (binary_normalize prec emax factor 0 false) as [sg|sg| |sg m e];
      cbn [SF_is_infinity SF_is_zero]; try discriminate.
    intros [= <-]. cbn [num_not_nan].
    rewrite SFdiv_finite_not_nan; [reflexivity|].
    now apply negb_true_iff.
Qed.

(** The [for] loop over the units still to try computes what the indexed
    loop of the specification computes; [passed] are the units passed. *)
Lemma get_size_format_loop_scaleBytes (units passed : list string)
  (value : pynum) (factor : Z) (suffix : string) :
  num_not_nan value = true ->
  get_size_format_loop units value factor suffix =
  match scaleBytes_advance (List.length units) (List.length passed) value
          factor with
  | Raise e => Raise e
  | Ok (index, value') =>
      match format_2f value' with
      | Raise e => Raise e
      | Ok t => Ok (t ++ " " ++ nth index (passed ++ units)%list "Y" ++ suffix)
      end
  end.
Proof.
  revert passed value.
  induction units as [|unit units IH]; intros passed value Hnan;
    cbn [get_size_format_loop scaleBytes_advance List.length].
  - rewrite nth_overflow by (rewrite app_nil_r; lia).
    destruct (format_2f value); reflexivity.
  - rewrite num_ge_lt by assumption.
    destruct (num_lt value factor); cbn [negb].
    + rewrite nth_middle. reflexivity.
    + destruct (num_truediv value factor) as [value'|e] eqn:Ed; [|reflexivity].
      rewrite (IH (passed ++ [unit])%list value')
        by (eapply num_truediv_not_nan; eauto).
      rewrite <- app_assoc, length_app, Nat.add_1_r. reflexivity.
Qed.

(** C9. [get_size_format] (scaleBytes).  For every value, factor and suffix
    the method computes what the specification's loop computes: it goes
    through the prefixes "", K, M, G, T, P, E, Z, divides by the factor while
    the value is at least the factor, formats with two decimal places, and
    uses the Y prefix when the value is still at least the factor after Z.
    The reference outputs hold exactly: 1253656 gives "1.20 MB", 0 gives
    "0.00 B", 1024 gives "1.00 KB". *)
Theorem get_size_format_is_scaleBytes :
  (forall value factor suffix,
     get_size_format value factor suffix = scaleBytes value factor suffix)
  /\ get_size_format 1253656 1024 "B" = Ok "1.20 MB"
  /\ get_size_format 0 1024 "B" = Ok "0.00 B"
  /\ get_size_format 1024 1024 "B" = Ok "1.00 KB".
Proof.
  split; [|repeat split; vm_compute; reflexivity].
  intros value factor suffix. unfold get_size_format, scaleBytes.
  now rewrite (get_size_format_loop_scaleBytes unit_prefixes []).
Qed.

(** ** Hashing *)

(** The chunk loop of [hash_file] ends within one unit of fuel per byte (per
    character on a text stream). *)
Lemma feed_hasher_total {A} (as_bytes : list A -> bytes) (buffered : bool)
  (buff_size : Z) (rest : list A) (h : hasher) (fuel : nat) :
  (List.length rest <= fuel)%nat ->
  exists r, feed_hasher as_bytes fuel buffered buff_size rest h = Some r.
Proof.
  revert rest h. induction fuel as [|fuel IH]; intros rest h Hlen.
  - destruct rest; [|cbn in Hlen; lia].
    cbn [feed_hasher]. unfold fd_read.
    destruct (buff_size <? 0); [destruct (buffered && _); eauto|].
    rewrite firstn_nil. eauto.
  - cbn [feed_hasher]. unfold fd_read.
    destruct (buff_size <? 0).
    + destruct (buffered && _); [eauto|].
      destruct rest as [|b rest]; [eauto|].
      apply IH. cbn. lia.
    + destruct (firstn (Z.to_nat buff_size) rest) as [|b buff] eqn:Eb; [eauto|].
      apply IH. rewrite length_skipn.
      assert (Z.to_nat buff_size <> 0%nat) by (intro E; rewrite E in Eb; discriminate).
      destruct rest; [rewrite firstn_nil in Eb; discriminate|].
      cbn [List.length] in *. lia.
Qed.

Lemma hash_file_total (lib : Libs) (fs : FileSystem) (file_path : file_arg)
  (hash_type : string) (buff_size : Z) (given : option hasher) :
  exists r, hash_file lib fs file_path hash_type buff_size given = Some r.
Proof.
  unfold hash_file.
  destruct (match given with None => _ | Some h => _ end) as [h|e]; [|eauto].
  destruct file_path as [p|buffered b|chars].
  - destruct (fs_read fs p) as [b|]; [|eauto].
    destruct (feed_hasher_total chunk_of_bytes true buff_size b h
                (List.length b) (le_n _)) as ([h'|e] & ->); eauto.
  - destruct (feed_hasher_total chunk_of_bytes buffered buff_size b h
                (List.length b) (le_n _)) as ([h'|e] & ->); eauto.
  - destruct (feed_hasher_total chunk_of_text false buff_size chars h
                (List.length chars) (le_n _)) as ([h'|e] & ->); eauto.
Qed.

(** *** The chunk loop feeds the whole content *)

Lemma firstn_nonempty {A} (k : nat) (a : A) (l : list A) :
  k <> 0%nat -> firstn k (a :: l) <> [].
Proof. destruct k; [congruence|]. cbn. discriminate. Qed.

Section ChunkLoop.

Context {A : Type} (as_bytes : list A -> bytes).
Context (as_bytes_nil : as_bytes [] = []).
Context (as_bytes_app :
  forall a b, as_bytes (a ++ b)%list = (as_bytes a ++ as_bytes b)%list).

(** Reading by chunks of a positive size feeds the whole content. *)
Lemma feed_hasher_whole_positive (buffered : bool) (buff_size : Z)
  (fuel : nat) (rest : list A) (h : hasher) :
  0 < buff_size ->
  (List.length rest <= fuel)%nat ->
  exists h',
    feed_hasher as_bytes fuel buffered buff_size rest h = Some (Ok h')
    /\ h' = hasher_update h (as_bytes rest).
Proof.
  intros Hpos. revert rest h.
  assert (Hk : Z.to_nat buff_size <> 0%nat) by lia.
  assert (Hlt : (buff_size <? 0) = false) by (apply Z.ltb_ge; lia).
  assert (Hid : forall h, h = hasher_update h (as_bytes [])).
  { intros [t fed]. unfold hasher_update. cbn.
    now rewrite as_bytes_nil, app_nil_r. }
  induction fuel as [|fuel IH]; intros rest h Hlen.
  - destruct rest; [|cbn in Hlen; lia].
    cbn [feed_hasher]. unfold fd_read. rewrite Hlt, firstn_nil.
    exists h. split; [reflexivity | apply Hid].
  - cbn [feed_hasher]. unfold fd_read. rewrite Hlt.
    destruct rest as [|b rest].
    + rewrite firstn_nil. exists h. split; [reflexivity | apply Hid].
    + destruct (firstn (Z.to_nat buff_size) (b :: rest)) as [|c buff] eqn:Eb.
      { exfalso. now apply (firstn_nonempty (Z.to_nat buff_size) b rest). }
      destruct (IH (skipn (Z.to_nat buff_size) (b :: rest))
                  (hasher_update h (as_bytes (c :: buff)))) as (h' & Hrun & Hh).
      { rewrite length_skipn. cbn [List.length] in *. lia. }
      exists h'. split; [exact Hrun|].
      rewrite Hh. unfold hasher_update. cbn [hasher_type hasher_fed].
      now rewrite <- app_assoc, <- as_bytes_app, <- Eb, firstn_skipn.
Qed.

(** Reading with the size [-1] feeds the whole content in one chunk. *)
Lemma feed_hasher_whole_all (buffered : bool) (rest : list A) (h : hasher) :
  exists h',
    feed_hasher as_bytes (List.length rest) buffered (-1) rest h = Some (Ok h')
    /\ h' = hasher_update h (as_bytes rest).
Proof.
  assert (Hread : forall l : list A, fd_read buffered (-1) l = Ok (l, [])).
  { intros l. unfold fd_read.
    replace (-1 <? 0) with true by reflexivity.
    replace (-1 <? -1) with false by reflexivity.
    now rewrite andb_false_r. }
  destruct rest as [|b rest].
  - cbn [feed_hasher List.length]. rewrite Hread. exists h.
    split; [reflexivity|]. destruct h as [t fed]. unfold hasher_update. cbn.
    now rewrite as_bytes_nil, app_nil_r.
  - cbn [feed_hasher List.length]. rewrite Hread.
    destruct (List.length rest); cbn [feed_hasher]; rewrite Hread;
      eexists; split; reflexivity.
Qed.

Lemma feed_hasher_whole (buffered : bool) (buff_size : Z) (rest : list A)
  (h : hasher) :
  0 < buff_size \/ buff_size = -1 ->
  exists h',
    feed_hasher as_bytes (List.length rest) buffered buff_size rest h
    = Some (Ok h')
    /\ h' = hasher_update h (as_bytes rest).
Proof.
  intros [Hpos | ->].
  - now apply feed_hasher_whole_positive.
  - apply feed_hasher_whole_all.
Qed.

End ChunkLoop.

(** [hashlib.new('sha256')] succeeds and its [hexdigest()] needs no length. *)
Lemma get_hasher_sha256 (lib : Libs) :
  get_hasher lib "sha256" = Ok {| hasher_type := "sha256"; hasher_fed := [] |}.
Proof.
  unfold get_hasher. destruct (hashlib_sha256 lib) as [-> _]. reflexivity.
Qed.

Lemma hexdigest_sha256 (lib : Libs) (fed : bytes) :
  hexdigest lib {| hasher_type := "sha256"; hasher_fed := fed |}
  = Ok (hashlib_hexdigest lib "sha256" fed).
Proof.
  unfold hexdigest. cbn [hasher_type hasher_fed].
  destruct (hashlib_sha256 lib) as [_ ->]. reflexivity.
Qed.

Lemma hash_content_bytes (lib : Libs) (content : bytes) :
  hash_content lib (PBytes content)
  = Ok (hashlib_hexdigest lib "sha256" content).
Proof.
  unfold hash_content. rewrite get_hasher_sha256.
  apply hexdigest_sha256.
Qed.

Lemma hash_content_str (lib : Libs) (text : string) :
  hash_content lib (PStr text)
  = Ok (hashlib_hexdigest lib "sha256" (str_encode text)).
Proof.
  unfold hash_content. rewrite get_hasher_sha256.
  apply hexdigest_sha256.
Qed.

Lemma hash_file_default_digest (lib : Libs) (fs : FileSystem)
  (file : string) (content : bytes) :
  fs_read fs file = Some content ->
  hash_file_default lib fs file
  = Some (Ok (hashlib_hexdigest lib "sha256" content)).
Proof.
  intros Hread. unfold hash_file_default, hash_file.
  rewrite get_hasher_sha256, Hread.
  destruct (feed_hasher_whole chunk_of_bytes eq_refl (fun a b => eq_refl)
              true 1048576 content
              {| hasher_type := "sha256"; hasher_fed := [] |})
    as (h' & -> & ->); [left; lia|].
  f_equal. apply hexdigest_sha256.
Qed.

(** ** Git metadata *)

Lemma sha_mem_false_2 (h a b : string) :
  h <> a -> h <> b -> sha_mem h [a; b] = false.
Proof.
  intros Ha Hb. unfold sha_mem. cbn.
  destruct (String.eqb_spec h a); [contradiction|].
  destruct (String.eqb_spec h b); [contradiction|]. reflexivity.
Qed.

Lemma insert_by_date_not_nil (c : Commit) (pending : list Commit) :
  insert_by_date c pending <> [].
Proof.
  destruct pending as [|x pending]; cbn; [discriminate|].
  destruct (committed_date x <? committed_date c); discriminate.
Qed.

Lemma add_parents_not_nil (ps pending : list Commit) (seen : list string) :
  pending <> [] -> fst (add_parents ps pending seen) <> [].
Proof.
  unfold add_parents. revert pending seen.
  induction ps as [|p ps IH]; intros pending seen H; cbn [fold_left fst snd];
    [assumption|].
  destruct (sha_mem (hexsha p) seen).
  - now apply IH.
  - apply IH, insert_by_date_not_nil.
Qed.

Lemma commit_size_eq (c : Commit) :
  commit_size c = S (list_sum (map commit_size (parents c))).
Proof. destruct c; reflexivity. Qed.

Lemma sha_mem_false_1 (h a : string) : h <> a -> sha_mem h [a] = false.
Proof.
  intros Ha. unfold sha_mem. cbn.
  destruct (String.eqb_spec h a); [contradiction | reflexivity].
Qed.

(** The walk from a commit with one parent starts with that parent. *)
Lemma rev_list_one_parent (shallow : list string) (c p : Commit) :
  sha_mem (hexsha c) shallow = false ->
  parents c = [p] ->
  hexsha p <> hexsha c ->
  rev_list shallow c
  = c :: rev_list_walk shallow (commit_size p) [p] [hexsha p; hexsha c].
Proof.
  intros Hsc Hc Hpc. unfold rev_list.
  rewrite (commit_size_eq c), Hc. cbn [map list_sum fold_right].
  rewrite Nat.add_0_r.
  cbn [rev_list_walk]. unfold walk_parents at 1. rewrite Hsc, Hc.
  unfold add_parents. cbn [fold_left fst snd].
  rewrite (sha_mem_false_1 _ _ Hpc). reflexivity.
Qed.

(** At the shallow boundary the walk yields the commit alone. *)
Lemma rev_list_at_boundary (shallow : list string) (c : Commit) :
  sha_mem (hexsha c) shallow = true -> rev_list shallow c = [c].
Proof.
  intros Hsc. unfold rev_list. rewrite (commit_size_eq c).
  cbn [rev_list_walk]. unfold walk_parents. rewrite Hsc.
  unfold add_parents. cbn [fold_left].
  destruct (list_sum (map commit_size (parents c))); reflexivity.
Qed.

(** Whenever HEAD has one parent and that parent has a parent of its own,
    none of the two at the shallow boundary, [iter_parents] yields more than
    the direct parents of HEAD. *)
Lemma iter_parents_goes_past_the_parents (shallow : list string)
  (c p g : Commit) (gs : list Commit) :
  sha_mem (hexsha c) shallow = false ->
  sha_mem (hexsha p) shallow = false ->
  parents c = [p] ->
  parents p = g :: gs ->
  hexsha p <> hexsha c ->
  hexsha g <> hexsha p ->
  hexsha g <> hexsha c ->
  exists x rest, iter_parents shallow c = p :: x :: rest.
Proof.
  intros Hsc Hsp Hc Hp Hpc Hgp Hgc.
  unfold iter_parents. rewrite (rev_list_one_parent shallow c p Hsc Hc Hpc).
  cbn [skipn].
  rewrite (commit_size_eq p), Hp. cbn [map list_sum fold_right].
  rewrite (commit_size_eq g). cbn [Nat.add].
  cbn [rev_list_walk]. unfold walk_parents at 1. rewrite Hsp, Hp.
  destruct (add_parents (g :: gs) [] [hexsha p; hexsha c])
    as [pending seen] eqn:Ea.
  assert (Hne : pending <> []).
  { change pending with (fst (pending, seen)). rewrite <- Ea.
    unfold add_parents. cbn [fold_left fst snd].
    replace (sha_mem (hexsha g) [hexsha p; hexsha c]) with false
      by (symmetry; now apply sha_mem_false_2).
    apply (add_parents_not_nil gs). apply insert_by_date_not_nil. }
  destruct pending as [|x pending]; [contradiction|].
  cbn [rev_list_walk].
  destruct (add_parents (walk_parents shallow x) pending seen)
    as [pending' seen'].
  eauto.
Qed.

(** When the walk does not go past the single parent of HEAD (a root commit,
    or the shallow boundary), [iter_parents] yields that parent alone; when
    HEAD itself is the shallow boundary, it yields nothing. *)
Lemma iter_parents_up_to_the_boundary (shallow : list string) (c p : Commit) :
  parents c = [p] ->
  hexsha p <> hexsha c ->
  walk_parents shallow p = [] ->
  iter_parents shallow c = walk_parents shallow c.
Proof.
  intros Hc Hpc Hp. unfold iter_parents.
  destruct (sha_mem (hexsha c) shallow) eqn:Hsc.
  - rewrite (rev_list_at_boundary shallow c Hsc).
    unfold walk_parents. now rewrite Hsc.
  - rewrite (rev_list_one_parent shallow c p Hsc Hc Hpc). cbn [skipn].
    rewrite (commit_size_eq p). cbn [rev_list_walk]. rewrite Hp.
    unfold add_parents. cbn [fold_left].
    unfold walk_parents. rewrite Hsc, Hc.
    destruct (list_sum (map commit_size (parents p))); reflexivity.
Qed.

(** C7. The ['Parents'] item of the extracted git metadata, run on a clone
    whose history is linear: HEAD is [head], whose only parent is [middle],
    whose only parent is [root].  [extract_git_metadata] returns a git block
    whose ['Parents'] item lists the shas of [middle] and of [root], that is,
    every commit that [iter_parents] yields, while the direct parents of HEAD
    are [middle] alone. *)
Theorem extract_git_metadata_parents_on_linear_history :
  Demo.git_open "clone_a" = Some Demo.clone
  /\ repo_commit Demo.clone = Some Demo.head
  /\ map hexsha (parents Demo.head) = ["2222222bbbb"]
  /\ exists git_metadata git,
       extract_git_metadata Demo.lib Demo.fs Demo.git_open "clone_a"
       = Ok git_metadata
       /\ dict_get git_metadata "git" = Some (PDict git)
       /\ dict_get git "Parents"
          = Some (PList [PStr "2222222bbbb"; PStr "1111111aaaa"]).
Proof.
  repeat split.
  eexists _, _. split; [vm_compute; reflexivity|].
  split; reflexivity.
Qed.

(** ** The notarization verbs *)

Section ProtocolProperties.

Context (lib : Libs) (fs : FileSystem) (git_open : string -> option Repo).
Context {W : Type} (ledger : Ledger W).

Lemma extract_git_metadata_ok (path url : string) (repo : Repo) (c : Commit) :
  git_open path = Some repo ->
  repo_remote_url repo = Some url ->
  repo_commit repo = Some c ->
  extract_git_metadata lib fs git_open path
  = Ok [("Name", PStr (git_identity lib url c));
        ("git", PDict (git_block lib (repo_shallow repo) c))].
Proof.
  intros Ho Hu Hc. unfold extract_git_metadata. rewrite Ho, Hu, Hc.
  reflexivity.
Qed.

Lemma metadata_hash_of_git_block (name : pyval) (shallow : list string)
  (c : Commit) (key : string) :
  git_artifact_key lib shallow c = Some key ->
  metadata_hash_of lib
    [("Name", name); ("git", PDict (git_block lib shallow c))]
  = Ok key.
Proof.
  unfold git_artifact_key, metadata_hash_of. intros Hk.
  change (dict_item
            [("Name", name); ("git", PDict (git_block lib shallow c))] "git")
    with (Ok (PDict (git_block lib shallow c))).
  cbv iota beta.
  destruct (json_dumps lib (PDict (git_block lib shallow c))); [|discriminate].
  injection Hk as <-. apply hash_content_str.
Qed.

(** What the two git verbs do with a repository whose HEAD is [c]. *)
Lemma git_repo_verbs (path url : string) (repo : Repo) (c : Commit)
  (key : string) (fuel : nat) (self : ImmudbWrapper)
  (user_metadata : option pydict) (s : state W) :
  git_open path = Some repo ->
  repo_remote_url repo = Some url ->
  repo_commit repo = Some c ->
  git_artifact_key lib (repo_shallow repo) c = Some key ->
  authenticate_git_repo lib fs git_open ledger fuel self path s
  = authenticate lib ledger fuel self (PStr key) s
  /\ exists git_metadata,
       extract_git_metadata lib fs git_open path = Ok git_metadata
       /\ notarize_git_repo lib fs git_open ledger fuel self path user_metadata s
          = lift_opt
              (Some (notarize_git_repo_payload fs self path git_metadata key
                       (or_empty user_metadata)))
              (fun payload =>
                 notarize lib ledger fuel self (PStr key) (PDict payload) s) s.
Proof.
  intros Ho Hu Hc Hk.
  pose proof (extract_git_metadata_ok path url repo c Ho Hu Hc) as He.
  pose proof (metadata_hash_of_git_block (PStr (git_identity lib url c))
                (repo_shallow repo) c key Hk) as Hh.
  split.
  - unfold authenticate_git_repo. rewrite He. cbn [lift_opt].
    rewrite Hh. reflexivity.
  - eexists. split; [exact He|].
    unfold notarize_git_repo. rewrite He. cbn [lift_opt].
    rewrite Hh. reflexivity.
Qed.


(** *** The payloads *)

(** The git block and the defaults do not collide: the order in which the
    two are stored does not change any lookup. *)
Lemma git_then_defaults_lookup (git : pyval) (k : string) :
  dict_get (dict_update (dict_update [] [("git", git)]) default_metadata) k
  = dict_get (dict_update (dict_update [] default_metadata) [("git", git)]) k.
Proof.
  change (dict_get [("git", git); ("sbom_api_ver", PStr "0.2")] k
          = dict_get [("sbom_api_ver", PStr "0.2"); ("git", git)] k).
  cbn [dict_get].
  destruct (String.eqb_spec "git" k) as [<-|]; [reflexivity|].
  destruct (String.eqb "sbom_api_ver" k); reflexivity.
Qed.

Lemma git_then_defaults_get (git : pyval) (k : string) :
  dict_get (dict_update (dict_update [] [("git", git)]) default_metadata) k
  = match dict_get [("git", git)] k with
    | Some g => Some g
    | None => dict_get default_metadata k
    end.
Proof.
  change (dict_get [("git", git); ("sbom_api_ver", PStr "0.2")] k
          = match dict_get [("git", git)] k with
            | Some g => Some g
            | None => dict_get [("sbom_api_ver", PStr "0.2")] k
            end).
  cbn [dict_get]. destruct (String.eqb "git" k); reflexivity.
Qed.

Lemma or_empty_caller_items (user_metadata : option pydict) :
  or_empty user_metadata = caller_items user_metadata.
Proof. destruct user_metadata as [[|item d]|]; reflexivity. Qed.

(** C6. Metadata merge.  Let [notarize_file] or [notarize_git_repo] be
    called on an artifact whose protocol-computed fields (name, kind, scaled
    size, hash, and for a repository the git block) can be computed, with
    the caller's optional [user_metadata], a dict when given.  Then the verb
    is [notarize] under the computed hash of a record [payload] such that:
    the ['Metadata'] mapping has, under every key, the value that the merge
    "schema defaults, then git block, then caller's metadata, later wins"
    has there, that is the caller's value if the caller gave the key, else
    the git block under ['git'] (repository only), else the schema default;
    the record has the six top-level keys and no other; and ['Name'],
    ['Kind'], ['Size'], ['Hash'] and ['Signer'] are the computed values and
    the user name, whatever the caller's metadata holds. *)
Theorem metadata_merge_precedence (a : artifact)
  (user_metadata : option pydict) (name kind size hash : string)
  (git_part : pydict) (fuel : nat) (self : ImmudbWrapper) (s : state W) :
  dict_wf (caller_items user_metadata) ->
  protocol_fields lib fs git_open a = Some (name, kind, size, hash, git_part) ->
  exists payload md,
    notarize_artifact lib fs git_open ledger fuel self a user_metadata s
    = notarize lib ledger fuel self (PStr hash) (PDict payload) s
    /\ dict_get payload "Metadata" = Some (PDict md)
    /\ (forall k,
          dict_get md k
          = dict_get (merge_by_precedence default_metadata git_part
                        (caller_items user_metadata)) k)
    /\ (forall k,
          dict_get md k
          = match dict_get (caller_items user_metadata) k with
            | Some v => Some v
            | None =>
                match dict_get git_part k with
                | Some g => Some g
                | None => dict_get default_metadata k
                end
            end)
    /\ map fst payload = ["Name"; "Kind"; "Size"; "Hash"; "Signer"; "Metadata"]
    /\ dict_get payload "Name" = Some (PStr name)
    /\ dict_get payload "Kind" = Some (PStr kind)
    /\ dict_get payload "Size" = Some (PStr size)
    /\ dict_get payload "Hash" = Some (PStr hash)
    /\ dict_get payload "Signer" = Some (PStr (username self)).
Proof.
  intros Hwf Hfields. destruct a as [file|repo_path].
  - cbn [protocol_fields] in Hfields.
    destruct (fs_read fs file) as [content|] eqn:Hread; [|discriminate].
    destruct (get_file_size fs file) as [n|e] eqn:Hsize; [|discriminate].
    destruct (get_size_format_default n) as [text|e] eqn:Htext; [|discriminate].
    injection Hfields as <- <- <- <- <-.
    eexists _, _. split.
    { cbn [notarize_artifact]. unfold notarize_file.
      rewrite (hash_file_default_digest lib fs file content Hread).
      cbn [lift_opt]. unfold notarize_file_payload. rewrite Hsize, Htext.
      cbn [lift_opt]. reflexivity. }
    split; [reflexivity|]. rewrite or_empty_caller_items.
    split; [intros k; reflexivity|].
    split; [|repeat split; reflexivity].
    intros k. rewrite dict_get_update by assumption.
    destruct (dict_get (caller_items user_metadata) k); reflexivity.
  - cbn [protocol_fields] in Hfields.
    destruct (git_open repo_path) as [repo|] eqn:Hopen; [|discriminate].
    destruct (repo_remote_url repo) as [url|] eqn:Hurl; [|discriminate].
    destruct (repo_commit repo) as [c|] eqn:Hcommit; [|discriminate].
    destruct (git_artifact_key lib (repo_shallow repo) c) as [key|] eqn:Hkey;
      [|discriminate].
    destruct (get_directory_size fs repo_path) as [n|e] eqn:Hsize;
      [|discriminate].
    destruct (get_size_format_default n) as [text|e] eqn:Htext; [|discriminate].
    injection Hfields as <- <- <- <- <-.
    destruct (git_repo_verbs repo_path url repo c key fuel self user_metadata s
                Hopen Hurl Hcommit Hkey) as (_ & gm & Hgm & Hverb).
    rewrite (extract_git_metadata_ok repo_path url repo c Hopen Hurl Hcommit)
      in Hgm.
    injection Hgm as <-.
    eexists _, _. split.
    { cbn [notarize_artifact]. rewrite Hverb.
      unfold notarize_git_repo_payload.
      change (dict_item
                [("Name", PStr (git_identity lib url c));
                 ("git", PDict (git_block lib (repo_shallow repo) c))] "Name")
        with (Ok (PStr (git_identity lib url c))).
      change (dict_item
                [("Name", PStr (git_identity lib url c));
                 ("git", PDict (git_block lib (repo_shallow repo) c))] "git")
        with (Ok (PDict (git_block lib (repo_shallow repo) c))).
      cbv iota beta. rewrite Hsize, Htext. cbn [lift_opt]. reflexivity. }
    split; [reflexivity|]. rewrite or_empty_caller_items.
    split; [|split; [|repeat split; reflexivity]].
    + intros k. unfold merge_by_precedence.
      apply dict_get_update_congr, git_then_defaults_lookup.
    + intros k. rewrite dict_get_update by assumption.
      now rewrite git_then_defaults_get.
Qed.

End ProtocolProperties.

(** ** The statements on the simulated environments *)

Lemma notarize_writes_then_reads_back_witness :
  max_retries (Demo.instance 5) <> 0
  /\ login Demo.lib (Demo.ledger Demo.Up) (Demo.instance 5) Demo.start
     = (Ok tt,
        snd (login Demo.lib (Demo.ledger Demo.Up) (Demo.instance 5) Demo.start))
  /\ notarize Demo.lib (Demo.ledger Demo.Up) 1 (Demo.instance 5)
       (PStr "k") (PStr "v") Demo.start
     = Some match verified_set Demo.lib (Demo.ledger Demo.Up) (Demo.instance 5)
                    (PStr "k") (PStr "v")
                    (snd (login Demo.lib (Demo.ledger Demo.Up)
                            (Demo.instance 5) Demo.start)) with
            | (Ok result, s2) =>
                if dict_mem "error" result then (Ok result, s2)
                else verified_get Demo.lib (Demo.ledger Demo.Up)
                       (Demo.instance 5) (PStr "k") None s2
            | (Raise e, s2) => (Raise e, s2)
            end.
Proof.
  assert (H1 : max_retries (Demo.instance 5) <> 0) by (simpl; lia).
  assert (H2 : login Demo.lib (Demo.ledger Demo.Up) (Demo.instance 5) Demo.start
               = (Ok tt,
                  snd (login Demo.lib (Demo.ledger Demo.Up) (Demo.instance 5)
                         Demo.start))) by reflexivity.
  split; [exact H1|]. split; [exact H2|].
  exact (proj1 (notarize_writes_then_reads_back Demo.lib (Demo.ledger Demo.Up)
                  (Demo.instance 5) (PStr "k") (PStr "v") Demo.start _ 0%nat
                  H1 H2)).
Defined.

Lemma notarize_exhausts_max_retries_witness :
  login_always_transient (Demo.ledger Demo.TimedOut)
  /\ 0 < max_retries (Demo.instance 3)
  /\ 0 <= retry_timeout (Demo.instance 3)
  /\ exists (failures : list exn) (s' : state Demo.service),
       Z.of_nat (List.length failures) = max_retries (Demo.instance 3)
       /\ Forall (fun e => transient e = true) failures
       /\ trace s' = (trace Demo.start
                      ++ flat_map (retry_block (Demo.instance 3) "notarize")
                           failures)%list
       /\ count_events is_login_call
            (flat_map (retry_block (Demo.instance 3) "notarize") failures)
          = List.length failures
       /\ forall fuel, (List.length failures <= fuel)%nat ->
            notarize Demo.lib (Demo.ledger Demo.TimedOut) fuel (Demo.instance 3)
              (PStr "k") (PStr "v") Demo.start
            = Some (Raise (List.last failures BareException), s').
Proof.
  assert (H1 : login_always_transient (Demo.ledger Demo.TimedOut)).
  { intros u p db w. exists Demo.timeout_failure, w. split; reflexivity. }
  assert (H2 : 0 < max_retries (Demo.instance 3)) by (simpl; lia).
  assert (H3 : 0 <= retry_timeout (Demo.instance 3)) by (simpl; lia).
  split; [exact H1|]. split; [exact H2|]. split; [exact H3|].
  exact (notarize_exhausts_max_retries Demo.lib (Demo.ledger Demo.TimedOut)
           (Demo.instance 3) (PStr "k") (PStr "v") Demo.start H1 H2 H3).
Defined.

Lemma unrecognized_failure_is_not_retried_witness :
  max_retries (Demo.instance 5) <> 0
  /\ is_RpcError Demo.denied_failure = true
  /\ transient Demo.denied_failure = false
  /\ entry_call Demo.lib (Demo.ledger Demo.Denied) 1 (Demo.instance 5)
       (Authenticate (PStr "k")) Demo.start
     = Some (Raise Demo.denied_failure,
             snd (entry_func Demo.lib (Demo.ledger Demo.Denied)
                    (Authenticate (PStr "k")) (Demo.instance 5) Demo.start)).
Proof.
  assert (H1 : max_retries (Demo.instance 5) <> 0) by (simpl; lia).
  assert (H2 : entry_func Demo.lib (Demo.ledger Demo.Denied)
                 (Authenticate (PStr "k")) (Demo.instance 5) Demo.start
               = (Raise Demo.denied_failure,
                  snd (entry_func Demo.lib (Demo.ledger Demo.Denied)
                         (Authenticate (PStr "k")) (Demo.instance 5)
                         Demo.start))) by reflexivity.
  assert (H3 : is_RpcError Demo.denied_failure = true) by reflexivity.
  assert (H4 : transient Demo.denied_failure = false) by reflexivity.
  split; [exact H1|]. split; [exact H3|]. split; [exact H4|].
  exact (proj1 (unrecognized_failure_is_not_retried Demo.lib
                  (Demo.ledger Demo.Denied) (Authenticate (PStr "k"))
                  (Demo.instance 5) Demo.start _ Demo.denied_failure 0%nat
                  H1 H2 H3 H4)).
Defined.

Lemma metadata_merge_precedence_witness :
  dict_wf (caller_items (Some Demo.caller_metadata))
  /\ protocol_fields Demo.lib Demo.fs Demo.git_open (GitRepoArtifact "clone_b")
     = Some ("git@git.almalinux.org:rpms/bash.git@3333333", "git", "1.20 MB",
             "sha256:297", [("git", PDict (git_block Demo.lib [] Demo.head))])
  /\ exists payload md,
       notarize_git_repo Demo.lib Demo.fs Demo.git_open (Demo.ledger Demo.Up) 1
         (Demo.instance 5) "clone_b" (Some Demo.caller_metadata) Demo.start
       = notarize Demo.lib (Demo.ledger Demo.Up) 1 (Demo.instance 5)
           (PStr "sha256:297") (PDict payload) Demo.start
       /\ dict_get payload "Metadata" = Some (PDict md)
       /\ dict_get md "sbom_api_ver" = Some (PStr "9.9")
       /\ dict_get md "git" = Some (PStr "mine")
       /\ dict_get md "team" = Some (PStr "core")
       /\ dict_get payload "Name"
          = Some (PStr "git@git.almalinux.org:rpms/bash.git@3333333")
       /\ dict_get payload "Hash" = Some (PStr "sha256:297")
       /\ exists file_payload file_md,
            notarize_file Demo.lib Demo.fs (Demo.ledger Demo.Up) 1
              (Demo.instance 5) "bash.spec" None Demo.start
            = notarize Demo.lib (Demo.ledger Demo.Up) 1 (Demo.instance 5)
                (PStr "sha256:10") (PDict file_payload) Demo.start
            /\ dict_get file_payload "Metadata" = Some (PDict file_md)
            /\ dict_get file_md "sbom_api_ver" = Some (PStr "0.2")
            /\ dict_get file_md "git" = None.
Proof.
  assert (H1 : dict_wf (caller_items (Some Demo.caller_metadata))).
  { unfold dict_wf. simpl.
    repeat (constructor; [simpl; intuition discriminate|]). constructor. }
  assert (H2 : protocol_fields Demo.lib Demo.fs Demo.git_open
                 (GitRepoArtifact "clone_b")
               = Some ("git@git.almalinux.org:rpms/bash.git@3333333", "git",
                       "1.20 MB", "sha256:297",
                       [("git", PDict (git_block Demo.lib [] Demo.head))]))
    by (vm_compute; reflexivity).
  split; [exact H1|]. split; [exact H2|].
  destruct (metadata_merge_precedence Demo.lib Demo.fs Demo.git_open
              (Demo.ledger Demo.Up) (GitRepoArtifact "clone_b")
              (Some Demo.caller_metadata) _ _ _ _ _ 1%nat (Demo.instance 5)
              Demo.start H1 H2)
    as (payload & md & Hverb & Hmd & _ & Hget & _ & Hname & _ & _ & Hhash & _).
  exists payload, md.
  split; [exact Hverb|]. split; [exact Hmd|].
  split; [exact (Hget "sbom_api_ver")|].
  split; [exact (Hget "git")|].
  split; [exact (Hget "team")|].
  split; [exact Hname|]. split; [exact Hhash|].
  assert (H3 : dict_wf (caller_items None)) by constructor.
  assert (H4 : protocol_fields Demo.lib Demo.fs Demo.git_open
                 (FileArtifact "bash.spec")
               = Some ("bash.spec", "file", "1.20 MB", "sha256:10", []))
    by (vm_compute; reflexivity).
  destruct (metadata_merge_precedence Demo.lib Demo.fs Demo.git_open
              (Demo.ledger Demo.Up) (FileArtifact "bash.spec") None _ _ _ _ _
              1%nat (Demo.instance 5) Demo.start H3 H4)
    as (file_payload & file_md & Hfverb & Hfmd & _ & Hfget & _).
  exists file_payload, file_md.
  split; [exact Hfverb|]. split; [exact Hfmd|].
  split; [exact (Hfget "sbom_api_ver") | exact (Hfget "git")].
Defined.

(** C8. The key on two clones of the same commit.  Two paths hold clones of
    the same remote whose HEAD is the same commit [head]; the first is a full
    clone, the second was made with [--depth 1].  For any instance and
    state, the two verbs use on the first clone the key hashed from a git
    block whose ['Parents'] item lists the two ancestors of HEAD, and on the
    second clone another key, hashed from a git block whose ['Parents'] item
    is empty.  The two git blocks agree under every key but ['Parents'], and
    the direct parents of HEAD are the same commit in both. *)
Theorem git_repo_key_differs_on_a_shallow_clone :
  (Demo.git_open "clone_a" = Some Demo.clone
   /\ Demo.git_open "clone_shallow" = Some Demo.shallow_clone
   /\ repo_commit Demo.clone = Some Demo.head
   /\ repo_commit Demo.shallow_clone = Some Demo.head
   /\ repo_remote_url Demo.clone = repo_remote_url Demo.shallow_clone)
  /\ (forall (fuel : nat) (self : ImmudbWrapper) (s : state Demo.service),
        authenticate_git_repo Demo.lib Demo.fs Demo.git_open
          (Demo.ledger Demo.Up) fuel self "clone_a" s
        = authenticate Demo.lib (Demo.ledger Demo.Up) fuel self
            (PStr "sha256:297") s
        /\ authenticate_git_repo Demo.lib Demo.fs Demo.git_open
             (Demo.ledger Demo.Up) fuel self "clone_shallow" s
           = authenticate Demo.lib (Demo.ledger Demo.Up) fuel self
               (PStr "sha256:269") s)
  /\ (forall (fuel : nat) (self : ImmudbWrapper)
        (user_metadata : option pydict) (s : state Demo.service),
        exists payload_a payload_shallow,
          notarize_git_repo Demo.lib Demo.fs Demo.git_open
            (Demo.ledger Demo.Up) fuel self "clone_a" user_metadata s
          = notarize Demo.lib (Demo.ledger Demo.Up) fuel self
              (PStr "sha256:297") (PDict payload_a) s
          /\ notarize_git_repo Demo.lib Demo.fs Demo.git_open
               (Demo.ledger Demo.Up) fuel self "clone_shallow" user_metadata s
             = notarize Demo.lib (Demo.ledger Demo.Up) fuel self
                 (PStr "sha256:269") (PDict payload_shallow) s)
  /\ (dict_get (git_block Demo.lib (repo_shallow Demo.clone) Demo.head)
        "Parents"
      = Some (PList [PStr "2222222bbbb"; PStr "1111111aaaa"])
      /\ dict_get (git_block Demo.lib (repo_shallow Demo.shallow_clone)
                     Demo.head) "Parents"
         = Some (PList [])
      /\ map hexsha (parents Demo.head) = ["2222222bbbb"]
      /\ forall k, k <> "Parents" ->
           dict_get (git_block Demo.lib (repo_shallow Demo.clone) Demo.head) k
           = dict_get (git_block Demo.lib (repo_shallow Demo.shallow_clone)
                         Demo.head) k).
Proof.
  assert (Ha : git_artifact_key Demo.lib (repo_shallow Demo.clone) Demo.head
               = Some "sha256:297") by (vm_compute; reflexivity).
  assert (Hs : git_artifact_key Demo.lib (repo_shallow Demo.shallow_clone)
                 Demo.head
               = Some "sha256:269") by (vm_compute; reflexivity).
  split; [repeat split|]. split; [|split].
  - intros fuel self s. split.
    + exact (proj1 (git_repo_verbs Demo.lib Demo.fs Demo.git_open
                      (Demo.ledger Demo.Up) "clone_a" _ Demo.clone Demo.head
                      "sha256:297" fuel self None s eq_refl eq_refl eq_refl Ha)).
    + exact (proj1 (git_repo_verbs Demo.lib Demo.fs Demo.git_open
                      (Demo.ledger Demo.Up) "clone_shallow" _ Demo.shallow_clone
                      Demo.head "sha256:269" fuel self None s eq_refl eq_refl
                      eq_refl Hs)).
  - intros fuel self user_metadata s.
    destruct (git_repo_verbs Demo.lib Demo.fs Demo.git_open
                (Demo.ledger Demo.Up) "clone_a" _ Demo.clone Demo.head
                "sha256:297" fuel self user_metadata s eq_refl eq_refl eq_refl
                Ha) as (_ & gm1 & Hgm1 & ->).
    destruct (git_repo_verbs Demo.lib Demo.fs Demo.git_open
                (Demo.ledger Demo.Up) "clone_shallow" _ Demo.shallow_clone
                Demo.head "sha256:269" fuel self user_metadata s eq_refl
                eq_refl eq_refl Hs) as (_ & gm2 & Hgm2 & ->).
    vm_compute in Hgm1. injection Hgm1 as <-.
    vm_compute in Hgm2. injection Hgm2 as <-.
    eexists _, _. split; reflexivity.
  - split; [reflexivity|]. split; [reflexivity|]. split; [reflexivity|].
    intros k Hk.
    change (git_block Demo.lib (repo_shallow Demo.clone) Demo.head)
      with [("Author", actor_block Demo.lib (author Demo.head)
                         (authored_datetime Demo.head));
            ("Commit", PStr (hexsha Demo.head));
            ("Committer", actor_block Demo.lib (committer Demo.head)
                            (committed_datetime Demo.head));
            ("Message", PStr (message Demo.head));
            ("PGPSignature", opt_str (gpgsig Demo.head));
            ("Parents", PList [PStr "2222222bbbb"; PStr "1111111aaaa"]);
            ("Tree", PStr (tree_hexsha Demo.head))].
    change (git_block Demo.lib (repo_shallow Demo.shallow_clone) Demo.head)
      with [("Author", actor_block Demo.lib (author Demo.head)
                         (authored_datetime Demo.head));
            ("Commit", PStr (hexsha Demo.head));
            ("Committer", actor_block Demo.lib (committer Demo.head)
                            (committed_datetime Demo.head));
            ("Message", PStr (message Demo.head));
            ("PGPSignature", opt_str (gpgsig Demo.head));
            ("Parents", PList []);
            ("Tree", PStr (tree_hexsha Demo.head))].
    cbn [dict_get].
    destruct (String.eqb_spec "Parents" k) as [E|_]; [now subst k|].
    reflexivity.
Qed.


Lemma zero_max_retries_raises_bare_exception_witness :
  max_retries (Demo.instance 0) = 0
  /\ entry_call Demo.lib (Demo.ledger Demo.Up) 7 (Demo.instance 0)
       (Notarize (PStr "k") (PStr "v")) Demo.start
     = Some (Raise BareException, Demo.start).
Proof.
  assert (H : max_retries (Demo.instance 0) = 0) by reflexivity.
  split; [exact H|].
  exact (zero_max_retries_raises_bare_exception Demo.lib (Demo.ledger Demo.Up)
           (Notarize (PStr "k") (PStr "v")) 7%nat (Demo.instance 0) Demo.start H).
Defined.

(** C10 as first stated fails for a negative [max_retries]: [-1] is not
    positive, yet it is truthy, so the loop body is entered.  On the
    simulated ledger that is up, [notarize] then logs in, writes and reads
    back, and returns the record instead of raising the bare exception. *)
Lemma negative_max_retries_enters_loop :
  max_retries (Demo.instance (-1)) <= 0
  /\ notarize Demo.lib (Demo.ledger Demo.Up) 1 (Demo.instance (-1))
       (PStr "k") (PStr "v") Demo.start
     <> Some (Raise BareException, Demo.start)
  /\ exists d s',
       notarize Demo.lib (Demo.ledger Demo.Up) 1 (Demo.instance (-1))
         (PStr "k") (PStr "v") Demo.start = Some (Ok d, s')
       /\ count_events is_login_call (trace s') = 1%nat
       /\ count_events is_ledger_op (trace s') = 2%nat.
Proof.
  split; [simpl; lia|]. split.
  - intro H. vm_compute in H. discriminate.
  - eexists _, _. split; [vm_compute; reflexivity|].
    split; reflexivity.
Qed.

(** * Further properties *)

(** ** Hashing: the chunk size does not matter, unless it is zero *)

(** X1. [hash_file] does not depend on the chunk size.  For a path, an open
    binary stream and an open text stream alike, with any positive
    [buff_size] (or [-1], "read all"): the call raises what getting the
    hasher raises ([ValueError] for an algorithm that [hashlib] does not
    know, when no hasher is given), else the [OSError] of a path that cannot
    be opened, else it returns [hexdigest()] of the hasher fed with the
    whole content after the bytes it already held (the [TypeError] of a
    digest that needs a length included).  Reading by chunks changes
    nothing, and the loop ends within its fuel. *)
Theorem hash_file_is_digest_of_whole_content (lib : Libs) (fs : FileSystem)
  (file : file_arg) (hash_type : string) (buff_size : Z)
  (given : option hasher) :
  0 < buff_size \/ buff_size = -1 ->
  hash_file lib fs file hash_type buff_size given
  = Some (hash_file_outcome lib fs file hash_type given
            (fun content => content)).
Proof.
  intros Hsize. unfold hash_file, hash_file_outcome, get_hasher.
  destruct given as [h|].
  - destruct file as [path|buffered content|chars]; cbn [content_bytes].
    + destruct (fs_read fs path) as [content|]; [|reflexivity].
      destruct (feed_hasher_whole chunk_of_bytes eq_refl (fun a b => eq_refl)
                  true buff_size content h Hsize) as (h' & -> & ->).
      reflexivity.
    + destruct (feed_hasher_whole chunk_of_bytes eq_refl (fun a b => eq_refl)
                  buffered buff_size content h Hsize) as (h' & -> & ->).
      reflexivity.
    + destruct (feed_hasher_whole chunk_of_text eq_refl (@concat_app _)
                  false buff_size chars h Hsize) as (h' & -> & ->).
      reflexivity.
  - destruct (hashlib_supported lib hash_type); [|reflexivity].
    set (h := {| hasher_type := hash_type; hasher_fed := [] |}).
    destruct file as [path|buffered content|chars]; cbn [content_bytes].
    + destruct (fs_read fs path) as [content|]; [|reflexivity].
      destruct (feed_hasher_whole chunk_of_bytes eq_refl (fun a b => eq_refl)
                  true buff_size content h Hsize) as (h' & -> & ->).
      reflexivity.
    + destruct (feed_hasher_whole chunk_of_bytes eq_refl (fun a b => eq_refl)
                  buffered buff_size content h Hsize) as (h' & -> & ->).
      reflexivity.
    + destruct (feed_hasher_whole chunk_of_text eq_refl (@concat_app _)
                  false buff_size chars h Hsize) as (h' & -> & ->).
      reflexivity.
Qed.

(** X2. A [buff_size] of 0 hashes nothing.  The first read returns nothing,
    so the loop is not entered: once the hasher is there and the file is
    open, the call returns [hexdigest()] of the hasher as it was, whatever
    the file contains. *)
Theorem hash_file_zero_buff_size_ignores_content (lib : Libs)
  (fs : FileSystem) (file : file_arg) (hash_type : string)
  (given : option hasher) :
  hash_file lib fs file hash_type 0 given
  = Some (hash_file_outcome lib fs file hash_type given (fun _ => [])).
Proof.
  unfold hash_file, hash_file_outcome, get_hasher, hexdigest.
  destruct given as [h|]; [|destruct (hashlib_supported lib hash_type)];
    try reflexivity;
    (destruct file as [path|buffered content|chars]; cbn [content_bytes];
     [destruct (fs_read fs path) as [[|b content]|]
     |destruct content
     |destruct chars]);
    cbn [feed_hasher fd_read Z.ltb Z.compare Z.to_nat firstn skipn List.length
         hasher_type hasher_fed];
    rewrite ?app_nil_r; reflexivity.
Qed.

(** X3. [hash_file] and [hash_content] agree.  With its default arguments,
    [hash_file] of a readable path returns what [hash_content] returns for
    the bytes of the file; and [hash_content] of a text is [hash_content] of
    its UTF-8 bytes. *)
Theorem hash_file_agrees_with_hash_content (lib : Libs) (fs : FileSystem)
  (file text : string) (content : bytes) :
  fs_read fs file = Some content ->
  hash_file_default lib fs file = Some (hash_content lib (PBytes content))
  /\ hash_content lib (PStr text) = hash_content lib (PBytes (str_encode text)).
Proof.
  intros Hread. split.
  - now rewrite (hash_file_default_digest lib fs file content Hread),
      hash_content_bytes.
  - now rewrite hash_content_str, hash_content_bytes.
Qed.

(** ** Sizes *)

Lemma get_directory_size_fold (fs : FileSystem) (files : list string)
  (total : Z) :
  fold_left
    (fun (acc : res Z) file =>
       match acc with
       | Raise e => Raise e
       | Ok total =>
           match fs_stat_size fs file with
           | Some n => Ok (total + n)
           | None => Raise (OSError file)
           end
       end)
    files (Ok total)
  = match find (unreadable fs) files with
    | Some file => Raise (OSError file)
    | None => Ok (total + sum_Z (map (size_or_zero fs) files))
    end.
Proof.
  revert total. induction files as [|f files IH]; intros total.
  - cbn. now rewrite Z.add_0_r.
  - cbn [fold_left find map sum_Z fold_right].
    unfold unreadable at 1, size_or_zero at 1.
    destruct (fs_stat_size fs f) as [n|].
    + rewrite IH. destruct (find (unreadable fs) files); [reflexivity|].
      unfold sum_Z. now rewrite Z.add_assoc.
    + clear IH. induction files as [|g files IH]; [reflexivity|].
      exact IH.
Qed.

(** X4. [get_directory_size] is the sum of the sizes of all the entries that
    [rglob('*')] yields; if an entry cannot be read, the call raises the
    [OSError] of the first such entry instead.  An empty directory has
    size 0. *)
Theorem get_directory_size_sums_or_fails_first (fs : FileSystem)
  (path : string) :
  get_directory_size fs path
  = match find (unreadable fs) (fs_rglob fs path) with
    | Some file => Raise (OSError file)
    | None => Ok (sum_Z (map (size_or_zero fs) (fs_rglob fs path)))
    end.
Proof.
  unfold get_directory_size. rewrite get_directory_size_fold.
  destruct (find (unreadable fs) (fs_rglob fs path)); reflexivity.
Qed.

(** ** The file verbs *)

Section FileVerbs.

Context (lib : Libs) (fs : FileSystem) (git_open : string -> option Repo).
Context {W : Type} (ledger : Ledger W).

(** X5. The key of a file artifact is the sha256 digest of the bytes of the
    file.  For a readable file, [authenticate_file] is [authenticate] under
    that digest, and [notarize_file] is [notarize] under that digest of the
    payload built with it (or the failure of building the payload, raised
    before anything is sent). *)
Theorem file_verbs_use_digest_of_content (file : string) (content : bytes)
  (fuel : nat) (self : ImmudbWrapper) (user_metadata : option pydict)
  (s : state W) :
  fs_read fs file = Some content ->
  authenticate_file lib fs ledger fuel self file s
  = authenticate lib ledger fuel self
      (PStr (hashlib_hexdigest lib "sha256" content)) s
  /\ notarize_file lib fs ledger fuel self file user_metadata s
     = lift_opt
         (Some (notarize_file_payload lib fs self file
                  (hashlib_hexdigest lib "sha256" content)
                  (or_empty user_metadata)))
         (fun payload =>
            notarize lib ledger fuel self
              (PStr (hashlib_hexdigest lib "sha256" content))
              (PDict payload) s) s.
Proof.
  intros Hread. unfold authenticate_file, notarize_file.
  rewrite (hash_file_default_digest lib fs file content Hread).
  split; reflexivity.
Qed.

(** X6. Faults of the caller are raised before the ledger is touched.  If
    the file cannot be read, [notarize_file] and [authenticate_file] raise
    its [OSError]; if [git.Repo] cannot open the path, [notarize_git_repo]
    and [authenticate_git_repo] raise its failure, which is
    [InvalidGitRepositoryError] for a path that exists and
    [NoSuchPathError] for one that does not.  In each case the state is left
    as it was (no login, no log line, no sleep), whatever the fuel and the
    retry counter, the zero counter included. *)
Theorem caller_faults_precede_the_ledger (file repo_path : string)
  (fuel : nat) (self : ImmudbWrapper) (user_metadata : option pydict)
  (s : state W) :
  fs_read fs file = None ->
  git_open repo_path = None ->
  notarize_file lib fs ledger fuel self file user_metadata s
  = Some (Raise (OSError file), s)
  /\ authenticate_file lib fs ledger fuel self file s
     = Some (Raise (OSError file), s)
  /\ notarize_git_repo lib fs git_open ledger fuel self repo_path
       user_metadata s
     = Some (Raise (if fs_exists fs repo_path
                    then InvalidGitRepositoryError repo_path
                    else NoSuchPathError repo_path), s)
  /\ authenticate_git_repo lib fs git_open ledger fuel self repo_path s
     = Some (Raise (if fs_exists fs repo_path
                    then InvalidGitRepositoryError repo_path
                    else NoSuchPathError repo_path), s).
Proof.
  intros Hread Hopen.
  unfold notarize_file, authenticate_file, notarize_git_repo,
    authenticate_git_repo, hash_file_default, hash_file, extract_git_metadata.
  rewrite get_hasher_sha256, Hread, Hopen.
  destruct (fs_exists fs repo_path); repeat split.
Qed.

End FileVerbs.

(** ** More on the session operations and the decorator *)

Section MoreWrapperProperties.

Context (lib : Libs) {W : Type} (ledger : Ledger W).

(** [to_dict], field by field. *)
Lemma to_dict_unfold (g : SafeGetResponse) :
  to_dict lib g =
  match bytes_decode lib (get_key g) with
  | None => Raise UnicodeDecodeError
  | Some k =>
      match bytes_decode lib (get_value g) with
      | None => Raise UnicodeDecodeError
      | Some v =>
          match json_loads lib v with
          | None => Raise JSONDecodeError
          | Some j =>
              Ok [("id", PInt (get_id g));
                  ("key", PStr k);
                  ("value", j);
                  ("timestamp", PInt (get_timestamp g));
                  ("verified", PBool (get_verified g));
                  ("refkey", opt_bytes (get_refkey g));
                  ("revision", PInt (get_revision g))]
          end
      end
  end.
Proof.
  unfold to_dict.
  change (dict_get (asdict_SafeGetResponse g) "key")
    with (Some (PBytes (get_key g))).
  cbn [decode_item].
  destruct (bytes_decode lib (get_key g)) as [k|]; [|reflexivity].
  change (dict_get (dict_set (asdict_SafeGetResponse g) "key" (PStr k)) "value")
    with (Some (PBytes (get_value g))).
  cbn [decode_item].
  destruct (bytes_decode lib (get_value g)) as [v|]; [|reflexivity].
  destruct (json_loads lib v); reflexivity.
Qed.

Lemma to_dict_no_error_item (g : SafeGetResponse) (d : pydict) :
  to_dict lib g = Ok d -> dict_mem "error" d = false.
Proof.
  rewrite to_dict_unfold.
  destruct (bytes_decode lib (get_key g)) as [kt|]; [|discriminate].
  destruct (bytes_decode lib (get_value g)) as [vt|]; [|discriminate].
  destruct (json_loads lib vt) as [j|]; [|discriminate].
  intros [= <-]. reflexivity.
Qed.

(** X7. The ['error'] item is an unambiguous marker.  When [verified_get] or
    [verified_set] returns a mapping, the mapping has an ['error'] item
    exactly when the RPC raised an RPC failure: a decoded record and a proof
    mapping never have one at the top level, whatever the stored value
    holds. *)
Theorem error_item_marks_rpc_failure (self : ImmudbWrapper)
  (key value : pyval) (k v : bytes) (revision : option Z)
  (s sg ss : state W) (dg ds : pydict) :
  encode lib key = Ok k ->
  encode lib value = Ok v ->
  verified_get lib ledger self key revision s = (Ok dg, sg) ->
  verified_set lib ledger self key value s = (Ok ds, ss) ->
  dict_mem "error" dg
  = raises_RpcError (fst (rpc_verifiedGet ledger k revision (world s)))
  /\ dict_mem "error" ds
     = raises_RpcError (fst (rpc_verifiedSet ledger k v (world s))).
Proof.
  intros Hk Hv Hget Hset.
  rewrite verified_get_unfold, Hk in Hget.
  rewrite verified_set_unfold, Hk, Hv in Hset.
  split.
  - destruct (rpc_verifiedGet ledger k revision (world s)) as [[g|e] w];
      cbn [fst raises_RpcError] in *.
    + injection Hget as Hd _. now apply (to_dict_no_error_item g).
    + destruct (is_RpcError e); [|discriminate].
      injection Hget as <- _. reflexivity.
  - destruct (rpc_verifiedSet ledger k v (world s)) as [[r|e] w];
      cbn [fst raises_RpcError] in *.
    + injection Hset as <- _. reflexivity.
    + destruct (is_RpcError e); [|discriminate].
      injection Hset as <- _. reflexivity.
Qed.

(** An attempt whose outcome the decorator does not retry ends the call. *)
Lemma retry_loop_settled {A} (possible : list string) (name : string)
  (func : ImmudbWrapper -> M W A) (self : ImmudbWrapper) (fuel : nat)
  (mr : Z) (last : exn) (s s1 : state W) (r : res A) :
  mr <> 0 ->
  func self s = (r, s1) ->
  match r with
  | Raise e =>
      is_InactiveRpcError e && details_match possible (exc_details_of e) = false
  | Ok _ => True
  end ->
  retry_loop possible name func self (S fuel) mr last s = Some (r, s1).
Proof.
  intros Hmr Hf Hr. destruct r as [a|e].
  - cbn [retry_loop]. apply Z.eqb_neq in Hmr. now rewrite Hmr, Hf.
  - now apply retry_loop_unrecognized.
Qed.

Lemma not_RpcError_not_transient (e : exn) :
  is_RpcError e = false -> transient e = false.
Proof. destruct e; cbn; congruence. Qed.

(** X8. [authenticate] after a successful [login] is [verified_get].  On an
    instance whose retry counter is not zero, once [login] has succeeded the
    call returns or raises exactly what [verified_get(key)] does in the state
    [login] left: one attempt, no retry, whatever the read gives. *)
Theorem authenticate_is_verified_get_after_login (self : ImmudbWrapper)
  (key : pyval) (s s1 : state W) (fuel : nat) :
  max_retries self <> 0 ->
  login lib ledger self s = (Ok tt, s1) ->
  authenticate lib ledger (S fuel) self key s
  = Some (verified_get lib ledger self key None s1).
Proof.
  intros Hmr Hlogin.
  pose proof (verified_get_no_RpcError lib ledger self key None s1) as Hget.
  destruct (verified_get lib ledger self key None s1) as [r s2] eqn:Eg.
  unfold authenticate, retry. apply retry_loop_settled; [assumption| |].
  - unfold authenticate_func, bind. now rewrite Hlogin.
  - destruct r as [d|e]; [exact I|].
    cbn in Hget. apply not_RpcError_not_transient in Hget. exact Hget.
Qed.

(** X9. A failed read is reported, never retried.  If [login] succeeds and
    the [verifiedGet] RPC raises an RPC failure (the key is absent, or the
    call timed out: the signature of the failure does not matter),
    [authenticate] returns the mapping [{'error': ...}] of that failure after
    this single attempt; the only event after the login is the failed read. *)
Theorem authenticate_reports_failed_read (self : ImmudbWrapper)
  (key : pyval) (k : bytes) (s s1 : state W) (e : exn) (w2 : W)
  (fuel : nat) :
  max_retries self <> 0 ->
  login lib ledger self s = (Ok tt, s1) ->
  encode lib key = Ok k ->
  rpc_verifiedGet ledger k None (world s1) = (Raise e, w2) ->
  is_RpcError e = true ->
  authenticate lib ledger (S fuel) self key s
  = Some (Ok (error_record lib e),
          Build_state w2 (trace s1 ++ [EvVerifiedGet k None (Some e)])).
Proof.
  intros Hmr Hlogin Hk Hrpc He.
  unfold authenticate, retry. apply retry_loop_settled; [assumption| |exact I].
  unfold authenticate_func, bind. rewrite Hlogin.
  rewrite verified_get_unfold, Hk, Hrpc. cbn. now rewrite He.
Qed.

(** X10. A failed write is reported, never retried and not read back.  If
    [login] succeeds and the [verifiedSet] RPC raises an RPC failure, a
    timeout included, [notarize] returns the mapping [{'error': ...}] of that
    failure after this single attempt; the only event after the login is the
    failed write: no read-back, no log line, no sleep. *)
Theorem notarize_reports_failed_write (self : ImmudbWrapper)
  (key value : pyval) (k v : bytes) (s s1 : state W) (e : exn) (w2 : W)
  (fuel : nat) :
  max_retries self <> 0 ->
  login lib ledger self s = (Ok tt, s1) ->
  encode lib key = Ok k ->
  encode lib value = Ok v ->
  rpc_verifiedSet ledger k v (world s1) = (Raise e, w2) ->
  is_RpcError e = true ->
  notarize lib ledger (S fuel) self key value s
  = Some (Ok (error_record lib e),
          Build_state w2 (trace s1 ++ [EvVerifiedSet k v (Some e)])).
Proof.
  intros Hmr Hlogin Hk Hv Hrpc He.
  unfold notarize, retry. apply retry_loop_settled; [assumption| |exact I].
  unfold notarize_func, bind. rewrite Hlogin.
  rewrite verified_set_unfold, Hk, Hv, Hrpc. cbn. now rewrite He.
Qed.

(** X11. A stored value that is not JSON is a hard fault.  If [login]
    succeeds and the ledger returns an entry whose key and value decode as
    text but whose value [json.loads] rejects, [authenticate] raises the
    [JSONDecodeError]: it is not turned into an ['error'] mapping and the
    call is not retried. *)
Theorem authenticate_raises_on_non_json_value (self : ImmudbWrapper)
  (key : pyval) (k : bytes) (s s1 : state W) (g : SafeGetResponse) (w2 : W)
  (key_text value_text : string) (fuel : nat) :
  max_retries self <> 0 ->
  login lib ledger self s = (Ok tt, s1) ->
  encode lib key = Ok k ->
  rpc_verifiedGet ledger k None (world s1) = (Ok g, w2) ->
  bytes_decode lib (get_key g) = Some key_text ->
  bytes_decode lib (get_value g) = Some value_text ->
  json_loads lib value_text = None ->
  authenticate lib ledger (S fuel) self key s
  = Some (Raise JSONDecodeError,
          Build_state w2 (trace s1 ++ [EvVerifiedGet k None None])).
Proof.
  intros Hmr Hlogin Hk Hrpc Hdk Hdv Hj.
  unfold authenticate, retry. apply retry_loop_settled; [assumption| |reflexivity].
  unfold authenticate_func, bind. rewrite Hlogin.
  rewrite verified_get_unfold, Hk, Hrpc. cbn.
  now rewrite to_dict_unfold, Hdk, Hdv, Hj.
Qed.

(** X12. A value that cannot be encoded is found out after the login.  For
    a value that is not a [str], [bytes] or [dict], [notarize] with an
    encodable key logs in and then raises the [ValueError] of [encode]:
    nothing is written, nothing is read, and the call is not retried. *)
Theorem notarize_raises_on_unencodable_value (self : ImmudbWrapper)
  (key value : pyval) (k : bytes) (s s1 : state W) (fuel : nat) :
  max_retries self <> 0 ->
  login lib ledger self s = (Ok tt, s1) ->
  encode lib key = Ok k ->
  encodable value = false ->
  notarize lib ledger (S fuel) self key value s
  = Some (Raise (ValueError "Cannot encode value that isn't str, bytes or dict."),
          s1).
Proof.
  intros Hmr Hlogin Hk Hv.
  unfold notarize, retry. apply retry_loop_settled; [assumption| |reflexivity].
  unfold notarize_func, bind. rewrite Hlogin.
  rewrite verified_set_unfold, Hk.
  destruct value; try discriminate; reflexivity.
Qed.

(** *** Retrying *)

Lemma retry_loop_fails_then (ep : entry_point) (self : ImmudbWrapper) :
  0 <= retry_timeout self ->
  forall (k : nat) (mr : Z) (last : exn) (s : state W)
         (out : res pydict * state W) (fuel : nat),
    mr < 0 \/ Z.of_nat k < mr ->
    fails_then lib ledger ep self k s out ->
    (k < fuel)%nat ->
    retry_loop recognized (entry_name ep) (entry_func lib ledger ep) self
      fuel mr last s = Some out.
Proof.
  intros Htimeout.
  induction k as [|k IH]; intros mr last s out fuel Hmr Hrun Hfuel;
    (destruct fuel as [|fuel]; [lia|]).
  - destruct Hrun as [Hf Hout]. destruct out as [r s1].
    apply retry_loop_settled; [lia|assumption|].
    destruct r; [exact I | exact Hout].
  - destruct Hrun as (e & s1 & Hf & He & Hrest).
    cbn [retry_loop].
    replace (mr =? 0) with false by (symmetry; apply Z.eqb_neq; lia).
    rewrite Hf. unfold transient in He. apply andb_prop in He as [Hi Hd].
    change (details_match recognized (exc_details_of e) = true) in Hd.
    rewrite Hi, Hd, log_and_sleep_unfold.
    replace (retry_timeout self <? 0) with false
      by (symmetry; apply Z.ltb_ge; assumption).
    apply IH; [lia|exact Hrest|lia].
Qed.

(** X13. The decorator recovers from transient failures.  For [notarize] and
    [authenticate], with a valid [retry_timeout]: if the first [k] attempts
    end in a failure that is retried (each followed by the log line and the
    sleep) and the next attempt ends with an outcome that is not such a
    failure, then the call ends with exactly that outcome, provided
    [k < max_retries] (or [max_retries] is negative); [k + 1] units of fuel
    are enough. *)
Theorem retry_recovers_after_transient_failures (ep : entry_point)
  (self : ImmudbWrapper) (k : nat) (s : state W)
  (out : res pydict * state W) (fuel : nat) :
  0 <= retry_timeout self ->
  max_retries self < 0 \/ Z.of_nat k < max_retries self ->
  fails_then lib ledger ep self k s out ->
  (k < fuel)%nat ->
  entry_call lib ledger fuel self ep s = Some out.
Proof.
  intros Htimeout Hmr Hrun Hfuel.
  rewrite entry_call_retry. now apply retry_loop_fails_then with (k := k).
Qed.

Lemma retry_loop_negative_counter (ep : entry_point) (self : ImmudbWrapper) :
  login_always_transient ledger ->
  0 <= retry_timeout self ->
  forall (fuel : nat) (mr : Z) (last : exn) (s : state W),
    mr < 0 ->
    retry_loop recognized (entry_name ep) (entry_func lib ledger ep) self
      fuel mr last s = None.
Proof.
  intros Hdown Htimeout.
  induction fuel as [|fuel IH]; intros mr last s Hmr; cbn [retry_loop];
    replace (mr =? 0) with false by (symmetry; apply Z.eqb_neq; lia);
    [reflexivity|].
  destruct (Hdown (username self) (password self)
              (str_encode (database self)) (world s)) as (e & w' & Hrpc & He).
  rewrite (entry_func_login_rpc_raise lib ledger ep self s e w' Hrpc).
  unfold transient in He. apply andb_prop in He as [Hi Hd].
  change (details_match recognized (exc_details_of e) = true) in Hd.
  rewrite Hi, Hd, log_and_sleep_unfold.
  replace (retry_timeout self <? 0) with false
    by (symmetry; apply Z.ltb_ge; assumption).
  apply IH. lia.
Qed.

(** X14. A negative [max_retries] never gives up.  On a ledger whose [login]
    always fails with the recognized signature, with a valid
    [retry_timeout], a call of [notarize] or [authenticate] on an instance
    whose [max_retries] is negative does not end: whatever the fuel, the
    loop is still running when the fuel is spent. *)
Theorem negative_max_retries_never_gives_up (ep : entry_point)
  (self : ImmudbWrapper) (s : state W) (fuel : nat) :
  login_always_transient ledger ->
  0 <= retry_timeout self ->
  max_retries self < 0 ->
  entry_call lib ledger fuel self ep s = None.
Proof.
  intros Hdown Htimeout Hmr.
  rewrite entry_call_retry. now apply retry_loop_negative_counter.
Qed.

(** X15. A negative [retry_timeout] masks the failure.  If an attempt ends
    in a failure that is retried and [retry_timeout] is negative, the retry
    is logged, [time.sleep] rejects the length, and the call raises that
    [ValueError] instead of the RPC failure, after this single attempt. *)
Theorem negative_retry_timeout_raises_ValueError (ep : entry_point)
  (self : ImmudbWrapper) (s s1 : state W) (e : exn) (fuel : nat) :
  max_retries self <> 0 ->
  retry_timeout self < 0 ->
  entry_func lib ledger ep self s = (Raise e, s1) ->
  transient e = true ->
  entry_call lib ledger (S fuel) self ep s
  = Some (Raise (ValueError "sleep length must be non-negative"),
          Build_state (world s1)
            (trace s1 ++ [EvLogError (entry_name ep) (retry_timeout self)])).
Proof.
  intros Hmr Htimeout Hf He.
  rewrite entry_call_retry. cbn [retry_loop].
  apply Z.eqb_neq in Hmr. rewrite Hmr, Hf.
  unfold transient in He. apply andb_prop in He as [Hi Hd].
  change (details_match recognized (exc_details_of e) = true) in Hd.
  rewrite Hi, Hd, log_and_sleep_unfold.
  replace (retry_timeout self <? 0) with true
    by (symmetry; apply Z.ltb_lt; assumption).
  reflexivity.
Qed.

(** X16. No signature, or no detail, means no retry.  Whatever function
    [@retry] decorates: if the decorator was given no signatures ([None] or
    the empty list), or if the failure raised has no detail text ([None] or
    the empty string), the first failure is raised at once, in the state the
    single call left. *)
Theorem retry_without_signature_or_detail {A} (possible : option (list string))
  (name : string) (func : ImmudbWrapper -> M W A) (self : ImmudbWrapper)
  (s s1 : state W) (e : exn) (fuel : nat) :
  max_retries self <> 0 ->
  func self s = (Raise e, s1) ->
  possible = None \/ possible = Some []
  \/ str_truthy (exc_details_of e) = false ->
  retry possible name func (S fuel) self s = Some (Raise e, s1).
Proof.
  intros Hmr Hf Hcase. unfold retry.
  apply retry_loop_unrecognized; [assumption|assumption|].
  destruct Hcase as [-> | [-> | Hd]].
  - unfold details_match. cbn [existsb].
    destruct (exc_details_of e); now rewrite ?andb_false_r.
  - unfold details_match. cbn [existsb].
    destruct (exc_details_of e); now rewrite ?andb_false_r.
  - unfold details_match. rewrite Hd. now rewrite andb_false_r.
Qed.

(** X17. The retry bound of [authenticate].  On a ledger whose [login] RPC
    always fails with the recognized signature, an instance with a positive
    [max_retries] and a valid [retry_timeout] makes exactly [max_retries]
    attempts when [authenticate] is called, each a failed [login] call
    followed by the log line and the sleep, and then raises the failure of
    the last attempt. *)
Theorem authenticate_exhausts_max_retries (self : ImmudbWrapper)
  (key : pyval) (s : state W) :
  login_always_transient ledger ->
  0 < max_retries self ->
  0 <= retry_timeout self ->
  exists (failures : list exn) (s' : state W),
    Z.of_nat (List.length failures) = max_retries self
    /\ Forall (fun e => transient e = true) failures
    /\ trace s' = (trace s ++ flat_map (retry_block self "authenticate")
                                       failures)%list
    /\ forall fuel, (List.length failures <= fuel)%nat ->
         authenticate lib ledger fuel self key s
         = Some (Raise (List.last failures BareException), s').
Proof.
  intros Hdown Hmr Htimeout.
  destruct (retry_loop_all_transient lib ledger (Authenticate key) self Hdown
              Htimeout (Z.to_nat (max_retries self)) BareException s)
    as (failures & s' & Hlen & Hall & Htrace & Hrun).
  exists failures, s'. repeat split; auto.
  - rewrite Hlen. lia.
  - intros fuel Hfuel. rewrite Hlen in Hfuel.
    specialize (Hrun fuel Hfuel).
    rewrite Z2Nat.id in Hrun by lia. exact Hrun.
Qed.

(** X18. What [notarize] returns is what was written.  Let [login] succeed,
    let the ledger store the encoded key and value and return them on the
    read-back, and let decoding invert encoding on that key and that
    serialized record.  Then [notarize(key, record)] returns a mapping whose
    ['key'] item is the key and whose ['value'] item is the record, with the
    revision and the verification flag of the entry read back. *)
Theorem notarize_returns_the_record_written (self : ImmudbWrapper)
  (key text : string) (record : pydict) (s s1 : state W)
  (r : SetResponse) (g : SafeGetResponse) (w2 w3 : W) (fuel : nat) :
  max_retries self <> 0 ->
  login lib ledger self s = (Ok tt, s1) ->
  json_dumps lib (PDict record) = Some text ->
  rpc_verifiedSet ledger (str_encode key) (str_encode text) (world s1)
  = (Ok r, w2) ->
  rpc_verifiedGet ledger (str_encode key) None w2 = (Ok g, w3) ->
  get_key g = str_encode key ->
  get_value g = str_encode text ->
  bytes_decode lib (str_encode key) = Some key ->
  bytes_decode lib (str_encode text) = Some text ->
  json_loads lib text = Some (PDict record) ->
  exists d s',
    notarize lib ledger (S fuel) self (PStr key) (PDict record) s
    = Some (Ok d, s')
    /\ dict_get d "key" = Some (PStr key)
    /\ dict_get d "value" = Some (PDict record)
    /\ dict_get d "revision" = Some (PInt (get_revision g))
    /\ dict_get d "verified" = Some (PBool (get_verified g))
    /\ trace s'
       = (trace s1
          ++ [EvVerifiedSet (str_encode key) (str_encode text) None;
              EvVerifiedGet (str_encode key) None None])%list.
Proof.
  intros Hmr Hlogin Hdumps Hset Hget Hgk Hgv Hdk Hdv Hloads.
  eexists _, _. split.
  - unfold notarize, retry. apply retry_loop_settled; [assumption| |exact I].
    unfold notarize_func, bind. rewrite Hlogin.
    rewrite verified_set_unfold. cbn [encode]. rewrite Hdumps, Hset.
    cbn [dict_mem asdict_SetResponse fst snd].
    change (dict_mem "error" (asdict_SetResponse r)) with false. cbv iota.
    rewrite verified_get_unfold. cbn [encode world]. rewrite Hget.
    rewrite to_dict_unfold, Hgk, Hgv, Hdk, Hdv, Hloads. reflexivity.
  - cbn [trace]. repeat split. now rewrite <- app_assoc.
Qed.

(** X24. An ['error'] mapping does not mean that nothing was written.  If
    [login] and the verified write succeed and the read-back raises an RPC
    failure, [notarize] returns the mapping [{'error': ...}] of the read,
    while the ledger has accepted the write: the events after the login are
    the successful write and the failed read, and the call is not retried. *)
Theorem notarize_reports_failed_read_back_after_write (self : ImmudbWrapper)
  (key value : pyval) (k v : bytes) (s s1 : state W) (r : SetResponse)
  (e : exn) (w2 w3 : W) (fuel : nat) :
  max_retries self <> 0 ->
  login lib ledger self s = (Ok tt, s1) ->
  encode lib key = Ok k ->
  encode lib value = Ok v ->
  rpc_verifiedSet ledger k v (world s1) = (Ok r, w2) ->
  rpc_verifiedGet ledger k None w2 = (Raise e, w3) ->
  is_RpcError e = true ->
  notarize lib ledger (S fuel) self key value s
  = Some (Ok (error_record lib e),
          Build_state w3
            (trace s1 ++ [EvVerifiedSet k v None;
                          EvVerifiedGet k None (Some e)])).
Proof.
  intros Hmr Hlogin Hk Hv Hset Hget He.
  unfold notarize, retry. apply retry_loop_settled; [assumption| |exact I].
  unfold notarize_func, bind. rewrite Hlogin.
  rewrite verified_set_unfold, Hk, Hv, Hset.
  cbn [dict_mem asdict_SetResponse fst snd].
  change (dict_mem "error" (asdict_SetResponse r)) with false. cbv iota.
  rewrite verified_get_unfold, Hk. cbn [world]. rewrite Hget.
  cbn. rewrite He. now rewrite <- app_assoc.
Qed.

End MoreWrapperProperties.

(** ** Recognizing a transient failure *)

Lemma prefix_iff (sub s : string) :
  String.prefix sub s = true <-> exists post, s = sub ++ post.
Proof.
  revert s. induction sub as [|a sub IH]; intros s.
  - split; [intros _; now exists s | intros _; destruct s; reflexivity].
  - destruct s as [|b s]; cbn [String.prefix append].
    + split; [discriminate | intros [post H]; discriminate].
    + destruct (ascii_dec a b) as [<-|Hne].
      * rewrite IH. split; intros [post H]; exists post; congruence.
      * split; [discriminate | intros [post H]; congruence].
Qed.

Lemma str_in_eq (sub s : string) :
  str_in sub s
  = if String.prefix sub s then true
    else match s with
         | EmptyString => false
         | String _ s' => str_in sub s'
         end.
Proof. destruct s; reflexivity. Qed.

Lemma str_in_iff (sub s : string) :
  str_in sub s = true <-> is_substring sub s.
Proof.
  unfold is_substring. split.
  - induction s as [|c s IH]; rewrite str_in_eq.
    + destruct (String.prefix sub EmptyString) eqn:E; [|discriminate].
      intros _. apply prefix_iff in E as [post E]. now exists EmptyString, post.
    + destruct (String.prefix sub (String c s)) eqn:E.
      * intros _. apply prefix_iff in E as [post E]. now exists EmptyString, post.
      * intros H. destruct (IH H) as (pre & post & ->).
        now exists (String c pre), post.
  - intros (pre & post & ->). induction pre as [|c pre IH].
    + rewrite str_in_eq.
      replace (String.prefix sub (EmptyString ++ sub ++ post)) with true;
        [reflexivity|].
      symmetry. apply prefix_iff. now exists post.
    + rewrite str_in_eq. cbn [append].
      destruct (String.prefix sub (String c (pre ++ sub ++ post)));
        [reflexivity | exact IH].
Qed.

(** X19. What the decorator takes for a transient failure.  A failure is
    retried exactly when it is an [_InactiveRpcError] whose detail text
    contains "Connection timed out" as a contiguous run of characters,
    anywhere in the text; a failure of another class, or without detail
    text, is never retried. *)
Theorem transient_iff_details_contain_signature (e : exn) :
  transient e = true
  <-> exists d, e = InactiveRpcError (Some d)
                /\ is_substring "Connection timed out" d.
Proof.
  split.
  - destruct e as [[d|]| | | | | | | | | | |]; try (cbn; discriminate).
    intros H. unfold transient, details_match, recognized in H.
    cbn [is_InactiveRpcError exc_details_of existsb andb] in H.
    apply andb_prop in H as [_ H].
    rewrite orb_false_r in H. exists d. split; [reflexivity|].
    now apply str_in_iff.
  - intros (d & -> & Hsub). apply str_in_iff in Hsub.
    unfold transient, details_match, recognized. cbn [is_InactiveRpcError
      exc_details_of existsb str_truthy andb].
    rewrite Hsub. cbn [orb andb].
    destruct d; [discriminate Hsub | reflexivity].
Qed.

(** ** More on the git metadata *)

(** X20. ['Parents'] goes past the parents.  In a repository where neither
    HEAD nor its single parent is at the shallow boundary, whenever that
    parent has a parent of its own (three distinct shas), [iter_parents]
    yields the parent and at least one more commit, so the ['Parents'] item
    of the git block is longer than the list of the direct parents of
    HEAD. *)
Theorem parents_item_is_longer_than_direct_parents (lib : Libs)
  (shallow : list string) (c p g : Commit) (gs : list Commit) :
  sha_mem (hexsha c) shallow = false ->
  sha_mem (hexsha p) shallow = false ->
  parents c = [p] ->
  parents p = g :: gs ->
  hexsha p <> hexsha c ->
  hexsha g <> hexsha p ->
  hexsha g <> hexsha c ->
  exists x rest,
    dict_get (git_block lib shallow c) "Parents"
    = Some (PList (PStr (hexsha p) :: PStr (hexsha x)
                     :: map (fun parent => PStr (hexsha parent)) rest))
    /\ (List.length (parents c) < List.length (p :: x :: rest))%nat.
Proof.
  intros Hsc Hsp Hc Hp Hpc Hgp Hgc.
  destruct (iter_parents_goes_past_the_parents shallow c p g gs Hsc Hsp Hc Hp
              Hpc Hgp Hgc) as (x & rest & Hiter).
  exists x, rest. split.
  - change (dict_get (git_block lib shallow c) "Parents")
      with (Some (PList (map (fun parent => PStr (hexsha parent))
                           (iter_parents shallow c)))).
    now rewrite Hiter.
  - rewrite Hc. cbn. lia.
Qed.

(** X21. Where the walk stops.  Let HEAD have a single parent, and let the
    revision walk stop at HEAD (HEAD is at the shallow boundary, as in a
    clone of depth one) or at that parent (a root commit, or a commit at the
    shallow boundary).  If HEAD is not at the shallow boundary,
    [iter_parents] yields the parent and nothing else, so the ['Parents']
    item is the list of the direct parents.  If HEAD is at the shallow
    boundary, [iter_parents] yields nothing and the ['Parents'] item is
    empty, although HEAD has a parent. *)
Theorem parents_item_where_the_walk_stops (lib : Libs)
  (shallow : list string) (c p : Commit) :
  parents c = [p] ->
  hexsha p <> hexsha c ->
  sha_mem (hexsha c) shallow = true
  \/ parents p = [] \/ sha_mem (hexsha p) shallow = true ->
  iter_parents shallow c = (if sha_mem (hexsha c) shallow then [] else [p])
  /\ dict_get (git_block lib shallow c) "Parents"
     = Some (PList (if sha_mem (hexsha c) shallow then []
                    else [PStr (hexsha p)])).
Proof.
  intros Hc Hpc Hstop.
  assert (Hiter : iter_parents shallow c
                  = if sha_mem (hexsha c) shallow then [] else [p]).
  { destruct (sha_mem (hexsha c) shallow) eqn:Hsc.
    - unfold iter_parents. now rewrite (rev_list_at_boundary shallow c Hsc).
    - destruct Hstop as [Hstop | Hstop]; [discriminate|].
      assert (Hp : walk_parents shallow p = []).
      { unfold walk_parents. destruct Hstop as [Hp | Hp]; rewrite Hp;
          [destruct (sha_mem (hexsha p) shallow)|]; reflexivity. }
      rewrite (iter_parents_up_to_the_boundary shallow c p Hc Hpc Hp).
      unfold walk_parents. now rewrite Hsc, Hc. }
  split; [exact Hiter|].
  change (dict_get (git_block lib shallow c) "Parents")
    with (Some (PList (map (fun parent => PStr (hexsha parent))
                         (iter_parents shallow c)))).
  rewrite Hiter. now destruct (sha_mem (hexsha c) shallow).
Qed.

(** ** More on [get_size_format] *)

(** X22. Sizes below the factor are not scaled.  With the default factor
    and suffix, every size from 0 to 1023 bytes is printed as the integer
    itself with two zero decimals and the unit "B". *)
Theorem get_size_format_below_one_kilobyte (value : Z) :
  0 <= value < 1024 ->
  get_size_format_default value = Ok (decimal value ++ ".00 B").
Proof.
  intros Hrange.
  assert (Hall :
    forallb
      (fun n =>
         match get_size_format_default (Z.of_nat n) with
         | Ok t => String.eqb t (decimal (Z.of_nat n) ++ ".00 B")
         | Raise _ => false
         end)
      (seq 0 1024) = true) by (vm_compute; reflexivity).
  rewrite forallb_forall in Hall.
  specialize (Hall (Z.to_nat value)).
  rewrite Z2Nat.id in Hall by lia.
  assert (Hin : In (Z.to_nat value) (seq 0 1024)) by (apply in_seq; lia).
  specialize (Hall Hin).
  destruct (get_size_format_default value) as [t|e]; [|discriminate].
  apply String.eqb_eq in Hall. now subst.
Qed.

Lemma round_hundredths_nonneg (m : positive) (e : Z) :
  0 <= round_hundredths m e.
Proof.
  unfold round_hundredths. destruct (0 <=? e) eqn:He.
  - apply Z.leb_le in He.
    pose proof (Z.pow_nonneg 2 e ltac:(lia)). nia.
  - apply Z.leb_gt in He.
    assert (Hden : 0 < 2 ^ (- e)) by (apply Z.pow_pos_nonneg; lia).
    assert (Hq : 0 <= Z.pos m * 100 / 2 ^ (- e)) by (apply Z.div_pos; lia).
    cbv zeta.
    destruct (2 * ((Z.pos m * 100) mod 2 ^ (- e)) ?= 2 ^ (- e)); try lia.
    destruct (Z.even _); lia.
Qed.

(** The text of a float that is not NaN is a numeral with two decimals,
    unless the float is an infinity. *)
Lemma format_float_2f_shape (f : spec_float) :
  SF_is_nan f = false -> formatted_number (format_float_2f f).
Proof.
  destruct f as [sg|sg| |sg m e]; cbn [SF_is_nan format_float_2f];
    try discriminate; intros _.
  - left. exists sg, 0, 0. repeat split; lia.
  - right. destruct sg; [now right | now left].
  - left. pose proof (round_hundredths_nonneg m e) as Hn.
    exists sg, (round_hundredths m e / 100), (round_hundredths m e mod 100).
    split; [apply Z.div_pos; lia|].
    split; [apply Z.mod_pos_bound; lia | reflexivity].
Qed.

Lemma format_2f_shape (value : pynum) (t : string) :
  num_not_nan value = true ->
  format_2f value = Ok t ->
  formatted_number t.
Proof.
  destruct value as [z|f]; cbn [format_2f num_not_nan].
  - intros _. unfold float_of_int.
    destruct (SF_is_infinity _); [discriminate|].
    intros [= <-]. apply format_float_2f_shape, binary_normalize_not_nan.
  - intros Hf [= <-]. apply format_float_2f_shape.
    now apply negb_true_iff.
Qed.

Lemma get_size_format_loop_shape (units : list string) (value : pynum)
  (factor : Z) (suffix text : string) :
  num_not_nan value = true ->
  get_size_format_loop units value factor suffix = Ok text ->
  exists number unit,
    text = number ++ " " ++ unit ++ suffix
    /\ formatted_number number
    /\ In unit (units ++ ["Y"])%list.
Proof.
  revert value. induction units as [|u units IH]; intros value Hnan;
    cbn [get_size_format_loop].
  - destruct (format_2f value) as [t|] eqn:Et; [|discriminate].
    intros [= <-]. exists t, "Y". split; [reflexivity|].
    split; [exact (format_2f_shape value t Hnan Et) | now left].
  - destruct (num_lt value factor).
    + destruct (format_2f value) as [t|] eqn:Et; [|discriminate].
      intros [= <-]. exists t, u. split; [reflexivity|].
      split; [exact (format_2f_shape value t Hnan Et) | now left].
    + destruct (num_truediv value factor) as [value'|] eqn:Ed; [|discriminate].
      intros H.
      destruct (IH _ (num_truediv_not_nan value value' factor Hnan Ed) H)
        as (number & unit & -> & Hnum & Hin).
      exists number, unit. split; [reflexivity|].
      split; [exact Hnum | now right].
Qed.

(** X23. The shape of the result.  Whenever [get_size_format] returns, the
    text is a number with exactly two decimals (an optional minus sign, the
    digits of the whole part, a point and two digits; or the text of an
    infinity, should a float division overflow), one space, one of the nine
    unit prefixes ("", K, M, G, T, P, E, Z, Y) and the suffix; the only
    failures are the [ZeroDivisionError] and the [OverflowError] of the
    arithmetic. *)
Theorem get_size_format_result_shape (value factor : Z) (suffix : string) :
  match get_size_format value factor suffix with
  | Ok text =>
      exists number unit,
        text = number ++ " " ++ unit ++ suffix
        /\ formatted_number number
        /\ In unit (unit_prefixes ++ ["Y"])%list
  | Raise e => e = ZeroDivisionError \/ e = OverflowError
  end.
Proof.
  unfold get_size_format.
  destruct (get_size_format_loop unit_prefixes (NInt value) factor suffix)
    as [text|e] eqn:E.
  - now apply get_size_format_loop_shape in E.
  - revert E. generalize (NInt value). generalize unit_prefixes.
    induction l as [|u units IH]; intros v; cbn [get_size_format_loop].
    + destruct v as [z|f]; cbn [format_2f]; [|discriminate].
      unfold float_of_int. destruct (SF_is_infinity _); [|discriminate].
      intros [= <-]. now right.
    + destruct (num_lt v factor).
      * destruct v as [z|f]; cbn [format_2f]; [|discriminate].
        unfold float_of_int. destruct (SF_is_infinity _); [|discriminate].
        intros [= <-]. now right.
      * destruct (num_truediv v factor) as [v'|e'] eqn:Ed; [apply IH|].
        intros [= <-]. destruct v as [z|f]; cbn [num_truediv] in Ed.
        -- destruct (factor =? 0); [injection Ed as <-; now left|].
           destruct (SF_is_infinity _); [|discriminate].
           injection Ed as <-. now right.
        -- unfold float_of_int in Ed.
           destruct (SF_is_infinity _); [injection Ed as <-; now right|].
           destruct (SF_is_zero _); [|discriminate].
           injection Ed as <-. now left.
Qed.

(** ** The further statements on the simulated environments *)

Lemma hash_file_is_digest_of_whole_content_witness :
  (0 < 4 \/ 4 = -1)
  /\ hash_file Demo.lib Demo.fs (FilePath "bash.spec") "sha256" 4 None
     = Some (Ok "sha256:10")
  /\ hash_file Demo.lib Demo.fs
       (TextHandle [str_encode "N"; str_encode "a"; str_encode "m"]) "md5" 4
       None
     = Some (Ok "md5:3")
  /\ hash_file Demo.lib Demo.fs (FilePath "bash.spec") "crc32" 4 None
     = Some (Raise (ValueError "unsupported hash type crc32"))
  /\ hash_file Demo.lib Demo.fs (FilePath "bash.spec") "shake_128" 4 None
     = Some (Raise (TypeError "hexdigest() missing required argument 'length'")).
Proof.
  assert (H : 0 < 4 \/ 4 = -1) by (left; lia).
  split; [exact H|].
  split; [exact (hash_file_is_digest_of_whole_content Demo.lib Demo.fs
                   (FilePath "bash.spec") "sha256" 4 None H)|].
  split; [exact (hash_file_is_digest_of_whole_content Demo.lib Demo.fs
                   (TextHandle [str_encode "N"; str_encode "a"; str_encode "m"])
                   "md5" 4 None H)|].
  split; [exact (hash_file_is_digest_of_whole_content Demo.lib Demo.fs
                   (FilePath "bash.spec") "crc32" 4 None H)|].
  exact (hash_file_is_digest_of_whole_content Demo.lib Demo.fs
           (FilePath "bash.spec") "shake_128" 4 None H).
Defined.

Lemma hash_file_agrees_with_hash_content_witness :
  fs_read Demo.fs "bash.spec" = Some (str_encode "Name: bash")
  /\ hash_file_default Demo.lib Demo.fs "bash.spec"
     = Some (hash_content Demo.lib (PBytes (str_encode "Name: bash"))).
Proof.
  assert (H1 : fs_read Demo.fs "bash.spec" = Some (str_encode "Name: bash"))
    by reflexivity.
  split; [exact H1|].
  exact (proj1 (hash_file_agrees_with_hash_content Demo.lib Demo.fs
                  "bash.spec" "Name: bash" (str_encode "Name: bash") H1)).
Defined.

Lemma file_verbs_use_digest_of_content_witness :
  fs_read Demo.fs "bash.spec" = Some (str_encode "Name: bash")
  /\ authenticate_file Demo.lib Demo.fs (Demo.ledger Demo.Up) 1
       (Demo.instance 5) "bash.spec" Demo.start
     = authenticate Demo.lib (Demo.ledger Demo.Up) 1 (Demo.instance 5)
         (PStr "sha256:10") Demo.start.
Proof.
  assert (H1 : fs_read Demo.fs "bash.spec" = Some (str_encode "Name: bash"))
    by reflexivity.
  split; [exact H1|].
  exact (proj1 (file_verbs_use_digest_of_content Demo.lib Demo.fs
                  (Demo.ledger Demo.Up) "bash.spec" (str_encode "Name: bash")
                  1%nat (Demo.instance 5) None Demo.start H1)).
Defined.

Lemma caller_faults_precede_the_ledger_witness :
  fs_read Demo.fs "missing.txt" = None
  /\ Demo.git_open "elsewhere" = None
  /\ Demo.git_open "plain_dir" = None
  /\ notarize_file Demo.lib Demo.fs (Demo.ledger Demo.Up) 1 (Demo.instance 0)
       "missing.txt" None Demo.start
     = Some (Raise (OSError "missing.txt"), Demo.start)
  /\ notarize_git_repo Demo.lib Demo.fs Demo.git_open (Demo.ledger Demo.Up) 1
       (Demo.instance 0) "elsewhere" None Demo.start
     = Some (Raise (NoSuchPathError "elsewhere"), Demo.start)
  /\ notarize_git_repo Demo.lib Demo.fs Demo.git_open (Demo.ledger Demo.Up) 1
       (Demo.instance 0) "plain_dir" None Demo.start
     = Some (Raise (InvalidGitRepositoryError "plain_dir"), Demo.start).
Proof.
  assert (H1 : fs_read Demo.fs "missing.txt" = None) by reflexivity.
  assert (H2 : Demo.git_open "elsewhere" = None) by reflexivity.
  assert (H3 : Demo.git_open "plain_dir" = None) by reflexivity.
  split; [exact H1|]. split; [exact H2|]. split; [exact H3|].
  split; [exact (proj1 (caller_faults_precede_the_ledger Demo.lib Demo.fs
                          Demo.git_open (Demo.ledger Demo.Up) "missing.txt"
                          "elsewhere" 1%nat (Demo.instance 0) None Demo.start
                          H1 H2))|].
  split.
  - exact (proj1 (proj2 (proj2 (caller_faults_precede_the_ledger Demo.lib
                                  Demo.fs Demo.git_open (Demo.ledger Demo.Up)
                                  "missing.txt" "elsewhere" 1%nat
                                  (Demo.instance 0) None Demo.start H1 H2)))).
  - exact (proj1 (proj2 (proj2 (caller_faults_precede_the_ledger Demo.lib
                                  Demo.fs Demo.git_open (Demo.ledger Demo.Up)
                                  "missing.txt" "plain_dir" 1%nat
                                  (Demo.instance 0) None Demo.start H1 H3)))).
Defined.

Lemma error_item_marks_rpc_failure_witness :
  dict_mem "error"
    (Demo.ok_or_empty
       (fst (verified_get Demo.lib (Demo.ledger Demo.Up) (Demo.instance 5)
               (PStr "k") None Demo.start))) = true
  /\ dict_mem "error"
       (Demo.ok_or_empty
          (fst (verified_set Demo.lib (Demo.ledger Demo.Up) (Demo.instance 5)
                  (PStr "k") (PStr "v") Demo.start))) = false.
Proof.
  assert (H1 : encode Demo.lib (PStr "k") = Ok (str_encode "k")) by reflexivity.
  assert (H2 : encode Demo.lib (PStr "v") = Ok (str_encode "v")) by reflexivity.
  assert (H3 : verified_get Demo.lib (Demo.ledger Demo.Up) (Demo.instance 5)
                 (PStr "k") None Demo.start
               = (Ok (Demo.ok_or_empty
                        (fst (verified_get Demo.lib (Demo.ledger Demo.Up)
                                (Demo.instance 5) (PStr "k") None Demo.start))),
                  snd (verified_get Demo.lib (Demo.ledger Demo.Up)
                         (Demo.instance 5) (PStr "k") None Demo.start)))
    by reflexivity.
  assert (H4 : verified_set Demo.lib (Demo.ledger Demo.Up) (Demo.instance 5)
                 (PStr "k") (PStr "v") Demo.start
               = (Ok (Demo.ok_or_empty
                        (fst (verified_set Demo.lib (Demo.ledger Demo.Up)
                                (Demo.instance 5) (PStr "k") (PStr "v")
                                Demo.start))),
                  snd (verified_set Demo.lib (Demo.ledger Demo.Up)
                         (Demo.instance 5) (PStr "k") (PStr "v") Demo.start)))
    by reflexivity.
  exact (error_item_marks_rpc_failure Demo.lib (Demo.ledger Demo.Up)
           (Demo.instance 5) (PStr "k") (PStr "v") _ _ None Demo.start _ _ _ _
           H1 H2 H3 H4).
Defined.

Lemma authenticate_is_verified_get_after_login_witness :
  max_retries (Demo.instance 5) <> 0
  /\ authenticate Demo.lib (Demo.ledger Demo.Up) 1 (Demo.instance 5)
       (PStr "k") Demo.start
     = Some (verified_get Demo.lib (Demo.ledger Demo.Up) (Demo.instance 5)
               (PStr "k") None
               (snd (login Demo.lib (Demo.ledger Demo.Up) (Demo.instance 5)
                       Demo.start))).
Proof.
  assert (H1 : max_retries (Demo.instance 5) <> 0) by (simpl; lia).
  assert (H2 : login Demo.lib (Demo.ledger Demo.Up) (Demo.instance 5) Demo.start
               = (Ok tt,
                  snd (login Demo.lib (Demo.ledger Demo.Up) (Demo.instance 5)
                         Demo.start))) by reflexivity.
  split; [exact H1|].
  exact (authenticate_is_verified_get_after_login Demo.lib
           (Demo.ledger Demo.Up) (Demo.instance 5) (PStr "k") Demo.start _
           0%nat H1 H2).
Defined.

Lemma authenticate_reports_failed_read_witness :
  max_retries (Demo.instance 5) <> 0
  /\ exists s',
       authenticate Demo.lib (Demo.ledger Demo.Up) 1 (Demo.instance 5)
         (PStr "k") Demo.start
       = Some (Ok [("error",
                    PStr "grpc._channel._InactiveRpcError: tbtree: key not found")],
               s').
Proof.
  assert (H1 : max_retries (Demo.instance 5) <> 0) by (simpl; lia).
  assert (H2 : login Demo.lib (Demo.ledger Demo.Up) (Demo.instance 5) Demo.start
               = (Ok tt,
                  snd (login Demo.lib (Demo.ledger Demo.Up) (Demo.instance 5)
                         Demo.start))) by reflexivity.
  assert (H3 : encode Demo.lib (PStr "k") = Ok (str_encode "k")) by reflexivity.
  assert (H4 : rpc_verifiedGet (Demo.ledger Demo.Up) (str_encode "k") None
                 (world (snd (login Demo.lib (Demo.ledger Demo.Up)
                                (Demo.instance 5) Demo.start)))
               = (Raise (InactiveRpcError (Some "tbtree: key not found")),
                  world Demo.start)) by reflexivity.
  assert (H5 : is_RpcError (InactiveRpcError (Some "tbtree: key not found"))
               = true) by reflexivity.
  split; [exact H1|]. eexists.
  exact (authenticate_reports_failed_read Demo.lib (Demo.ledger Demo.Up)
           (Demo.instance 5) (PStr "k") _ Demo.start _ _ _ 0%nat
           H1 H2 H3 H4 H5).
Defined.

Lemma notarize_reports_failed_write_witness :
  max_retries (Demo.instance 5) <> 0
  /\ transient Demo.timeout_failure = true
  /\ exists s',
       notarize Demo.lib Demo.ledger_write_timeout 1 (Demo.instance 5)
         (PStr "k") (PStr "v") Demo.start
       = Some (Ok (error_record Demo.lib Demo.timeout_failure), s').
Proof.
  assert (H1 : max_retries (Demo.instance 5) <> 0) by (simpl; lia).
  assert (H2 : login Demo.lib Demo.ledger_write_timeout (Demo.instance 5)
                 Demo.start
               = (Ok tt,
                  snd (login Demo.lib Demo.ledger_write_timeout
                         (Demo.instance 5) Demo.start))) by reflexivity.
  assert (H3 : encode Demo.lib (PStr "k") = Ok (str_encode "k")) by reflexivity.
  assert (H4 : encode Demo.lib (PStr "v") = Ok (str_encode "v")) by reflexivity.
  assert (H5 : rpc_verifiedSet Demo.ledger_write_timeout (str_encode "k")
                 (str_encode "v")
                 (world (snd (login Demo.lib Demo.ledger_write_timeout
                                (Demo.instance 5) Demo.start)))
               = (Raise Demo.timeout_failure, world Demo.start))
    by reflexivity.
  assert (H6 : is_RpcError Demo.timeout_failure = true) by reflexivity.
  split; [exact H1|]. split; [reflexivity|]. eexists.
  exact (notarize_reports_failed_write Demo.lib Demo.ledger_write_timeout
           (Demo.instance 5) (PStr "k") (PStr "v") _ _ Demo.start _ _ _ 0%nat
           H1 H2 H3 H4 H5 H6).
Defined.

Lemma authenticate_raises_on_non_json_value_witness :
  max_retries (Demo.instance 5) <> 0
  /\ json_loads Demo.lib_echo "oops" = None
  /\ exists s',
       authenticate Demo.lib_echo (Demo.ledger Demo.Up) 1 (Demo.instance 5)
         (PStr "k") Demo.with_garbage
       = Some (Raise JSONDecodeError, s').
Proof.
  assert (H1 : max_retries (Demo.instance 5) <> 0) by (simpl; lia).
  assert (H2 : login Demo.lib_echo (Demo.ledger Demo.Up) (Demo.instance 5)
                 Demo.with_garbage
               = (Ok tt,
                  snd (login Demo.lib_echo (Demo.ledger Demo.Up)
                         (Demo.instance 5) Demo.with_garbage))) by reflexivity.
  assert (H3 : encode Demo.lib_echo (PStr "k") = Ok (str_encode "k"))
    by reflexivity.
  assert (H4 : rpc_verifiedGet (Demo.ledger Demo.Up) (str_encode "k") None
                 (world (snd (login Demo.lib_echo (Demo.ledger Demo.Up)
                                (Demo.instance 5) Demo.with_garbage)))
               = (Ok {| get_id := 1; get_key := str_encode "k";
                        get_value := str_encode "oops"; get_timestamp := 0;
                        get_verified := true; get_refkey := None;
                        get_revision := 1 |},
                  world Demo.with_garbage)) by reflexivity.
  assert (H5 : bytes_decode Demo.lib_echo (str_encode "k") = Some "k")
    by reflexivity.
  assert (H6 : bytes_decode Demo.lib_echo (str_encode "oops") = Some "oops")
    by reflexivity.
  assert (H7 : json_loads Demo.lib_echo "oops" = None) by reflexivity.
  split; [exact H1|]. split; [exact H7|]. eexists.
  exact (authenticate_raises_on_non_json_value Demo.lib_echo
           (Demo.ledger Demo.Up) (Demo.instance 5) (PStr "k") _
           Demo.with_garbage _ _ _ "k" "oops" 0%nat H1 H2 H3 H4 H5 H6 H7).
Defined.

Lemma notarize_raises_on_unencodable_value_witness :
  max_retries (Demo.instance 5) <> 0
  /\ encodable (PInt 5) = false
  /\ notarize Demo.lib (Demo.ledger Demo.Up) 1 (Demo.instance 5)
       (PStr "k") (PInt 5) Demo.start
     = Some (Raise (ValueError
                      "Cannot encode value that isn't str, bytes or dict."),
             snd (login Demo.lib (Demo.ledger Demo.Up) (Demo.instance 5)
                    Demo.start)).
Proof.
  assert (H1 : max_retries (Demo.instance 5) <> 0) by (simpl; lia).
  assert (H2 : login Demo.lib (Demo.ledger Demo.Up) (Demo.instance 5) Demo.start
               = (Ok tt,
                  snd (login Demo.lib (Demo.ledger Demo.Up) (Demo.instance 5)
                         Demo.start))) by reflexivity.
  assert (H3 : encode Demo.lib (PStr "k") = Ok (str_encode "k")) by reflexivity.
  assert (H4 : encodable (PInt 5) = false) by reflexivity.
  split; [exact H1|]. split; [exact H4|].
  exact (notarize_raises_on_unencodable_value Demo.lib (Demo.ledger Demo.Up)
           (Demo.instance 5) (PStr "k") (PInt 5) _ Demo.start _ 0%nat
           H1 H2 H3 H4).
Defined.

Lemma retry_recovers_after_transient_failures_witness :
  0 <= retry_timeout (Demo.instance 5)
  /\ (max_retries (Demo.instance 5) < 0 \/ Z.of_nat 2 < max_retries (Demo.instance 5))
  /\ exists d s',
       entry_call Demo.lib Demo.ledger_flaky 3 (Demo.instance 5)
         (Notarize (PStr "k") (PStr "v")) Demo.start = Some (Ok d, s')
       /\ count_events is_sleep (trace s') = 2%nat.
Proof.
  assert (H1 : 0 <= retry_timeout (Demo.instance 5)) by (simpl; lia).
  assert (H2 : max_retries (Demo.instance 5) < 0
               \/ Z.of_nat 2 < max_retries (Demo.instance 5))
    by (right; simpl; lia).
  assert (H3 : fails_then Demo.lib Demo.ledger_flaky
                 (Notarize (PStr "k") (PStr "v")) (Demo.instance 5) 2
                 Demo.start
                 (entry_func Demo.lib Demo.ledger_flaky
                    (Notarize (PStr "k") (PStr "v")) (Demo.instance 5)
                    (after_backoff (Demo.instance 5) "notarize"
                       (snd (entry_func Demo.lib Demo.ledger_flaky
                               (Notarize (PStr "k") (PStr "v"))
                               (Demo.instance 5)
                               (after_backoff (Demo.instance 5) "notarize"
                                  (snd (entry_func Demo.lib Demo.ledger_flaky
                                          (Notarize (PStr "k") (PStr "v"))
                                          (Demo.instance 5) Demo.start)))))))).
  { exists Demo.timeout_failure, (snd (entry_func Demo.lib Demo.ledger_flaky
                                         (Notarize (PStr "k") (PStr "v"))
                                         (Demo.instance 5) Demo.start)).
    split; [reflexivity|]. split; [reflexivity|].
    exists Demo.timeout_failure,
      (snd (entry_func Demo.lib Demo.ledger_flaky
              (Notarize (PStr "k") (PStr "v")) (Demo.instance 5)
              (after_backoff (Demo.instance 5) "notarize"
                 (snd (entry_func Demo.lib Demo.ledger_flaky
                         (Notarize (PStr "k") (PStr "v"))
                         (Demo.instance 5) Demo.start))))).
    split; [reflexivity|]. split; [reflexivity|].
    split; [reflexivity | exact I]. }
  assert (H4 : (2 < 3)%nat) by lia.
  split; [exact H1|]. split; [exact H2|].
  eexists _, _. split.
  - rewrite (retry_recovers_after_transient_failures Demo.lib Demo.ledger_flaky
               (Notarize (PStr "k") (PStr "v")) (Demo.instance 5) 2
               Demo.start _ 3 H1 H2 H3 H4).
    vm_compute. reflexivity.
  - reflexivity.
Defined.

Lemma negative_max_retries_never_gives_up_witness :
  login_always_transient (Demo.ledger Demo.TimedOut)
  /\ max_retries (Demo.instance (-1)) < 0
  /\ entry_call Demo.lib (Demo.ledger Demo.TimedOut) 9 (Demo.instance (-1))
       (Authenticate (PStr "k")) Demo.start = None.
Proof.
  assert (H1 : login_always_transient (Demo.ledger Demo.TimedOut)).
  { intros u p db w. exists Demo.timeout_failure, w. split; reflexivity. }
  assert (H2 : 0 <= retry_timeout (Demo.instance (-1))) by (simpl; lia).
  assert (H3 : max_retries (Demo.instance (-1)) < 0) by (simpl; lia).
  split; [exact H1|]. split; [exact H3|].
  exact (negative_max_retries_never_gives_up Demo.lib
           (Demo.ledger Demo.TimedOut) (Authenticate (PStr "k"))
           (Demo.instance (-1)) Demo.start 9 H1 H2 H3).
Defined.

Lemma negative_retry_timeout_raises_ValueError_witness :
  max_retries Demo.impatient <> 0
  /\ retry_timeout Demo.impatient < 0
  /\ transient Demo.timeout_failure = true
  /\ exists s',
       entry_call Demo.lib (Demo.ledger Demo.TimedOut) 1 Demo.impatient
         (Authenticate (PStr "k")) Demo.start
       = Some (Raise (ValueError "sleep length must be non-negative"), s').
Proof.
  assert (H1 : max_retries Demo.impatient <> 0) by (simpl; lia).
  assert (H2 : retry_timeout Demo.impatient < 0) by (simpl; lia).
  assert (H3 : entry_func Demo.lib (Demo.ledger Demo.TimedOut)
                 (Authenticate (PStr "k")) Demo.impatient Demo.start
               = (Raise Demo.timeout_failure,
                  snd (entry_func Demo.lib (Demo.ledger Demo.TimedOut)
                         (Authenticate (PStr "k")) Demo.impatient Demo.start)))
    by reflexivity.
  assert (H4 : transient Demo.timeout_failure = true) by reflexivity.
  split; [exact H1|]. split; [exact H2|]. split; [exact H4|]. eexists.
  exact (negative_retry_timeout_raises_ValueError Demo.lib
           (Demo.ledger Demo.TimedOut) (Authenticate (PStr "k")) Demo.impatient
           Demo.start _ Demo.timeout_failure 0%nat H1 H2 H3 H4).
Defined.

Lemma retry_without_signature_or_detail_witness :
  max_retries (Demo.instance 5) <> 0
  /\ retry None "authenticate"
       (authenticate_func Demo.lib (Demo.ledger Demo.TimedOut) (PStr "k"))
       1 (Demo.instance 5) Demo.start
     = Some (Raise Demo.timeout_failure,
             snd (authenticate_func Demo.lib (Demo.ledger Demo.TimedOut)
                    (PStr "k") (Demo.instance 5) Demo.start)).
Proof.
  assert (H1 : max_retries (Demo.instance 5) <> 0) by (simpl; lia).
  assert (H2 : authenticate_func Demo.lib (Demo.ledger Demo.TimedOut) (PStr "k")
                 (Demo.instance 5) Demo.start
               = (Raise Demo.timeout_failure,
                  snd (authenticate_func Demo.lib (Demo.ledger Demo.TimedOut)
                         (PStr "k") (Demo.instance 5) Demo.start)))
    by reflexivity.
  assert (H3 : @None (list string) = None \/ @None (list string) = Some []
               \/ str_truthy (exc_details_of Demo.timeout_failure) = false)
    by (left; reflexivity).
  split; [exact H1|].
  exact (retry_without_signature_or_detail None "authenticate"
           (authenticate_func Demo.lib (Demo.ledger Demo.TimedOut) (PStr "k"))
           (Demo.instance 5) Demo.start _ Demo.timeout_failure 0%nat
           H1 H2 H3).
Defined.

Lemma authenticate_exhausts_max_retries_witness :
  login_always_transient (Demo.ledger Demo.TimedOut)
  /\ 0 < max_retries (Demo.instance 3)
  /\ 0 <= retry_timeout (Demo.instance 3)
  /\ exists (failures : list exn) (s' : state Demo.service),
       Z.of_nat (List.length failures) = max_retries (Demo.instance 3)
       /\ Forall (fun e => transient e = true) failures
       /\ trace s' = (trace Demo.start
                      ++ flat_map (retry_block (Demo.instance 3) "authenticate")
                           failures)%list
       /\ forall fuel, (List.length failures <= fuel)%nat ->
            authenticate Demo.lib (Demo.ledger Demo.TimedOut) fuel
              (Demo.instance 3) (PStr "k") Demo.start
            = Some (Raise (List.last failures BareException), s').
Proof.
  assert (H1 : login_always_transient (Demo.ledger Demo.TimedOut)).
  { intros u p db w. exists Demo.timeout_failure, w. split; reflexivity. }
  assert (H2 : 0 < max_retries (Demo.instance 3)) by (simpl; lia).
  assert (H3 : 0 <= retry_timeout (Demo.instance 3)) by (simpl; lia).
  split; [exact H1|]. split; [exact H2|]. split; [exact H3|].
  exact (authenticate_exhausts_max_retries Demo.lib (Demo.ledger Demo.TimedOut)
           (Demo.instance 3) (PStr "k") Demo.start H1 H2 H3).
Defined.

Lemma notarize_returns_the_record_written_witness :
  json_dumps Demo.lib_echo (PDict Demo.echo_record) = Some "{'Name': 'x'}"
  /\ json_loads Demo.lib_echo "{'Name': 'x'}" = Some (PDict Demo.echo_record)
  /\ exists d s',
       notarize Demo.lib_echo (Demo.ledger Demo.Up) 1 (Demo.instance 5)
         (PStr "k") (PDict Demo.echo_record) Demo.start = Some (Ok d, s')
       /\ dict_get d "value" = Some (PDict Demo.echo_record).
Proof.
  assert (H1 : max_retries (Demo.instance 5) <> 0) by (simpl; lia).
  assert (H2 : login Demo.lib_echo (Demo.ledger Demo.Up) (Demo.instance 5)
                 Demo.start
               = (Ok tt,
                  snd (login Demo.lib_echo (Demo.ledger Demo.Up)
                         (Demo.instance 5) Demo.start))) by reflexivity.
  assert (H3 : json_dumps Demo.lib_echo (PDict Demo.echo_record)
               = Some "{'Name': 'x'}") by reflexivity.
  assert (H4 : json_loads Demo.lib_echo "{'Name': 'x'}"
               = Some (PDict Demo.echo_record)) by reflexivity.
  split; [exact H3|]. split; [exact H4|].
  destruct (notarize_returns_the_record_written Demo.lib_echo
              (Demo.ledger Demo.Up) (Demo.instance 5) "k" "{'Name': 'x'}"
              Demo.echo_record Demo.start _
              {| set_id := 1; set_verified := true |}
              {| get_id := 1; get_key := str_encode "k";
                 get_value := str_encode "{'Name': 'x'}"; get_timestamp := 0;
                 get_verified := true; get_refkey := None; get_revision := 1 |}
              {| Demo.w_store := [(str_encode "k", str_encode "{'Name': 'x'}")];
                 Demo.w_tx := 1 |}
              {| Demo.w_store := [(str_encode "k", str_encode "{'Name': 'x'}")];
                 Demo.w_tx := 1 |}
              0%nat H1 H2 H3 eq_refl eq_refl eq_refl eq_refl eq_refl eq_refl H4)
    as (d & s' & Hrun & _ & Hvalue & _).
  exists d, s'. split; [exact Hrun | exact Hvalue].
Defined.

Lemma parents_item_is_longer_than_direct_parents_witness :
  parents Demo.head = [Demo.middle]
  /\ parents Demo.middle = [Demo.root]
  /\ exists x rest,
       dict_get (git_block Demo.lib (repo_shallow Demo.clone) Demo.head)
         "Parents"
       = Some (PList (PStr (hexsha Demo.middle) :: PStr (hexsha x)
                        :: map (fun parent => PStr (hexsha parent)) rest))
       /\ (List.length (parents Demo.head)
           < List.length (Demo.middle :: x :: rest))%nat.
Proof.
  assert (H1 : parents Demo.head = [Demo.middle]) by reflexivity.
  assert (H2 : parents Demo.middle = [Demo.root]) by reflexivity.
  assert (H3 : hexsha Demo.middle <> hexsha Demo.head) by (simpl; discriminate).
  assert (H4 : hexsha Demo.root <> hexsha Demo.middle) by (simpl; discriminate).
  assert (H5 : hexsha Demo.root <> hexsha Demo.head) by (simpl; discriminate).
  assert (H6 : sha_mem (hexsha Demo.head) (repo_shallow Demo.clone) = false)
    by reflexivity.
  assert (H7 : sha_mem (hexsha Demo.middle) (repo_shallow Demo.clone) = false)
    by reflexivity.
  split; [exact H1|]. split; [exact H2|].
  exact (parents_item_is_longer_than_direct_parents Demo.lib
           (repo_shallow Demo.clone) Demo.head Demo.middle Demo.root [] H6 H7
           H1 H2 H3 H4 H5).
Defined.

Lemma parents_item_where_the_walk_stops_witness :
  parents Demo.middle = [Demo.root]
  /\ parents Demo.head = [Demo.middle]
  /\ iter_parents [] Demo.middle = [Demo.root]
  /\ iter_parents [hexsha Demo.middle] Demo.head = [Demo.middle]
  /\ iter_parents (repo_shallow Demo.shallow_clone) Demo.head = [].
Proof.
  assert (H1 : parents Demo.middle = [Demo.root]) by reflexivity.
  assert (H2 : parents Demo.head = [Demo.middle]) by reflexivity.
  assert (H3 : hexsha Demo.root <> hexsha Demo.middle) by (simpl; discriminate).
  assert (H4 : hexsha Demo.middle <> hexsha Demo.head) by (simpl; discriminate).
  assert (H5 : sha_mem (hexsha Demo.middle) [] = true
               \/ parents Demo.root = []
               \/ sha_mem (hexsha Demo.root) [] = true)
    by (right; left; reflexivity).
  assert (H6 : sha_mem (hexsha Demo.head) [hexsha Demo.middle] = true
               \/ parents Demo.middle = []
               \/ sha_mem (hexsha Demo.middle) [hexsha Demo.middle] = true)
    by (right; right; reflexivity).
  assert (H7 : sha_mem (hexsha Demo.head) (repo_shallow Demo.shallow_clone)
               = true
               \/ parents Demo.middle = []
               \/ sha_mem (hexsha Demo.middle)
                    (repo_shallow Demo.shallow_clone) = true)
    by (left; reflexivity).
  split; [exact H1|]. split; [exact H2|].
  split; [exact (proj1 (parents_item_where_the_walk_stops Demo.lib []
                          Demo.middle Demo.root H1 H3 H5))|].
  split; [exact (proj1 (parents_item_where_the_walk_stops Demo.lib
                          [hexsha Demo.middle] Demo.head Demo.middle H2 H4
                          H6))|].
  exact (proj1 (parents_item_where_the_walk_stops Demo.lib
                  (repo_shallow Demo.shallow_clone) Demo.head Demo.middle H2
                  H4 H7)).
Defined.

Lemma get_size_format_below_one_kilobyte_witness :
  0 <= 512 < 1024 /\ get_size_format_default 512 = Ok "512.00 B".
Proof.
  assert (H : 0 <= 512 < 1024) by lia.
  split; [exact H|].
  exact (get_size_format_below_one_kilobyte 512 H).
Defined.

(** ** The git verbs and the size of the directory *)

(** X25. Only the notarization needs the directory to be readable.  For a
    valid repository whose directory holds an entry that cannot be read,
    [notarize_git_repo] raises the [OSError] of the first such entry before
    the ledger is touched, while [authenticate_git_repo], which computes no
    size, is still [authenticate] under the key of the commit. *)
Theorem unreadable_entry_stops_notarize_git_repo_only (lib : Libs)
  (fs : FileSystem) (git_open : string -> option Repo) {W : Type}
  (ledger : Ledger W) (path url file : string) (repo : Repo) (c : Commit)
  (key : string) (fuel : nat) (self : ImmudbWrapper)
  (user_metadata : option pydict) (s : state W) :
  git_open path = Some repo ->
  repo_remote_url repo = Some url ->
  repo_commit repo = Some c ->
  git_artifact_key lib (repo_shallow repo) c = Some key ->
  find (unreadable fs) (fs_rglob fs path) = Some file ->
  notarize_git_repo lib fs git_open ledger fuel self path user_metadata s
  = Some (Raise (OSError file), s)
  /\ authenticate_git_repo lib fs git_open ledger fuel self path s
     = authenticate lib ledger fuel self (PStr key) s.
Proof.
  intros Ho Hu Hc Hk Hfind.
  pose proof (extract_git_metadata_ok lib fs git_open path url repo c Ho Hu Hc)
    as He.
  pose proof (metadata_hash_of_git_block lib (PStr (git_identity lib url c))
                (repo_shallow repo) c key Hk) as Hh.
  split.
  - unfold notarize_git_repo. rewrite He. cbn [lift_opt]. rewrite Hh.
    cbn [lift_opt]. unfold notarize_git_repo_payload.
    change (dict_item [("Name", PStr (git_identity lib url c));
                       ("git", PDict (git_block lib (repo_shallow repo) c))]
              "Name") with (Ok (PStr (git_identity lib url c))).
    cbv iota. unfold get_directory_size.
    rewrite get_directory_size_fold, Hfind. reflexivity.
  - unfold authenticate_git_repo. rewrite He. cbn [lift_opt]. now rewrite Hh.
Qed.

Lemma notarize_reports_failed_read_back_after_write_witness :
  max_retries (Demo.instance 5) <> 0
  /\ exists s',
       notarize Demo.lib Demo.ledger_read_timeout 1 (Demo.instance 5)
         (PStr "k") (PStr "v") Demo.start
       = Some (Ok (error_record Demo.lib Demo.timeout_failure), s')
       /\ Demo.w_store (world s') = [(str_encode "k", str_encode "v")].
Proof.
  assert (H1 : max_retries (Demo.instance 5) <> 0) by (simpl; lia).
  assert (H2 : login Demo.lib Demo.ledger_read_timeout (Demo.instance 5)
                 Demo.start
               = (Ok tt,
                  snd (login Demo.lib Demo.ledger_read_timeout
                         (Demo.instance 5) Demo.start))) by reflexivity.
  assert (H3 : encode Demo.lib (PStr "k") = Ok (str_encode "k")) by reflexivity.
  assert (H4 : encode Demo.lib (PStr "v") = Ok (str_encode "v")) by reflexivity.
  split; [exact H1|]. eexists. split.
  - exact (notarize_reports_failed_read_back_after_write Demo.lib
             Demo.ledger_read_timeout (Demo.instance 5) (PStr "k") (PStr "v")
             _ _ Demo.start _
             {| set_id := 1; set_verified := true |} Demo.timeout_failure
             {| Demo.w_store := [(str_encode "k", str_encode "v")];
                Demo.w_tx := 1 |}
             {| Demo.w_store := [(str_encode "k", str_encode "v")];
                Demo.w_tx := 1 |}
             0%nat H1 H2 H3 H4 eq_refl eq_refl eq_refl).
  - reflexivity.
Defined.

Lemma unreadable_entry_stops_notarize_git_repo_only_witness :
  Demo.git_open "clone_a" = Some Demo.clone
  /\ find (unreadable Demo.fs_dangling) (fs_rglob Demo.fs_dangling "clone_a")
     = Some "clone_a/dangling"
  /\ notarize_git_repo Demo.lib Demo.fs_dangling Demo.git_open
       (Demo.ledger Demo.Up) 1 (Demo.instance 5) "clone_a" None Demo.start
     = Some (Raise (OSError "clone_a/dangling"), Demo.start).
Proof.
  assert (H1 : Demo.git_open "clone_a" = Some Demo.clone) by reflexivity.
  assert (H2 : repo_remote_url Demo.clone
               = Some "https://git.almalinux.org/rpms/bash.git") by reflexivity.
  assert (H3 : repo_commit Demo.clone = Some Demo.head) by reflexivity.
  assert (H4 : git_artifact_key Demo.lib (repo_shallow Demo.clone) Demo.head
               = Some "sha256:297")
    by (vm_compute; reflexivity).
  assert (H5 : find (unreadable Demo.fs_dangling)
                 (fs_rglob Demo.fs_dangling "clone_a")
               = Some "clone_a/dangling") by reflexivity.
  split; [exact H1|]. split; [exact H5|].
  exact (proj1 (unreadable_entry_stops_notarize_git_repo_only Demo.lib
                  Demo.fs_dangling Demo.git_open (Demo.ledger Demo.Up)
                  "clone_a" _ "clone_a/dangling" Demo.clone Demo.head
                  "sha256:297" 1%nat (Demo.instance 5) None Demo.start
                  H1 H2 H3 H4 H5)).
Defined.
